(** * Goblina video pipeline: size negotiation, submission, polling, cleanup

    A shallow embedding of the video-generation part of [server.js]
    (the catalog [VALID_SORA_SIZES], [mapToValidSoraSize],
    [callOpenAIVideoCreate] and the routes [/api/generate],
    [/api/status/:id] and [/api/remix]) together with the properties the
    specification states about them; of the password protection in front
    of these routes (the cookie parser, [requireAuth], login, logout and
    the auth status); and of the scene images of the later revision
    ([generateNanoBananaImage], its prompts and its two routes).

    JavaScript numbers are IEEE 754 binary64 values; they are modelled by
    [spec_float] with precision 53 and maximal exponent 1024, so that
    [9/16], [16/9] and [width / height] round exactly as they do in the
    source.  JavaScript strings are modelled by [string]: sequences of
    code units below 256. *)

From Stdlib Require Import ZArith NArith PArith List Bool Ascii String Lia.
From Stdlib Require Import Floats.SpecFloat.
From Stdlib Require Import DecimalString.
Import ListNotations.

Local Open Scope string_scope.
Local Open Scope list_scope.
Local Open Scope Z_scope.

(* ================================================================== *)
(** ** JavaScript numbers *)
(* ================================================================== *)

Module JsNumber.

Definition number := spec_float.

Definition prec : Z := 53.
Definition emax : Z := 1024.

Definition NaN : number := S754_nan.
Definition zero : number := S754_zero false.

(** An integer literal such as [720]. *)
Definition of_Z (z : Z) : number := binary_normalize prec emax z 0 false.
Definition of_N (n : N) : number := of_Z (Z.of_N n).

Definition div (x y : number) : number := SFdiv prec emax x y.
Definition sub (x y : number) : number := SFsub prec emax x y.
(** [Math.abs] *)
Definition abs (x : number) : number := SFabs x.
(** [x < y] and [x > y] *)
Definition lt (x y : number) : bool := SFltb x y.
Definition gt (x y : number) : bool := SFltb y x.
(** [x === y] on two numbers *)
Definition strict_eq (x y : number) : bool := SFeqb x y.

(** [!x] for a number: true for [NaN], [+0] and [-0]. *)
Definition falsy (x : number) : bool :=
  match x with
  | S754_nan | S754_zero _ => true
  | _ => false
  end.


(** Correctly rounded value of [m * 10^e], the mathematical value of a
    decimal literal with digits [m] and decimal exponent [e]. *)
Definition round_decimal (neg : bool) (m : positive) (e : Z) : number :=
  match e with
  | Zneg k =>
      let d := Z.pow 10 (Zpos k) in
      let s := Z.max 0 (Zdigits2 d + 64 - Zdigits2 (Zpos m)) in
      let '(q, r) := Z.div_eucl (Z.shiftl (Zpos m) s) d in
      binary_round_aux prec emax neg q (- s) (new_location d r)
  | _ =>
      match Z.pow 10 e * Zpos m with
      | Zpos p => binary_round prec emax neg p 0
      | _ => S754_nan
      end
  end.

End JsNumber.

Import JsNumber.

(* ================================================================== *)
(** ** [Number(string)] and [String.prototype.split] *)
(* ================================================================== *)

Module JsString.

Definition chars (s : string) : list ascii := list_ascii_of_string s.
Definition code (c : ascii) : N := N_of_ascii c.

(** StrWhiteSpaceChar, restricted to code units below 256:
    TAB, LF, VT, FF, CR, SP and NBSP. *)
Definition isWhiteSpace (c : ascii) : bool :=
  let n := code c in
  ((9 <=? n) && (n <=? 13) || (n =? 32) || (n =? 160))%N.

Fixpoint dropWhile {A} (p : A -> bool) (l : list A) : list A :=
  match l with
  | [] => []
  | a :: r => if p a then dropWhile p r else l
  end.

Fixpoint takeWhile {A} (p : A -> bool) (l : list A) : list A :=
  match l with
  | [] => []
  | a :: r => if p a then a :: takeWhile p r else []
  end.

Definition trim (l : list ascii) : list ascii :=
  List.rev (dropWhile isWhiteSpace (List.rev (dropWhile isWhiteSpace l))).

(** Value of a digit in the given radix, [None] when it is no digit of it. *)
Definition digitValue (radix : N) (c : ascii) : option N :=
  let n := code c in
  let v :=
    if ((48 <=? n) && (n <=? 57))%N then Some (n - 48)%N
    else if ((97 <=? n) && (n <=? 102))%N then Some (n - 87)%N
    else if ((65 <=? n) && (n <=? 70))%N then Some (n - 55)%N
    else None in
  match v with
  | Some d => if (d <? radix)%N then Some d else None
  | None => None
  end.

Definition isDecimalDigit (c : ascii) : bool :=
  match digitValue 10 c with Some _ => true | None => false end.

(** Value of a digit sequence, most significant digit first;
    [None] when a character is not a digit of the radix. *)
Fixpoint digitsValue (radix : N) (acc : N) (l : list ascii) : option N :=
  match l with
  | [] => Some acc
  | c :: r =>
      match digitValue radix c with
      | Some d => digitsValue radix (acc * radix + d)%N r
      | None => None
      end
  end.

Definition nonEmptyDigits (radix : N) (l : list ascii) : option N :=
  match l with
  | [] => None
  | _ => digitsValue radix 0%N l
  end.

(** ExponentPart: [e] or [E], an optional sign, at least one digit. *)
Definition exponentPart (l : list ascii) : option Z :=
  match l with
  | [] => Some 0
  | c :: r =>
      if ((code c =? 101) || (code c =? 69))%N then
        match r with
        | s :: r' =>
            if (code s =? 43)%N then option_map Z.of_N (nonEmptyDigits 10 r')
            else if (code s =? 45)%N then
              option_map (fun n => - Z.of_N n) (nonEmptyDigits 10 r')
            else option_map Z.of_N (nonEmptyDigits 10 r)
        | [] => None
        end
      else None
  end.

(** StrUnsignedDecimalLiteral. *)
Definition unsignedDecimal (neg : bool) (l : list ascii) : number :=
  if list_eq_dec ascii_dec l (chars "Infinity") then S754_infinity neg
  else
    let ip := takeWhile isDecimalDigit l in
    let r1 := dropWhile isDecimalDigit l in
    let '(fp, r2) :=
      match r1 with
      | c :: r =>
          if (code c =? 46)%N
          then (takeWhile isDecimalDigit r, dropWhile isDecimalDigit r)
          else ([], r1)
      | [] => ([], r1)
      end in
    match ip ++ fp with
    | [] => NaN
    | ds =>
        match digitsValue 10 0%N ds, exponentPart r2 with
        | Some m, Some e =>
            match m with
            | N0 => S754_zero neg
            | Npos p => round_decimal neg p (e - Z.of_nat (List.length fp))
            end
        | _, _ => NaN
        end
    end.

(** NonDecimalIntegerLiteral: [0x], [0o], [0b] prefixes (either case). *)
Definition nonDecimalRadix (c : ascii) : option N :=
  let n := code c in
  if ((n =? 120) || (n =? 88))%N then Some 16%N
  else if ((n =? 111) || (n =? 79))%N then Some 8%N
  else if ((n =? 98) || (n =? 66))%N then Some 2%N
  else None.

(** StringToNumber, the conversion applied by [Number(s)]. *)
Definition Number (s : string) : number :=
  match trim (chars s) with
  | [] => zero
  | c :: r =>
      let decimal :=
        if (code c =? 43)%N then unsignedDecimal false r
        else if (code c =? 45)%N then unsignedDecimal true r
        else unsignedDecimal false (c :: r) in
      if (code c =? 48)%N then
        match r with
        | p :: ds =>
            match nonDecimalRadix p with
            | Some radix =>
                match nonEmptyDigits radix ds with
                | Some n => of_N n
                | None => NaN
                end
            | None => decimal
            end
        | [] => decimal
        end
      else decimal
  end.

(** [s.split('x')]: the pieces of [s] between occurrences of the
    separator; never empty. *)
Fixpoint splitOn (sep : ascii) (s : string) : list string :=
  match s with
  | EmptyString => [EmptyString]
  | String c r =>
      if Ascii.eqb c sep then EmptyString :: splitOn sep r
      else
        match splitOn sep r with
        | p :: ps => String c p :: ps
        | [] => [String c EmptyString]
        end
  end.

(** [String(n)] and [`${n}`] for a non-negative integer below [10^21]. *)
Definition ofN (n : N) : string := NilZero.string_of_uint (N.to_uint n).

End JsString.

Import JsString.

(* ================================================================== *)
(** ** The valid size catalog and [mapToValidSoraSize] *)
(* ================================================================== *)

Record SoraSize := mkSoraSize {
  width : number;
  height : number;
  ratio : number;
  name : string
}.

Definition size_720x1280 : SoraSize :=
  mkSoraSize (of_Z 720) (of_Z 1280) (div (of_Z 9) (of_Z 16)) "720x1280".
Definition size_1280x720 : SoraSize :=
  mkSoraSize (of_Z 1280) (of_Z 720) (div (of_Z 16) (of_Z 9)) "1280x720".
Definition size_1024x1792 : SoraSize :=
  mkSoraSize (of_Z 1024) (of_Z 1792) (div (of_Z 9) (of_Z 16)) "1024x1792".
Definition size_1792x1024 : SoraSize :=
  mkSoraSize (of_Z 1792) (of_Z 1024) (div (of_Z 16) (of_Z 9)) "1792x1024".

Definition VALID_SORA_SIZES : list SoraSize :=
  [ size_720x1280; size_1280x720; size_1024x1792; size_1792x1024 ].

(** [validSize.height > validSize.width] *)
Definition sizeIsPortrait (v : SoraSize) : bool := gt (height v) (width v).

(** One turn of the [for (const validSize of VALID_SORA_SIZES)] loop; the
    state is the pair [(bestMatch, smallestDiff)]. *)
Definition matchStep (requestedRatio : number) (isPortrait : bool)
    (st : SoraSize * number) (validSize : SoraSize) : SoraSize * number :=
  let '(bestMatch, smallestDiff) := st in
  let validIsPortrait := sizeIsPortrait validSize in
  if negb (Bool.eqb validIsPortrait isPortrait) then st
  else
    let diff := abs (sub requestedRatio (ratio validSize)) in
    if lt diff smallestDiff then (validSize, diff) else st.

(** The search of [mapToValidSoraSize] over an arbitrary catalog whose
    first entry is [first]. *)
Definition closestMatch (first : SoraSize) (sizes : list SoraSize)
    (w h : number) : SoraSize :=
  let requestedRatio := div w h in
  let isPortrait := gt h w in
  let bestMatch := first in
  let smallestDiff := abs (sub requestedRatio (ratio bestMatch)) in
  fst (fold_left (matchStep requestedRatio isPortrait) sizes
         (bestMatch, smallestDiff)).

(** [!v] for a destructured array element: [undefined] is falsy. *)
Definition falsyElement (v : option number) : bool :=
  match v with
  | None => true
  | Some x => falsy x
  end.

Definition mapToValidSoraSize (requestedSize : string) : string :=
  let parts := map Number (splitOn "x" requestedSize) in
  let width := nth_error parts 0 in
  let height := nth_error parts 1 in
  if falsyElement width || falsyElement height then "720x1280"
  else
    match width, height with
    | Some w, Some h =>
        name (closestMatch (hd size_720x1280 VALID_SORA_SIZES)
                VALID_SORA_SIZES w h)
    | _, _ => "720x1280"
    end.

(** [size || '720x1280'], [model || 'sora-2']: the empty string and
    [undefined] are falsy. *)
Definition orDefault (v : option string) (d : string) : string :=
  match v with
  | Some (String c r) => String c r
  | _ => d
  end.

Definition catalogNames : list string := map name VALID_SORA_SIZES.


(** Distance of a ratio to the stored ratio of the first and of the
    second catalog entry. *)
Definition diffPortrait (r : number) : number :=
  abs (sub r (ratio size_720x1280)).
Definition diffLandscape (r : number) : number :=
  abs (sub r (ratio size_1280x720)).

(** [width / height] of a catalog entry. *)
Definition actualRatio (v : SoraSize) : number := div (width v) (height v).

(* ================================================================== *)
(** ** Effects: the outside world, the trace and exceptions *)
(* ================================================================== *)

#[local] Set Warnings "-register-all".

(** Values of [JSON.parse]. *)
Inductive Json :=
| JNull
| JBool (b : bool)
| JNumber (x : number)
| JString (s : string)
| JArray (items : list Json)
| JObject (fields : list (string * Json)).

(** A thrown [Error]: its [message] and its [code] property, if any. *)
Record Exn := mkExn { message : string; errCode : option string }.

Definition newError (msg : string) : Exn := mkExn msg None.

(** Outcome of [JSON.parse] on a body text. *)
Inductive JsonParse :=
| Parsed (v : Json)
| SyntaxError (msg : string).

(** A response of [fetch]: status line, body text, and what [JSON.parse]
    makes of that text. *)
Record Response := mkResponse {
  status : N;
  bodyText : string;
  bodyJson : JsonParse
}.

(** [response.ok] *)
Definition ok (r : Response) : bool := ((200 <=? status r) && (status r <=? 299))%N.

Inductive FetchOutcome :=
| FetchRejects (e : Exn)
| FetchResolves (r : Response).

(** Parts of a multipart form, in the order they were appended. *)
Inductive FormPart :=
| TextPart (key value : string)
| FilePart (key path filename contentType : string) (knownLength : N).

Definition Form := list FormPart.

(** Text values appended under a key. *)
Fixpoint textValues (key : string) (form : Form) : list string :=
  match form with
  | [] => []
  | TextPart k v :: rest =>
      if String.eqb k key then v :: textValues key rest else textValues key rest
  | FilePart _ _ _ _ _ :: rest => textValues key rest
  end.

(** Values of a parsed JSON request body. *)
Inductive JsValue :=
| VUndefined
| VNull
| VBool (b : bool)
| VNumber (x : number)
| VString (s : string)
| VObject (v : Json).

Definition truthy (v : JsValue) : bool :=
  match v with
  | VUndefined | VNull => false
  | VBool b => b
  | VNumber x => negb (falsy x)
  | VString s => negb (String.eqb s "")
  | VObject _ => true
  end.

Definition truthyString (s : option string) : bool :=
  match s with
  | Some (String _ _) => true
  | _ => false
  end.

(** Body of a reply of this server: a JSON value passed through, or one of
    the error objects the handlers build. *)
Inductive Payload :=
| PJson (v : Json)
| PError (error : string) (details : option string)
    (retryable : option bool) (suggestion : option string).

Inductive Fit := FitFill.

Inductive Event :=
| EvFetchImage (url : string)
| EvWriteFile (path : string) (created : bool)
| EvResize (src dst : string) (w h : option number) (fit : Fit)
    (withoutEnlargement : bool) (created : bool)
| EvCreate (form : Form)
| EvStatus (id : string)
| EvRemix (videoId prompt : JsValue)
| EvSleep (ms : N)
| EvUnlink (path : string)
| EvRespond (code : N) (body : Payload).

(** Result of [sharp(path).metadata()]. *)
Record Metadata := mkMetadata {
  metaWidth : option N;
  metaHeight : option N
}.

(** Result of fetching an image URL. *)
Inductive ImageFetch :=
| ImageRejects (e : Exn)
| ImageResolves (code : N) (contentType : option string) (bodyReadable : bool).

(** Everything the handlers observe of their environment. *)
Record World := mkWorld {
  hasOpenAI : bool;
  dateNow : nat -> N;
  fetchImage : string -> ImageFetch;
  writeFileSync : string -> option Exn;
  sharpMetadata : string -> Exn + Metadata;
  sharpToFile : string -> string -> option Exn;
  statSync : string -> Exn + N;
  openaiCreate : Form -> FetchOutcome;
  openaiStatus : string -> nat -> FetchOutcome;
  openaiRemix : JsValue -> JsValue -> FetchOutcome
}.

(** State threaded through a handler: the trace of effects so far, the
    number of clock readings, and the two [let] variables of the generate
    route that its [catch] block reads. *)
Record State := mkState {
  events : list Event;
  ticks : nat;
  processedImagePath : option string;
  tempImagePath : option string
}.

Definition initial : State := mkState [] 0 None None.

Inductive Result (A : Type) :=
| Ok (a : A)
| Throw (e : Exn).
Arguments Ok {A} a.
Arguments Throw {A} e.

Definition M (A : Type) : Type := State -> Result A * State.

Definition ret {A} (a : A) : M A := fun st => (Ok a, st).

Definition bind {A B} (m : M A) (k : A -> M B) : M B :=
  fun st =>
    match m st with
    | (Ok a, st') => k a st'
    | (Throw e, st') => (Throw e, st')
    end.

Definition throw {A} (e : Exn) : M A := fun st => (Throw e, st).

(** [try { m } catch (err) { h err }] *)
Definition tryCatch {A} (m : M A) (h : Exn -> M A) : M A :=
  fun st =>
    match m st with
    | (Ok a, st') => (Ok a, st')
    | (Throw e, st') => h e st'
    end.

Declare Scope handler_scope.
Delimit Scope handler_scope with handler.
Notation "x <- c1 ;; c2" := (bind c1 (fun x => c2))
  (at level 61, c1 at next level, right associativity) : handler_scope.
Notation "c1 ;; c2" := (bind c1 (fun _ => c2))
  (at level 61, right associativity) : handler_scope.
Local Open Scope handler_scope.

Definition emit (e : Event) : M unit :=
  fun st => (Ok tt, mkState (events st ++ [e]) (ticks st)
                      (processedImagePath st) (tempImagePath st)).

(** [Date.now()] *)
Definition now (w : World) : M N :=
  fun st => (Ok (dateNow w (ticks st)),
             mkState (events st) (S (ticks st))
               (processedImagePath st) (tempImagePath st)).

Definition setProcessedImagePath (p : string) : M unit :=
  fun st => (Ok tt, mkState (events st) (ticks st) (Some p) (tempImagePath st)).

Definition setTempImagePath (p : string) : M unit :=
  fun st => (Ok tt, mkState (events st) (ticks st) (processedImagePath st) (Some p)).

Definition getProcessedImagePath : M (option string) :=
  fun st => (Ok (processedImagePath st), st).

Definition getTempImagePath : M (option string) :=
  fun st => (Ok (tempImagePath st), st).

Definition when (b : bool) (m : M unit) : M unit := if b then m else ret tt.

Definition respond (code : N) (body : Payload) : M unit := emit (EvRespond code body).

(** [fs.unlink(path, () => {})]: the callback ignores a failure, so
    unlinking a missing file is a no-op. *)
Definition unlink (path : string) : M unit := emit (EvUnlink path).

(** [await response.json()] and [JSON.parse(text)] *)
Definition parseJson (r : Response) : M Json :=
  match bodyJson r with
  | Parsed v => ret v
  | SyntaxError msg => throw (newError msg)
  end.

Definition awaitFetch (o : FetchOutcome) : M Response :=
  match o with
  | FetchRejects e => throw e
  | FetchResolves r => ret r
  end.

Definition notConfigured : Payload :=
  PError "OpenAI API key not configured. Please set OPENAI_API_KEY environment variable."
    None None None.

(** Trace of a handler run from the initial state. *)
Definition run {A} (m : M A) : list Event := events (snd (m initial)).

(* ================================================================== *)
(** ** [callOpenAIVideoCreate] *)
(* ================================================================== *)

(** The [seconds] argument: a form field (a string) or the literal [8]. *)
Inductive Seconds :=
| SecondsString (s : string)
| SecondsNumber (n : N).

Definition secondsTruthy (s : option Seconds) : bool :=
  match s with
  | Some (SecondsString (String _ _)) => true
  | Some (SecondsNumber n) => negb (n =? 0)%N
  | _ => false
  end.

(** [String(seconds)] *)
Definition secondsToString (s : option Seconds) : string :=
  match s with
  | Some (SecondsString t) => t
  | Some (SecondsNumber n) => ofN n
  | None => "undefined"
  end.

Record CreateArgs := mkCreateArgs {
  argPrompt : option string;
  argModel : option string;
  argSeconds : option Seconds;
  argSize : option string;
  argImagePath : option string;
  argImageMime : option string;
  argImageOriginalName : option string
}.

(** [path.basename] for POSIX paths: trailing separators are dropped and
    the last component is kept. *)
Definition notSlash (c : ascii) : bool := negb (Ascii.eqb c "/").
Definition isSlash (c : ascii) : bool := Ascii.eqb c "/".

Definition basename (p : string) : string :=
  string_of_list_ascii
    (List.rev (takeWhile notSlash (dropWhile isSlash (List.rev (chars p))))).

(** [path.join('uploads', name)] for a [name] that is one plain path
    segment, as the two names built by the generate route are. *)
Definition joinUploads (segment : string) : string :=
  ("uploads/" ++ segment)%string.

(** The text parts appended before the reference image. *)
Definition formText (a : CreateArgs) : Form :=
  (if truthyString (argPrompt a)
   then [TextPart "prompt" (orDefault (argPrompt a) "")] else [])
  ++ [TextPart "model" (orDefault (argModel a) "sora-2")]
  ++ (if secondsTruthy (argSeconds a)
      then [TextPart "seconds" (secondsToString (argSeconds a))] else [])
  ++ [TextPart "size" (mapToValidSoraSize (orDefault (argSize a) "720x1280"))].

(** The optional [input_reference] part; [fs.statSync] may throw. *)
Definition formImage (w : World) (a : CreateArgs) : M Form :=
  match argImagePath a with
  | Some (String c r) =>
      let imagePath := String c r in
      match statSync w imagePath with
      | inl e => throw e
      | inr size =>
          ret [FilePart "input_reference" imagePath
                 (orDefault (argImageOriginalName a) (basename imagePath))
                 (orDefault (argImageMime a) "image/jpeg")
                 size]
      end
  | _ => ret []
  end.

Definition callOpenAIVideoCreate (w : World) (a : CreateArgs) : M Json :=
  image <- formImage w a ;;
  let form := formText a ++ image in
  emit (EvCreate form) ;;
  response <- awaitFetch (openaiCreate w form) ;;
  if negb (ok response) then
    throw (newError ("OpenAI video create failed (" ++ ofN (status response)
                       ++ "): " ++ bodyText response)%string)
  else parseJson response.

(* ================================================================== *)
(** ** [POST /api/generate] *)
(* ================================================================== *)

(** [req.file] as multer fills it in. *)
Record UploadedFile := mkUploadedFile {
  filePath : string;
  mimetype : string;
  originalname : string
}.

(** The request: the uploaded file, if any, and the text fields of the
    multipart body. *)
Record GenerateRequest := mkGenerateRequest {
  reqFile : option UploadedFile;
  reqPrompt : option string;
  reqModel : option string;
  reqSeconds : option string;
  reqSize : option string;
  reqImageUrl : option string
}.

(** [s.includes(t)] *)
Definition includes (s t : string) : bool :=
  match String.index 0 t s with
  | Some _ => true
  | None => false
  end.

(** [a !== b] on values that are numbers or [undefined]. *)
Definition strictNeq (a b : option number) : bool :=
  match a, b with
  | Some x, Some y => negb (strict_eq x y)
  | None, None => false
  | _, _ => true
  end.

Definition dimensionTruthy (d : option N) : bool :=
  match d with
  | Some n => negb (n =? 0)%N
  | None => false
  end.

Definition dimensionNumber (d : option N) : option number := option_map of_N d.

(** [`${imageWidth}x${imageHeight}`] *)
Definition dimensionsString (iw ih : option N) : string :=
  match iw, ih with
  | Some a, Some b => (ofN a ++ "x" ++ ofN b)%string
  | _, _ => "720x1280"
  end.

(** The size handed to [mapToValidSoraSize]: the [size] field, else the
    detected image dimensions, else the portrait default. *)
Definition requestedSizeOf (size : option string) (meta : Metadata) : string :=
  if negb (truthyString size)
     && dimensionTruthy (metaWidth meta) && dimensionTruthy (metaHeight meta)
  then dimensionsString (metaWidth meta) (metaHeight meta)
  else if negb (truthyString size) then "720x1280"
  else orDefault size "720x1280".

(** [targetSize.split('x').map(Number)], destructured. *)
Definition targetDimensions (targetSize : string) : option number * option number :=
  let parts := map Number (splitOn "x" targetSize) in
  (nth_error parts 0, nth_error parts 1).

Definition resizedPath (stamp : N) (imagePath : string) : string :=
  joinUploads ("resized_" ++ ofN stamp ++ "_" ++ basename imagePath)%string.

(** Lines "Detect image dimensions" to the end of the resize branch: sets
    [processedImagePath] and returns the target size. *)
Definition prepareImage (w : World) (size : option string)
    (imagePath : string) : M string :=
  meta <- (match sharpMetadata w imagePath with
           | inl e => throw e
           | inr m => ret m
           end) ;;
  let imageWidth := metaWidth meta in
  let imageHeight := metaHeight meta in
  let requestedSize := requestedSizeOf size meta in
  let targetSize := mapToValidSoraSize requestedSize in
  let '(targetWidth, targetHeight) := targetDimensions targetSize in
  (if strictNeq (dimensionNumber imageWidth) targetWidth
      || strictNeq (dimensionNumber imageHeight) targetHeight
   then
     stamp <- now w ;;
     let dst := resizedPath stamp imagePath in
     setProcessedImagePath dst ;;
     match sharpToFile w imagePath dst with
     | Some e =>
         emit (EvResize imagePath dst targetWidth targetHeight FitFill false false) ;;
         throw e
     | None =>
         emit (EvResize imagePath dst targetWidth targetHeight FitFill false true)
     end
   else setProcessedImagePath imagePath) ;;
  ret targetSize.

(** [seconds || 8] *)
Definition secondsOrEight (s : option string) : option Seconds :=
  match s with
  | Some (String c r) => Some (SecondsString (String c r))
  | _ => Some (SecondsNumber 8)
  end.

Definition optStringNeq (a : option string) (b : option string) : bool :=
  match a, b with
  | Some x, Some y => negb (String.eqb x y)
  | None, None => false
  | _, _ => true
  end.

Definition filePathOf (f : option UploadedFile) : option string :=
  option_map filePath f.

(** [fs.unlink(p, ...)] for a variable that may still be [null]. *)
Definition unlinkPath (p : option string) : M unit :=
  match p with
  | Some s => unlink s
  | None => throw (mkExn "The path argument must be of type string"
                     (Some "ERR_INVALID_ARG_TYPE"))
  end.

Definition generationFailed (err : Exn) : Payload :=
  PError "Failed to start video generation" (Some (message err)) None None.

(** The route as [server.js] has it: the image comes as an upload. *)
Definition generate (w : World) (req : GenerateRequest) : M unit :=
  tryCatch
    (if negb (hasOpenAI w) then respond 503 notConfigured
     else
       match reqFile req with
       | None => respond 400 (PError "Image file is required." None None None)
       | Some file =>
           targetSize <- prepareImage w (reqSize req) (filePath file) ;;
           processed <- getProcessedImagePath ;;
           videoJob <- callOpenAIVideoCreate w
             (mkCreateArgs (reqPrompt req) (reqModel req)
                (secondsOrEight (reqSeconds req)) (Some targetSize)
                processed (Some (mimetype file)) (Some (originalname file))) ;;
           unlink (filePath file) ;;
           when (optStringNeq processed (Some (filePath file)))
             (unlinkPath processed) ;;
           respond 200 (PJson videoJob)
       end)
    (fun err =>
       when (truthyString (filePathOf (reqFile req)))
         (unlinkPath (filePathOf (reqFile req))) ;;
       processed <- getProcessedImagePath ;;
       when (truthyString processed
             && optStringNeq processed (filePathOf (reqFile req)))
         (unlinkPath processed) ;;
       respond 500 (generationFailed err)).

(** Extension chosen for a fetched image from its content type. *)
Definition extensionOf (contentType : string) : string :=
  if includes contentType "png" then "png"
  else if includes contentType "webp" then "webp"
  else "jpg".

Definition fetchedPath (stamp : N) (extension : string) : string :=
  joinUploads ("fetched_" ++ ofN stamp ++ "." ++ extension)%string.

(** The inner [try] of the URL branch: download the image and write it to
    a temporary file.  Returns path, MIME type and original name. *)
Definition fetchToTemp (w : World) (imageUrl : string)
  : M (string * string * string) :=
  emit (EvFetchImage imageUrl) ;;
  match fetchImage w imageUrl with
  | ImageRejects e => throw e
  | ImageResolves code contentTypeHeader readable =>
      if negb ((200 <=? code) && (code <=? 299))%N then
        throw (newError ("Failed to fetch image: " ++ ofN code)%string)
      else if negb readable then
        throw (newError "Premature close")
      else
        let contentType := orDefault contentTypeHeader "image/jpeg" in
        let extension := extensionOf contentType in
        stamp <- now w ;;
        let tmp := fetchedPath stamp extension in
        setTempImagePath tmp ;;
        match writeFileSync w tmp with
        | Some e => emit (EvWriteFile tmp false) ;; throw e
        | None =>
            emit (EvWriteFile tmp true) ;;
            ret (tmp, contentType, ("character." ++ extension)%string)
        end
  end.

(** The later revision of the route: the image comes as an upload or is
    fetched from [imageUrl]. *)
Definition generateFromUrl (w : World) (req : GenerateRequest) : M unit :=
  tryCatch
    (if negb (hasOpenAI w) then respond 503 notConfigured
     else
       match reqFile req, truthyString (reqImageUrl req) with
       | None, false =>
           respond 400 (PError "Image file or image URL is required." None None None)
       | file, _ =>
           source <-
             match file with
             | Some f => ret (Some (filePath f, mimetype f, originalname f))
             | None =>
                 tryCatch
                   (s <- fetchToTemp w (orDefault (reqImageUrl req) "") ;;
                    ret (Some s))
                   (fun fetchErr =>
                      respond 400
                        (PError "Failed to fetch character image from URL."
                           None None None) ;;
                      ret None)
             end ;;
           match source with
           | None => ret tt
           | Some (imagePath, imageMimeType, imageOriginalName) =>
               targetSize <- prepareImage w (reqSize req) imagePath ;;
               processed <- getProcessedImagePath ;;
               videoJob <- callOpenAIVideoCreate w
                 (mkCreateArgs (reqPrompt req) (reqModel req)
                    (secondsOrEight (reqSeconds req)) (Some targetSize)
                    processed (Some imageMimeType) (Some imageOriginalName)) ;;
               when (truthyString (filePathOf file)) (unlinkPath (filePathOf file)) ;;
               temp <- getTempImagePath ;;
               when (truthyString temp) (unlinkPath temp) ;;
               when (truthyString processed
                     && optStringNeq processed (Some imagePath))
                 (unlinkPath processed) ;;
               respond 200 (PJson videoJob)
           end
       end)
    (fun err =>
       when (truthyString (filePathOf (reqFile req)))
         (unlinkPath (filePathOf (reqFile req))) ;;
       temp <- getTempImagePath ;;
       when (truthyString temp) (unlinkPath temp) ;;
       processed <- getProcessedImagePath ;;
       when (truthyString processed
             && optStringNeq processed (filePathOf (reqFile req))
             && optStringNeq processed temp)
         (unlinkPath processed) ;;
       respond 500 (generationFailed err)).

(* ================================================================== *)
(** ** [GET /api/status/:id] *)
(* ================================================================== *)

Definition maxRetries : nat := 3.

(** What one turn of the retry loop asks for. *)
Inductive LoopSignal :=
| Continue (lastError : option Exn)
| Return.

Definition isServerError (code : N) : bool :=
  ((code =? 500) || (code =? 502) || (code =? 503))%N.

Definition retrieveFailed (r : Response) : Exn :=
  newError ("OpenAI video retrieve failed (" ++ ofN (status r) ++ "): "
              ++ bodyText r)%string.

Definition serverError (r : Response) (attempt : nat) : Exn :=
  newError ("OpenAI server error (" ++ ofN (status r) ++ "), attempt "
              ++ ofN (N.of_nat attempt) ++ "/" ++ ofN (N.of_nat maxRetries))%string.

(** The argument of [console.warn]: [errorData.error?.message || errorText].
    Reading a property of [null] throws. *)
Definition readErrorMessage (errorData : Json) : M unit :=
  match errorData with
  | JNull => throw (newError "Cannot read properties of null (reading 'error')")
  | _ => ret tt
  end.

(** [setTimeout(resolve, 1000 * attempt)] *)
Definition backoff (attempt : nat) : M unit :=
  emit (EvSleep (1000 * N.of_nat attempt)).

Definition isNetworkCode (c : option string) : bool :=
  match c with
  | Some s => String.eqb s "ECONNRESET" || String.eqb s "ETIMEDOUT"
  | None => false
  end.

Definition allAttemptsFailed (err : Exn) : Payload :=
  PError "Failed to retrieve video status after multiple attempts"
    (Some (message err)) (Some true)
    (Some "OpenAI servers may be experiencing issues. Please try again in a few moments.").

(** Body of the [for] loop for one value of [attempt]. *)
Definition statusAttempt (w : World) (id : string) (attempt : nat)
  : M LoopSignal :=
  tryCatch
    (emit (EvStatus id) ;;
     response <- awaitFetch (openaiStatus w id attempt) ;;
     if negb (ok response) then
       errorData <- parseJson response ;;
       (if isServerError (status response) then
          readErrorMessage errorData ;;
          if (attempt <? maxRetries)%nat then
            backoff attempt ;;
            ret (Continue (Some (serverError response attempt)))
          else throw (retrieveFailed response)
        else throw (retrieveFailed response))
     else
       json <- parseJson response ;;
       respond 200 (PJson json) ;;
       ret Return)
    (fun err =>
       if (attempt <? maxRetries)%nat && isNetworkCode (errCode err) then
         backoff attempt ;;
         ret (Continue (Some err))
       else if (attempt =? maxRetries)%nat then
         respond 500 (allAttemptsFailed err) ;;
         ret Return
       else ret (Continue (Some err))).

Definition fallbackFailure (lastError : option Exn) : Payload :=
  PError "Failed to retrieve video status"
    (Some (match lastError with
           | Some e => orDefault (Some (message e)) "Unknown error"
           | None => "Unknown error"
           end))
    (Some true) None.

(** The [for (let attempt = 1; attempt <= maxRetries; attempt++)] loop
    over the attempts still to make, then the fallback after it. *)
Fixpoint statusLoop (w : World) (id : string) (attempts : list nat)
    (lastError : option Exn) : M unit :=
  match attempts with
  | [] => respond 500 (fallbackFailure lastError)
  | attempt :: rest =>
      signal <- statusAttempt w id attempt ;;
      match signal with
      | Return => ret tt
      | Continue lastError' => statusLoop w id rest lastError'
      end
  end.

Definition status_handler (w : World) (id : string) : M unit :=
  if negb (hasOpenAI w) then respond 503 notConfigured
  else statusLoop w id (seq 1 maxRetries) None.

(* ================================================================== *)
(** ** [POST /api/remix] *)
(* ================================================================== *)

Record RemixBody := mkRemixBody {
  bodyVideoId : JsValue;
  bodyPrompt : JsValue
}.

Definition remix (w : World) (body : RemixBody) : M unit :=
  if negb (hasOpenAI w) then respond 503 notConfigured
  else
    tryCatch
      (let videoId := bodyVideoId body in
       let prompt := bodyPrompt body in
       if negb (truthy videoId) || negb (truthy prompt) then
         respond 400 (PError "videoId and prompt are required for remix." None None None)
       else
         emit (EvRemix videoId prompt) ;;
         response <- awaitFetch (openaiRemix w videoId prompt) ;;
         if negb (ok response) then
           throw (newError ("OpenAI video remix failed (" ++ ofN (status response)
                              ++ "): " ++ bodyText response)%string)
         else
           json <- parseJson response ;;
           respond 200 (PJson json))
      (fun err =>
         respond 500 (PError "Failed to start remix job" (Some (message err)) None None)).

(* ================================================================== *)
(** ** Observations on inputs and traces *)
(* ================================================================== *)


(** Forms of the creation requests recorded in a trace. *)
Fixpoint createForms (t : list Event) : list Form :=
  match t with
  | [] => []
  | EvCreate form :: rest => form :: createForms rest
  | _ :: rest => createForms rest
  end.

(** Number of status requests recorded in a trace. *)
Fixpoint statusRequests (t : list Event) : nat :=
  match t with
  | [] => 0
  | EvStatus _ :: rest => S (statusRequests rest)
  | _ :: rest => statusRequests rest
  end.

(** Number of remix requests recorded in a trace. *)
Fixpoint remixRequests (t : list Event) : nat :=
  match t with
  | [] => 0
  | EvRemix _ _ :: rest => S (remixRequests rest)
  | _ :: rest => remixRequests rest
  end.

(** The delays slept, in order. *)
Fixpoint sleeps (t : list Event) : list N :=
  match t with
  | [] => []
  | EvSleep ms :: rest => ms :: sleeps rest
  | _ :: rest => sleeps rest
  end.

(** The replies sent, in order. *)
Fixpoint replies (t : list Event) : list (N * Payload) :=
  match t with
  | [] => []
  | EvRespond code body :: rest => (code, body) :: replies rest
  | _ :: rest => replies rest
  end.

(** The [retryable] marker of a reply body. *)
Definition retryableOf (body : Payload) : option bool :=
  match body with
  | PJson _ => None
  | PError _ _ retryable _ => retryable
  end.

(** The paths unlinked, in order. *)
Fixpoint unlinked (t : list Event) : list string :=
  match t with
  | [] => []
  | EvUnlink p :: rest => p :: unlinked rest
  | _ :: rest => unlinked rest
  end.

(** The files a trace created: fetched copies and resized derivatives. *)
Fixpoint written (t : list Event) : list string :=
  match t with
  | [] => []
  | EvWriteFile p true :: rest => p :: written rest
  | EvResize _ dst _ _ _ _ true :: rest => dst :: written rest
  | _ :: rest => written rest
  end.


(** *** Sample collaborators *)

Definition refused : Exn := mkExn "connect ECONNREFUSED" (Some "ECONNREFUSED").

Definition unexpectedToken : Exn :=
  newError "Unexpected token S in JSON at position 0".

(** A world in which only the status endpoint answers. *)
Definition statusWorld (configured : bool) (answers : nat -> FetchOutcome) : World :=
  mkWorld configured
    (fun k => 1700000000000 + N.of_nat k)%N
    (fun _ => ImageRejects refused)
    (fun _ => None)
    (fun _ => inr (mkMetadata (Some 1080%N) (Some 1920%N)))
    (fun _ _ => None)
    (fun _ => inr 4096%N)
    (fun _ => FetchRejects refused)
    (fun _ => answers)
    (fun _ _ => FetchRejects refused).

Definition errorObject (msg : string) : Json :=
  JObject [("error", JObject [("message", JString msg)])].

(** A double quote, and a JSON string literal without escapes. *)
Definition dquote : string := String (ascii_of_nat 34) EmptyString.
Definition quoted (s : string) : string := (dquote ++ s ++ dquote)%string.

Definition errorText (msg : string) : string :=
  ("{" ++ quoted "error" ++ ":{" ++ quoted "message" ++ ":" ++ quoted msg ++ "}}")%string.

(** HTTP 503 with a JSON error body. *)
Definition unavailableJson : FetchOutcome :=
  FetchResolves
    (mkResponse 503 (errorText "overloaded") (Parsed (errorObject "overloaded"))).

(** HTTP 503 with a plain-text body, as a gateway sends it. *)
Definition unavailableText : FetchOutcome :=
  FetchResolves
    (mkResponse 503 "Service Unavailable" (SyntaxError (message unexpectedToken))).

(** HTTP 404 with a JSON error body. *)
Definition notFoundJson : FetchOutcome :=
  FetchResolves
    (mkResponse 404 (errorText "not found") (Parsed (errorObject "not found"))).

Definition completedJob : Json :=
  JObject [("id", JString "video_123"); ("status", JString "completed")].

Definition completedText : string :=
  ("{" ++ quoted "id" ++ ":" ++ quoted "video_123" ++ ","
       ++ quoted "status" ++ ":" ++ quoted "completed" ++ "}")%string.

(** HTTP 200 with a job object. *)
Definition completedJson : FetchOutcome :=
  FetchResolves (mkResponse 200 completedText (Parsed completedJob)).

Definition twiceThen (first later : FetchOutcome) (attempt : nat) : FetchOutcome :=
  if (attempt <=? 2)%nat then first else later.

(** A remix request is validated: when [videoId] or [prompt] is missing the
    only effect is a 400 reply. *)
Definition remixValidates (w : World) (body : RemixBody) : Prop :=
  bodyVideoId body = VUndefined \/ bodyPrompt body = VUndefined ->
  exists payload, run (remix w body) = [EvRespond 400 payload].

(** The condition of the resize branch: the decoded dimensions differ, in
    width or in height, from those of the negotiated target size. *)
Definition dimensionsDiffer (size : option string) (meta : Metadata) : bool :=
  let targetSize := mapToValidSoraSize (requestedSizeOf size meta) in
  strictNeq (dimensionNumber (metaWidth meta)) (fst (targetDimensions targetSize))
  || strictNeq (dimensionNumber (metaHeight meta)) (snd (targetDimensions targetSize)).

(** A world for the generate route: the image decodes to the given
    dimensions, every file operation succeeds and the remote service
    accepts the job. *)
Definition generateWorld (configured : bool) (imageWidth imageHeight : N) : World :=
  mkWorld configured
    (fun k => 1700000000000 + N.of_nat k)%N
    (fun _ => ImageResolves 200 (Some "image/png") true)
    (fun _ => None)
    (fun _ => inr (mkMetadata (Some imageWidth) (Some imageHeight)))
    (fun _ _ => None)
    (fun _ => inr 4096%N)
    (fun _ => completedJson)
    (fun _ _ => unavailableJson)
    (fun _ _ => FetchRejects refused).

Definition sampleUpload : UploadedFile :=
  mkUploadedFile "uploads/3f2a9c" "image/png" "goblina.png".

(** An upload with a prompt and no other field. *)
Definition uploadRequest : GenerateRequest :=
  mkGenerateRequest (Some sampleUpload) (Some "goblina waves") None None None None.

(** The temporary files of a call: the upload multer stored, if any, and
    the files the handler wrote. *)
Definition temporaryFiles (req : GenerateRequest) (t : list Event) : list string :=
  match reqFile req with
  | Some f => [filePath f]
  | None => []
  end ++ written t.

(** The cleanup discipline on a trace: the trace ends with its only reply,
    no path is unlinked twice, and every temporary file of the call is
    unlinked before the reply. *)
Definition cleanedUp (req : GenerateRequest) (t : list Event) : Prop :=
  exists before code body,
    t = before ++ [EvRespond code body]
    /\ replies before = []
    /\ NoDup (unlinked before)
    /\ incl (temporaryFiles req t) (unlinked before).

(* ================================================================== *)
(** ** Observations on the status poller and on creation requests *)
(* ================================================================== *)

(** A state with further events appended to its trace. *)
Definition appendEvents (st : State) (evs : list Event) : State :=
  mkState (events st ++ evs) (ticks st) (processedImagePath st) (tempImagePath st).

(** The parsed body of an answer the poller accepts: a 2xx response whose
    body is JSON. *)
Definition successBody (o : FetchOutcome) : option Json :=
  match o with
  | FetchRejects _ => None
  | FetchResolves r =>
      if ok r then
        match bodyJson r with
        | Parsed v => Some v
        | SyntaxError _ => None
        end
      else None
  end.

(** The answers after which the poller waits before its next attempt: a
    rejection with code [ECONNRESET] or [ETIMEDOUT], or HTTP 500, 502 or
    503 with a JSON body other than [null]. *)
Definition backsOff (o : FetchOutcome) : bool :=
  match o with
  | FetchRejects e => isNetworkCode (errCode e)
  | FetchResolves r =>
      isServerError (status r) &&
      match bodyJson r with
      | Parsed JNull => false
      | Parsed _ => true
      | SyntaxError _ => false
      end
  end.

(** The error the last attempt ends with when its answer is not accepted. *)
Definition lastFailure (o : FetchOutcome) : Exn :=
  match o with
  | FetchRejects e => e
  | FetchResolves r =>
      match bodyJson r with
      | SyntaxError msg => newError msg
      | Parsed JNull =>
          if isServerError (status r)
          then newError "Cannot read properties of null (reading 'error')"
          else retrieveFailed r
      | Parsed _ => retrieveFailed r
      end
  end.

Definition backoffEvents (attempt : nat) (o : FetchOutcome) : list Event :=
  if backsOff o then [EvSleep (1000 * N.of_nat attempt)] else [].

(** The trace of the poller as a function of the answers to its three
    attempts. *)
Definition pollTrace (id : string) (o1 o2 o3 : FetchOutcome) : list Event :=
  match successBody o1 with
  | Some json => [EvStatus id; EvRespond 200 (PJson json)]
  | None =>
      EvStatus id :: backoffEvents 1 o1 ++
      match successBody o2 with
      | Some json => [EvStatus id; EvRespond 200 (PJson json)]
      | None =>
          EvStatus id :: backoffEvents 2 o2 ++
          [EvStatus id;
           match successBody o3 with
           | Some json => EvRespond 200 (PJson json)
           | None => EvRespond 500 (allAttemptsFailed (lastFailure o3))
           end]
      end
  end.

(** The file parts of a form, in order. *)
Fixpoint fileParts (form : Form) : list FormPart :=
  match form with
  | [] => []
  | TextPart _ _ :: rest => fileParts rest
  | FilePart k p f c n :: rest => FilePart k p f c n :: fileParts rest
  end.

(** The arguments the upload route hands to [callOpenAIVideoCreate]. *)
Definition uploadArgs (req : GenerateRequest) (file : UploadedFile)
    (targetSize : string) (processed : option string) : CreateArgs :=
  mkCreateArgs (reqPrompt req) (reqModel req)
    (secondsOrEight (reqSeconds req)) (Some targetSize)
    processed (Some (mimetype file)) (Some (originalname file)).

(** The image the upload route sends on: the resized derivative when the
    dimensions differ from the target, else the upload itself. *)
Definition sentImage (w : World) (req : GenerateRequest) (file : UploadedFile)
    (meta : Metadata) : string :=
  if dimensionsDiffer (reqSize req) meta
  then resizedPath (dateNow w 0) (filePath file)
  else filePath file.

(** The image URLs fetched, in order. *)
Fixpoint fetches (t : list Event) : list string :=
  match t with
  | [] => []
  | EvFetchImage url :: rest => url :: fetches rest
  | _ :: rest => fetches rest
  end.


(** A request that carries both an upload and an image URL. *)
Definition uploadAndUrlRequest : GenerateRequest :=
  mkGenerateRequest (Some sampleUpload) (Some "goblina waves") None None None
    (Some "https://res.cloudinary.com/demo/goblina.png").

(** A request that carries an image URL only. *)
Definition urlRequest : GenerateRequest :=
  mkGenerateRequest None (Some "goblina waves") None None None
    (Some "https://res.cloudinary.com/demo/goblina.png").

(* ================================================================== *)
(** ** Password protection: sessions, cookies and [requireAuth] *)
(* ================================================================== *)

Module Auth.

(** The [sessions] map, from token to the [created] time of its session.
    Only [has], [get], [set] and [delete] are used, so the order of the
    entries is immaterial: [set] replaces the value of a key that is
    present and appends otherwise, [delete] removes the key. *)
Definition Sessions := list (string * N).

Fixpoint get (token : string) (m : Sessions) : option N :=
  match m with
  | [] => None
  | (k, created) :: rest => if String.eqb k token then Some created else get token rest
  end.

Definition has (token : string) (m : Sessions) : bool :=
  match get token m with
  | Some _ => true
  | None => false
  end.

Fixpoint set (token : string) (created : N) (m : Sessions) : Sessions :=
  match m with
  | [] => [(token, created)]
  | (k, v) :: rest =>
      if String.eqb k token then (k, created) :: rest
      else (k, v) :: set token created rest
  end.

Fixpoint delete (token : string) (m : Sessions) : Sessions :=
  match m with
  | [] => []
  | (k, v) :: rest =>
      if String.eqb k token then delete token rest
      else (k, v) :: delete token rest
  end.

(** The environment of the auth code: [process.env.APP_PASSWORD] and the
    successive values of [Math.random().toString(36)]. *)
Record Config := mkConfig {
  APP_PASSWORD : option string;
  random36 : nat -> string
}.

(** [!!APP_PASSWORD] *)
Definition hasPasswordProtection (cfg : Config) : bool :=
  truthyString (APP_PASSWORD cfg).

(** The mutable state: the session store and the number of random values
    drawn so far. *)
Record Store := mkStore {
  sessions : Sessions;
  draws : nat
}.

(** [s.charAt(n)] *)
Definition charAt (n : nat) (s : string) : string :=
  match String.get n s with
  | Some c => String c EmptyString
  | None => EmptyString
  end.

(** [Array.from({ length: 32 }, () => Math.random().toString(36).charAt(2)).join('')],
    drawing the random values from the [k]-th on. *)
Definition generateSessionToken (cfg : Config) (k : nat) : string :=
  String.concat "" (map (fun i => charAt 2 (random36 cfg (k + i))) (seq 0 32)).

(** [s.trim()] *)
Definition trimString (s : string) : string :=
  string_of_list_ascii (trim (chars s)).

(** The assignments [cookies[name] = value] of the cookie parser, in
    order; [value] is [undefined] when the pair has no ['=']. *)
Definition Cookies := list (string * option string).

Definition parsePair (cookie : string) : string * option string :=
  let parts := splitOn "=" (trimString cookie) in
  (hd EmptyString parts, nth_error parts 1).

(** The cookie parser middleware: [req.cookies] from the [Cookie] header. *)
Definition cookieParser (cookieHeader : option string) : Cookies :=
  match cookieHeader with
  | Some (String c r) => map parsePair (splitOn ";" (String c r))
  | _ => []
  end.

(** [cookies[name]] after the assignments: the last one made under that
    name wins, also when it assigned [undefined]. *)
Definition cookieValue (name : string) (cookies : Cookies) : option string :=
  fold_left (fun acc nv => if String.eqb (fst nv) name then snd nv else acc)
    cookies None.

(** A request as the auth code reads it. *)
Record Request := mkRequest {
  path : string;
  cookieHeader : option string;
  bodyPassword : JsValue
}.

(** [req.cookies?.session] *)
Definition sessionTokenOf (req : Request) : option string :=
  cookieValue "session" (cookieParser (cookieHeader req)).

Record Reply := mkReply {
  replyCode : N;
  replySetCookie : option string;
  replyBody : Json
}.

(** What a middleware or a handler does with the request. *)
Inductive Outcome :=
| Next
| Send (r : Reply)
| Redirect (location : string).

(** [24 * 60 * 60 * 1000]; times are integers, on which the subtraction
    of [requireAuth] is exact. *)
Definition dayMs : Z := 24 * 60 * 60 * 1000.

(** [s.startsWith(p)] *)
Definition startsWith (s p : string) : bool := String.prefix p s.

(** The tail of [requireAuth]: the request is not authenticated. *)
Definition notAuthenticated (req : Request) : Outcome :=
  if startsWith (path req) "/api/" then
    Send (mkReply 401 None (JObject [("error", JString "Unauthorized. Please login.")]))
  else Redirect "/login.html".

Definition requireAuth (cfg : Config) (now : N) (req : Request) (st : Store)
  : Outcome * Store :=
  if negb (hasPasswordProtection cfg) then (Next, st)
  else if String.eqb (path req) "/api/auth/login"
          || String.eqb (path req) "/login.html" then (Next, st)
  else
    match sessionTokenOf req with
    | Some (String c r) =>
        let sessionToken := String c r in
        match get sessionToken (sessions st) with
        | Some created =>
            if (Z.of_N now - Z.of_N created <? dayMs)%Z then (Next, st)
            else
              (notAuthenticated req,
               mkStore (delete sessionToken (sessions st)) (draws st))
        | None => (notAuthenticated req, st)
        end
    | _ => (notAuthenticated req, st)
    end.

(** [password === APP_PASSWORD] for a configured password. *)
Definition passwordMatches (cfg : Config) (password : JsValue) : bool :=
  match password, APP_PASSWORD cfg with
  | VString s, Some p => String.eqb s p
  | VUndefined, None => true
  | _, _ => false
  end.

Definition sessionCookie (token : string) : string :=
  ("session=" ++ token ++ "; Path=/; HttpOnly; SameSite=Strict; Max-Age=86400")%string.

(** [POST /api/auth/login] *)
Definition login (cfg : Config) (now : N) (req : Request) (st : Store)
  : Reply * Store :=
  if negb (hasPasswordProtection cfg) then
    (mkReply 200 None
       (JObject [("success", JBool true); ("message", JString "No password required")]),
     st)
  else if passwordMatches cfg (bodyPassword req) then
    let token := generateSessionToken cfg (draws st) in
    (mkReply 200 (Some (sessionCookie token)) (JObject [("success", JBool true)]),
     mkStore (set token now (sessions st)) (draws st + 32))
  else
    (mkReply 401 None (JObject [("error", JString "Invalid password")]), st).

(** [POST /api/auth/logout] *)
Definition logout (req : Request) (st : Store) : Reply * Store :=
  (mkReply 200 (Some "session=; Path=/; HttpOnly; Max-Age=0")
     (JObject [("success", JBool true)]),
   match sessionTokenOf req with
   | Some (String c r) => mkStore (delete (String c r) (sessions st)) (draws st)
   | _ => st
   end).

(** The body [{ authenticated: isValid, passwordRequired: true }] where
    [isValid] is [sessionToken && sessions.has(sessionToken)]: an
    [undefined] member is left out of the JSON text, and an empty token is
    passed on as it is. *)
Definition statusBody (sessionToken : option string) (m : Sessions) : Json :=
  match sessionToken with
  | None => JObject [("passwordRequired", JBool true)]
  | Some EmptyString =>
      JObject [("authenticated", JString ""); ("passwordRequired", JBool true)]
  | Some token =>
      JObject [("authenticated", JBool (has token m)); ("passwordRequired", JBool true)]
  end.

(** [GET /api/auth/status] *)
Definition authStatus (cfg : Config) (req : Request) (st : Store) : Reply :=
  if negb (hasPasswordProtection cfg) then
    mkReply 200 None
      (JObject [("authenticated", JBool true); ("passwordRequired", JBool false)])
  else mkReply 200 None (statusBody (sessionTokenOf req) (sessions st)).

(** The [Cookie] header a client sends for the given cookies. *)
Definition cookieHeaderOf (pairs : list (string * string)) : string :=
  String.concat "; " (map (fun nv => (fst nv ++ "=" ++ snd nv)%string) pairs).

(** A character that may occur in a cookie name or value sent back
    unquoted: no separator and no white space. *)
Definition cookieChar (c : ascii) : bool :=
  negb (Ascii.eqb c ";") && negb (Ascii.eqb c "=") && negb (isWhiteSpace c).

(** The value a list of cookies gives to a name: that of its last pair. *)
Fixpoint lastValue (name : string) (pairs : list (string * string)) : option string :=
  match pairs with
  | [] => None
  | (n, v) :: rest =>
      match lastValue name rest with
      | Some v' => Some v'
      | None => if String.eqb n name then Some v else None
      end
  end.

(** A digit of base 36, or the dot of a fraction. *)
Definition base36Char (c : ascii) : bool :=
  let n := code c in
  ((48 <=? n) && (n <=? 57) || (97 <=? n) && (n <=? 122) || (n =? 46))%N.

(** A digit of base 36. *)
Definition digit36 (c : ascii) : bool :=
  let n := code c in
  ((48 <=? n) && (n <=? 57) || (97 <=? n) && (n <=? 122))%N.

(** A configuration with a password, whose random values are all [0.k7f3]. *)
Definition sampleConfig : Config :=
  mkConfig (Some "hunter2") (fun _ => "0.k7f3").

End Auth.

(* ================================================================== *)
(** ** Scene images: prompts, [generateNanoBananaImage] and its routes *)
(* ================================================================== *)

Module NanoBanana.

Definition NANO_BANANA_ASPECT_RATIOS : list string :=
  ["1:1"; "2:3"; "3:2"; "3:4"; "4:3"; "4:5"; "5:4"; "9:16"; "16:9"; "21:9"].

Definition NANO_BANANA_RESOLUTIONS : list string := ["1K"; "2K"; "4K"].

(** [array.includes(s)] for an array of strings. *)
Definition arrayIncludes (l : list string) (s : string) : bool :=
  existsb (String.eqb s) l.

(** [v || d] and a destructuring default [{ v = d }] for a value that is
    an object, an array or a boolean when present: only [undefined] gives
    way to [d]. *)
Definition orEmpty {A} (d : A) (v : option A) : A :=
  match v with
  | Some a => a
  | None => d
  end.

(** [o?.f] *)
Definition member {A} (f : A -> option string) (o : option A) : option string :=
  match o with
  | Some a => f a
  | None => None
  end.

(** [`${v}`] for a string that may be [undefined]. *)
Definition templateValue (v : option string) : string :=
  match v with
  | Some s => s
  | None => "undefined"
  end.

(** [c.toLowerCase()] on code units below 256. *)
Definition lowerChar (c : ascii) : ascii :=
  let n := code c in
  if ((65 <=? n) && (n <=? 90) || (192 <=? n) && (n <=? 222) && negb (n =? 215))%N
  then ascii_of_N (n + 32) else c.

Definition toLowerCase (s : string) : string :=
  string_of_list_ascii (map lowerChar (chars s)).

Definition doubleNewline : string :=
  String (ascii_of_nat 10) (String (ascii_of_nat 10) EmptyString).

(** The style guide of a character, as far as the description reads it. *)
Record Body := mkBody { skin_tone : option string; build : option string }.
Record Face := mkFace { description : option string }.
Record Hair := mkHair { color : option string; style : option string }.

Record Character := mkCharacter {
  appearance : option string;
  body : option Body;
  face : option Face;
  hair : option Hair;
  details : option string;
  visualStyle : option string;
  colorPalette : option (list string)
}.

Record Jewelry := mkJewelry { earrings : option string; wrist : option string }.
Record Accessories := mkAccessories { jewelry : option Jewelry }.

Record StyleGuide := mkStyleGuide {
  character : option Character;
  accessories : option Accessories
}.

Definition emptyCharacter : Character :=
  mkCharacter None None None None None None None.
Definition emptyAccessories : Accessories := mkAccessories None.

(** A scene of a request. *)
Record Photography := mkPhotography {
  shot_type : option string;
  angle : option string
}.
Record Background := mkBackground { lighting : option string }.

Record Scene := mkScene {
  scenePrompt : option string;
  sceneAspectRatio : option string;
  sceneResolution : option string;
  photography : option Photography;
  background : option Background
}.

Definition emptyScene : Scene := mkScene None None None None None.
Definition emptyPhotography : Photography := mkPhotography None None.

(** The [options] of [enhancePromptForNanoBanana]. *)
Record EnhanceOptions := mkEnhanceOptions {
  optCharacterDescription : option string;
  optScene : option Scene;
  optAspectRatio : option string;
  optIntent : option string;
  optHasReferenceImage : option bool
}.

(** The instruction that precedes the description when a reference image
    is provided. *)
Definition referenceInstructionOf (hasReferenceImage : bool) : string :=
  if hasReferenceImage then
    ("
**REFERENCE IMAGE PROVIDED - CRITICAL:**
A reference image of this character is attached. You MUST:
1. Match the EXACT skin tone and color from the reference
2. Preserve the EXACT facial structure and features
3. Keep the SAME art style and rendering quality
4. Maintain all signature accessories (earrings, bangles)
5. The generated image should look like it's from the SAME animation/series
")%string
  else "".

(** [colorPalette.find(c => ...)]: the first entry that names a green. *)
Definition namesGreen (c : string) : bool :=
  includes (toLowerCase c) "green" || includes (toLowerCase c) "8bc"
  || includes (toLowerCase c) "4caf".

Definition buildDetailedCharacterDescription (styleGuide : option StyleGuide)
    (characterName : string) (hasReferenceImage : bool) : string :=
  let referenceInstruction := referenceInstructionOf hasReferenceImage in
  match styleGuide with
  | None =>
    (referenceInstruction
   ++ "
CHARACTER DESCRIPTION (preserve these exact details):
Name: "
   ++ characterName
   ++ "
Species: Animated goblin woman with GREEN SKIN (this is mandatory - she is a goblin)
Skin: Vibrant emerald/lime green skin tone - NOT human skin color, she is a green goblin
Face: Expressive large eyes with dark pupils, small pointed goblin nose, wide mouth capable of exaggerated expressions, pointed goblin ears
Build: Petite, feminine figure with stylized cartoon proportions
Hair: Dark hair (black or very dark brown), usually styled casually or in a messy bun
Signature Features: Gold hoop earrings, multiple gold bangles and bracelets on wrists, casual modern clothing (hoodies, tank tops)
Art Style: 3D Pixar/DreamWorks-quality animated character, smooth rendered surfaces, soft cinematic lighting, cartoon proportions
Expression Style: Highly expressive, emotive, capable of exaggerated comedic reactions

MANDATORY CHARACTER TRAITS:
- GREEN SKIN (goblin character - this cannot be changed)
- Gold jewelry (earrings + wrist bangles)  
- 3D cartoon animation style (NOT realistic, NOT 2D)
- Young adult female goblin")%string
  | Some guide =>
    let char := orEmpty emptyCharacter (character guide) in
    let acc := orEmpty emptyAccessories (accessories guide) in
    let colorPalette := orEmpty [] (colorPalette char) in
    let skinColor := orDefault (find namesGreen colorPalette) "#8BC34A" in
    (referenceInstruction
   ++ "
CHARACTER DESCRIPTION (preserve these exact details):
Name: "
   ++ characterName
   ++ "
Physical Appearance: "
   ++ orDefault (appearance char) "Green-skinned goblin woman, petite feminine build"
   ++ "
Skin: "
   ++ orDefault (member skin_tone (body char))
        ("GREEN SKIN - specific hex: "
   ++ skinColor
   ++ " - this is a goblin character")%string
   ++ "
Face: "
   ++ orDefault (member description (face char)) "Expressive large eyes, small pointed goblin nose, wide expressive mouth, pointed goblin ears"
   ++ "
Hair: "
   ++ orDefault (member color (hair char)) "Dark"
   ++ " hair, "
   ++ orDefault (member style (hair char)) "casual/messy style"
   ++ "
Build: "
   ++ orDefault (member build (body char)) "Petite, feminine figure with stylized cartoon proportions"
   ++ "
Signature Jewelry: "
   ++ orDefault (member earrings (jewelry acc)) "Gold hoop earrings"
   ++ ", "
   ++ orDefault (member wrist (jewelry acc)) "gold bangles and bracelets on wrists"
   ++ "
Clothing Style: "
   ++ orDefault (details char) "Casual modern Gen-Z clothing - hoodies, tank tops, comfortable athleisure"
   ++ "
Art Style: "
   ++ orDefault (visualStyle char) "3D Pixar/DreamWorks-quality animated character, smooth surfaces, soft lighting"
   ++ "
Color Palette: "
   ++ orDefault (Some (String.concat ", " colorPalette)) "#8BC34A (green skin), #FFD700 (gold accents), warm earth tones"
   ++ "
Expression Style: Highly expressive, emotive, exaggerated cartoon reactions

MANDATORY - DO NOT CHANGE:
- GREEN SKIN TONE (she is a goblin, not a human)
- Gold jewelry accessories
- 3D animated cartoon style (Pixar/DreamWorks quality)
- Consistent facial features across all images")%string
  end.

(** The object literal indexed by [aspectRatio].  A key that the literal
    does not define may still name a member inherited from
    [Object.prototype]; the text such a member is printed as is left to the
    environment. *)
Definition cameraLanguageOf (inheritedMemberText : string -> option string)
    (aspectRatio : string) : string :=
  if String.eqb aspectRatio "9:16" then
    "vertical mobile-first composition, portrait orientation optimized for Instagram Reels/TikTok"
  else if String.eqb aspectRatio "16:9" then
    "cinematic widescreen composition, landscape orientation for YouTube/desktop"
  else if String.eqb aspectRatio "1:1" then
    "square composition, centered framing optimized for Instagram feed"
  else orDefault (inheritedMemberText aspectRatio) "balanced composition".

Definition enhancePromptForNanoBanana (inheritedMemberText : string -> option string)
    (basePrompt : option string) (options : EnhanceOptions) : string :=
  let characterDescription := orEmpty "" (optCharacterDescription options) in
  let scene := orEmpty emptyScene (optScene options) in
  let aspectRatio := orEmpty "9:16" (optAspectRatio options) in
  let intent := orEmpty "social media content" (optIntent options) in
  let hasReferenceImage := orEmpty false (optHasReferenceImage options) in
  let cameraLanguage := cameraLanguageOf inheritedMemberText aspectRatio in
  let cameraDetails := orEmpty emptyPhotography (photography scene) in
  String.concat doubleNewline
    ((if hasReferenceImage then
        [("**CRITICAL - REFERENCE IMAGE ATTACHED**
You have been given a reference image of the character. 
You MUST generate an image where:
1. The character looks IDENTICAL to the reference - same face, same skin color, same style
2. The character's GREEN SKIN TONE must match exactly
3. All accessories (gold earrings, bangles) must be present
4. The art style/rendering must be consistent with the reference
5. This should look like a NEW SCENE from the SAME animation/cartoon series")%string]
      else [])
     ++ [("CONTEXT: Creating "
   ++ intent
   ++ " featuring an animated GOBLIN character with GREEN SKIN. 
Style: Modern 3D animation (Pixar/DreamWorks quality).
Character Type: Cartoon goblin woman - NOT a human, has GREEN SKIN.")%string]
     ++ (if truthyString (Some characterDescription) then [characterDescription] else [])
     ++ [("SCENE ACTION: "
   ++ templateValue basePrompt
   ++ "

IMPORTANT: The character in this scene is the SAME character from the reference image.
- Keep her GREEN SKIN
- Keep her gold jewelry (hoop earrings, bangles)
- Keep the 3D cartoon art style")%string]
     ++ [("
CAMERA & COMPOSITION:
- Framing: "
   ++ cameraLanguage
   ++ "
- Shot Type: "
   ++ orDefault (shot_type cameraDetails) "medium shot focusing on character"
   ++ "
- Angle: "
   ++ orDefault (angle cameraDetails) "eye-level, engaging perspective"
   ++ "
- Lighting: "
   ++ orDefault (member lighting (background scene)) "soft, flattering lighting that highlights the character"
   ++ "
- Depth: Clear foreground focus with slightly blurred background for depth
- Focus: Character is the hero of the shot")%string]
     ++ [("
QUALITY DIRECTIVES:
- Render with clean, professional quality suitable for social media
- Character should be the clear focal point with GREEN GOBLIN SKIN
- Background should complement but not distract from the character
- CONSISTENT ART STYLE: 3D animated cartoon only (no realistic mixing)
- Character's skin MUST be green (she is a goblin, not human)
- All signature accessories must be visible (gold earrings, bangles)

DO NOT:
- Change the skin color to human/realistic tones
- Mix 2D and 3D styles
- Omit the character's signature jewelry
- Change the character's facial structure")%string]).

(** A part of the [contents] sent to the model. *)
Inductive ContentPart :=
| TextContent (prompt : option string)
| InlineContent (mimeType : string) (data : option string).

(** A part of the first candidate of a response. *)
Record InlineData := mkInlineData {
  inlineData : option string;
  inlineMimeType : option string
}.

Record ResponsePart := mkResponsePart {
  partText : option string;
  partInlineData : option InlineData
}.

(** The [result] object of [generateNanoBananaImage]. *)
Record ImageResult := mkImageResult {
  imageBase64 : option string;
  mimeType : option string;
  text : option string
}.

(** One entry of the [results] of a batch. *)
Inductive SceneResult :=
| SceneImage (index : nat) (image : ImageResult) (imageUrl : option string)
| SceneError (index : nat) (error : string).

(** Bodies of the replies of the two image routes. *)
Inductive ImageReply :=
| NotConfigured
| Failure (error : string) (details : option string)
| Generated (image : ImageResult) (imageUrl : option string)
    (model aspectRatio resolution : string)
| Batch (success : bool) (totalScenes successCount : nat) (failedCount : Z)
    (results : list SceneResult) (model aspectRatio resolution : string).

Inductive ImageEvent :=
| EvFetchReference (url : string)
| EvGenerateContent (model : string) (contents : list ContentPart)
    (aspectRatio imageSize : string)
| EvUpload (file : string)
| EvDelay (ms : N)
| EvReply (code : N) (body : ImageReply).

Definition Trace := list ImageEvent.

(** Outcome of fetching a reference image: the content type of the answer
    and its body in base64, unless the fetch or the reading of the body
    fails. *)
Inductive ReferenceFetch :=
| ReferenceRejects (e : Exn)
| ReferenceResolves (contentType : option string) (base64 : string).

(** The environment of the image code.  An answer may depend on everything
    that happened before: each oracle is asked with the trace so far, whose
    last event is the request it answers.  [generateContent] gives the
    rejection of the call or [response.candidates?.[0]?.content?.parts || []];
    [cloudinaryUpload] gives the rejection of the upload or the
    [secure_url] of its result. *)
Record ImageWorld := mkImageWorld {
  hasGoogleAI : bool;
  hasCloudinary : bool;
  inheritedMemberText : string -> option string;
  fetchReference : Trace -> ReferenceFetch;
  generateContent : Trace -> Exn + list ResponsePart;
  cloudinaryUpload : Trace -> Exn + option string
}.

(** Computations of the image code: a trace is threaded through, and an
    exception may end the computation. *)
Definition IM (A : Type) : Type := Trace -> Result A * Trace.

Definition iret {A} (a : A) : IM A := fun t => (Ok a, t).

Definition ibind {A B} (m : IM A) (k : A -> IM B) : IM B :=
  fun t =>
    match m t with
    | (Ok a, t') => k a t'
    | (Throw e, t') => (Throw e, t')
    end.

Definition ithrow {A} (e : Exn) : IM A := fun t => (Throw e, t).

Definition itry {A} (m : IM A) (h : Exn -> IM A) : IM A :=
  fun t =>
    match m t with
    | (Ok a, t') => (Ok a, t')
    | (Throw e, t') => h e t'
    end.

Definition iemit (e : ImageEvent) : IM unit := fun t => (Ok tt, t ++ [e]).

(** Asks an oracle about the trace so far. *)
Definition ask {A} (oracle : Trace -> A) : IM A := fun t => (Ok (oracle t), t).

Declare Scope image_scope.
Delimit Scope image_scope with image.
Notation "x <- c1 ;; c2" := (ibind c1 (fun x => c2))
  (at level 61, c1 at next level, right associativity) : image_scope.
Notation "c1 ;; c2" := (ibind c1 (fun _ => c2))
  (at level 61, right associativity) : image_scope.
Local Open Scope image_scope.

(** If [p] is a prefix of [s], what follows it. *)
Fixpoint afterPrefix (p s : string) : option string :=
  match p, s with
  | EmptyString, _ => Some s
  | String a p', String b s' => if Ascii.eqb a b then afterPrefix p' s' else None
  | String _ _, EmptyString => None
  end.

Definition notSemicolon (c : ascii) : bool := negb (Ascii.eqb c ";").

(** [header.match(/data:([^;]+)/)?.[1]]: the first place where [data:] is
    followed by a character other than [;], and the longest run of such
    characters from there. *)
Fixpoint matchDataMime (header : string) : option string :=
  match header with
  | EmptyString => None
  | String _ rest =>
      match afterPrefix "data:" header with
      | Some tail =>
          match takeWhile notSemicolon (chars tail) with
          | [] => matchDataMime rest
          | run => Some (string_of_list_ascii run)
          end
      | None => matchDataMime rest
      end
  end.

(** The body of the loop over the reference images: the part it pushes,
    if any. *)
Definition referencePart (w : ImageWorld) (refImage : string)
  : IM (list ContentPart) :=
  if String.prefix "data:" refImage then
    let pieces := splitOn "," refImage in
    let header := hd EmptyString pieces in
    let base64Data := nth_error pieces 1 in
    let mimeType := orDefault (matchDataMime header) "image/png" in
    iret [InlineContent mimeType base64Data]
  else if String.prefix "http" refImage then
    iemit (EvFetchReference refImage) ;;
    response <- ask (fetchReference w) ;;
    match response with
    | ReferenceRejects _ => iret []
    | ReferenceResolves contentType base64 =>
        iret [InlineContent (orDefault contentType "image/png") (Some base64)]
    end
  else iret [].

Fixpoint referenceParts (w : ImageWorld) (refImages : list string)
  : IM (list ContentPart) :=
  match refImages with
  | [] => iret []
  | refImage :: rest =>
      part <- referencePart w refImage ;;
      parts <- referenceParts w rest ;;
      iret (part ++ parts)
  end.

(** The body of the loop over the parts of the response. *)
Definition extractStep (result : ImageResult) (part : ResponsePart) : ImageResult :=
  if truthyString (partText part) then
    mkImageResult (imageBase64 result) (mimeType result) (partText part)
  else
    match partInlineData part with
    | Some inline =>
        mkImageResult (inlineData inline)
          (Some (orDefault (inlineMimeType inline) "image/png"))
          (text result)
    | None => result
    end.

Definition extractResult (parts : list ResponsePart) : ImageResult :=
  fold_left extractStep parts (mkImageResult None None None).

Record Options := mkOptions {
  prompt : option string;
  aspectRatio : option string;
  resolution : option string;
  referenceImages : option (list string);
  model : option string
}.

Definition invalidAspectRatio (aspectRatio : string) : Exn :=
  newError ("Invalid aspect ratio: " ++ aspectRatio ++ ". Valid options: "
              ++ String.concat ", " NANO_BANANA_ASPECT_RATIOS)%string.

Definition invalidResolution (resolution : string) : Exn :=
  newError ("Invalid resolution: " ++ resolution ++ ". Valid options: "
              ++ String.concat ", " NANO_BANANA_RESOLUTIONS)%string.

Definition generateNanoBananaImage (w : ImageWorld) (options : Options)
  : IM ImageResult :=
  if negb (hasGoogleAI w) then
    ithrow (newError
      "Google AI not configured. Set GOOGLE_AI_API_KEY environment variable.")
  else
    let aspectRatio := orEmpty "9:16" (aspectRatio options) in
    let resolution := orEmpty "2K" (resolution options) in
    let referenceImages := orEmpty [] (referenceImages options) in
    let model := orEmpty "gemini-2.5-flash-image" (model options) in
    if negb (arrayIncludes NANO_BANANA_ASPECT_RATIOS aspectRatio) then
      ithrow (invalidAspectRatio aspectRatio)
    else if negb (arrayIncludes NANO_BANANA_RESOLUTIONS resolution) then
      ithrow (invalidResolution resolution)
    else
      references <- referenceParts w (firstn 5 referenceImages) ;;
      let contentParts := TextContent (prompt options) :: references in
      iemit (EvGenerateContent model contentParts aspectRatio resolution) ;;
      response <- ask (generateContent w) ;;
      match response with
      | inl e => ithrow e
      | inr parts =>
          let result := extractResult parts in
          if negb (truthyString (imageBase64 result)) then
            ithrow (newError
              "No image generated. The model may have refused or returned empty.")
          else iret result
      end.

(** [`data:${result.mimeType};base64,${result.imageBase64}`] *)
Definition dataUrl (result : ImageResult) : string :=
  ("data:" ++ match mimeType result with Some m => m | None => "null" end
     ++ ";base64,"
     ++ match imageBase64 result with Some d => d | None => "null" end)%string.

(** The upload of a generated image: a failure is logged and gives no URL. *)
Definition saveToCloudinary (w : ImageWorld) (result : ImageResult)
  : IM (option string) :=
  iemit (EvUpload (dataUrl result)) ;;
  uploadResult <- ask (cloudinaryUpload w) ;;
  match uploadResult with
  | inl _ => iret None
  | inr secure_url => iret secure_url
  end.

Definition intent : string := "Instagram Reels / TikTok social media content".

(** The body of [POST /api/images/generate]. *)
Record GenerateBody := mkGenerateBody {
  bodyPrompt : option string;
  bodyAspectRatio : option string;
  bodyResolution : option string;
  bodyReferenceImages : option (list string);
  bodyModel : option string;
  bodySaveToCloudinary : option bool;
  bodyCharacterStyleGuide : option StyleGuide;
  bodyCharacterName : option string;
  bodyScene : option Scene;
  bodyEnhancePrompt : option bool
}.

Definition notConfiguredReply : IM unit := iemit (EvReply 503 NotConfigured).

(** The options the single route hands to [generateNanoBananaImage]. *)
Definition imageOptions (w : ImageWorld) (body : GenerateBody) : Options :=
  let prompt := bodyPrompt body in
  let aspectRatio := orEmpty "9:16" (bodyAspectRatio body) in
  let referenceImages := orEmpty [] (bodyReferenceImages body) in
  let hasReferenceImages := negb (Nat.eqb (List.length referenceImages) 0) in
  let finalPrompt :=
    if orEmpty true (bodyEnhancePrompt body) then
      let characterDescription :=
        buildDetailedCharacterDescription (bodyCharacterStyleGuide body)
          (orEmpty "Ms. Goblina" (bodyCharacterName body)) hasReferenceImages in
      Some (enhancePromptForNanoBanana (inheritedMemberText w) prompt
              (mkEnhanceOptions (Some characterDescription)
                 (Some (orEmpty emptyScene (bodyScene body)))
                 (Some aspectRatio) (Some intent) (Some hasReferenceImages)))
    else prompt in
  mkOptions finalPrompt (Some aspectRatio)
    (Some (orEmpty "2K" (bodyResolution body)))
    (Some referenceImages)
    (Some (orEmpty "gemini-2.5-flash-image" (bodyModel body))).

(** [POST /api/images/generate] *)
Definition generateImage (w : ImageWorld) (body : GenerateBody) : IM unit :=
  itry
    (if negb (hasGoogleAI w) then notConfiguredReply
     else
       let aspectRatio := orEmpty "9:16" (bodyAspectRatio body) in
       let resolution := orEmpty "2K" (bodyResolution body) in
       let model := orEmpty "gemini-2.5-flash-image" (bodyModel body) in
       let shouldSave := orEmpty true (bodySaveToCloudinary body) in
       if negb (truthyString (bodyPrompt body)) then
         iemit (EvReply 400 (Failure "Prompt is required" None))
       else
         result <- generateNanoBananaImage w (imageOptions w body) ;;
         cloudinaryUrl <-
           (if shouldSave && hasCloudinary w && truthyString (imageBase64 result)
            then saveToCloudinary w result
            else iret None) ;;
         iemit (EvReply 200 (Generated result cloudinaryUrl model aspectRatio resolution)))
    (fun err =>
       iemit (EvReply 500 (Failure "Failed to generate image" (Some (message err))))).

(** The body of [POST /api/images/generate-batch]. *)
Record BatchBody := mkBatchBody {
  batchScenes : option (list Scene);
  batchReferenceImages : option (list string);
  batchModel : option string;
  batchAspectRatio : option string;
  batchResolution : option string;
  batchCharacterStyleGuide : option StyleGuide;
  batchCharacterName : option string;
  batchEnhancePrompt : option bool
}.

(** What the loop of the batch route reads besides the scene. *)
Record BatchContext := mkBatchContext {
  ctxReferenceImages : list string;
  ctxModel : string;
  ctxAspectRatio : string;
  ctxResolution : string;
  ctxEnhancePrompt : bool;
  ctxCharacterDescription : string;
  ctxTotal : nat
}.

(** The options one turn of the loop hands to [generateNanoBananaImage]. *)
Definition sceneOptions (w : ImageWorld) (ctx : BatchContext) (scene : Scene)
  : Options :=
  let hasReferenceImages := negb (Nat.eqb (List.length (ctxReferenceImages ctx)) 0) in
  let aspectRatio := orDefault (sceneAspectRatio scene) (ctxAspectRatio ctx) in
  let finalPrompt :=
    if ctxEnhancePrompt ctx then
      Some (enhancePromptForNanoBanana (inheritedMemberText w) (scenePrompt scene)
              (mkEnhanceOptions (Some (ctxCharacterDescription ctx)) (Some scene)
                 (Some aspectRatio) (Some intent) (Some hasReferenceImages)))
    else scenePrompt scene in
  mkOptions finalPrompt (Some aspectRatio)
    (Some (orDefault (sceneResolution scene) (ctxResolution ctx)))
    (Some (ctxReferenceImages ctx)) (Some (ctxModel ctx)).

(** One turn of the [for (let i = 0; i < scenes.length; i++)] loop: the
    entry it pushes to [results]. *)
Definition generateScene (w : ImageWorld) (ctx : BatchContext) (i : nat)
    (scene : Scene) : IM SceneResult :=
  entry <-
    itry
      (result <- generateNanoBananaImage w (sceneOptions w ctx scene) ;;
       cloudinaryUrl <-
         (if hasCloudinary w && truthyString (imageBase64 result)
          then saveToCloudinary w result
          else iret None) ;;
       iret (SceneImage i result cloudinaryUrl))
      (fun sceneErr => iret (SceneError i (message sceneErr))) ;;
  (if (i <? ctxTotal ctx - 1)%nat then iemit (EvDelay 500) else iret tt) ;;
  iret entry.

(** The loop from index [i] on, over the scenes still to do. *)
Fixpoint generateScenes (w : ImageWorld) (ctx : BatchContext) (i : nat)
    (scenes : list Scene) : IM (list SceneResult) :=
  match scenes with
  | [] => iret []
  | scene :: rest =>
      entry <- generateScene w ctx i scene ;;
      entries <- generateScenes w ctx (S i) rest ;;
      iret (entry :: entries)
  end.

Definition sceneSucceeded (r : SceneResult) : bool :=
  match r with
  | SceneImage _ _ _ => true
  | SceneError _ _ => false
  end.

(** [POST /api/images/generate-batch] *)
Definition generateBatch (w : ImageWorld) (body : BatchBody) : IM unit :=
  itry
    (if negb (hasGoogleAI w) then notConfiguredReply
     else
       let scenes := orEmpty [] (batchScenes body) in
       let referenceImages := orEmpty [] (batchReferenceImages body) in
       let model := orEmpty "gemini-2.5-flash-image" (batchModel body) in
       let aspectRatio := orEmpty "9:16" (batchAspectRatio body) in
       let resolution := orEmpty "2K" (batchResolution body) in
       let characterStyleGuide := batchCharacterStyleGuide body in
       let characterName := orEmpty "Ms. Goblina" (batchCharacterName body) in
       let enhancePrompt := orEmpty true (batchEnhancePrompt body) in
       if Nat.eqb (List.length scenes) 0 then
         iemit (EvReply 400 (Failure "At least one scene is required" None))
       else
         let hasReferenceImages := negb (Nat.eqb (List.length referenceImages) 0) in
         let characterDescription :=
           if enhancePrompt
           then buildDetailedCharacterDescription characterStyleGuide characterName
                  hasReferenceImages
           else "" in
         results <- generateScenes w
                      (mkBatchContext referenceImages model aspectRatio resolution
                         enhancePrompt characterDescription (List.length scenes))
                      0 scenes ;;
         let successCount := List.length (filter sceneSucceeded results) in
         iemit (EvReply 200
                  (Batch (0 <? successCount)%nat (List.length scenes) successCount
                     (Z.of_nat (List.length scenes) - Z.of_nat successCount)
                     results model aspectRatio resolution)))
    (fun err =>
       iemit (EvReply 500 (Failure "Failed to generate images" (Some (message err))))).

(** Run of a computation from the empty trace. *)
Definition runImage {A} (m : IM A) : Trace := snd (m []).

(** The generation requests of a trace, in order. *)
Fixpoint generations (t : Trace) : list ImageEvent :=
  match t with
  | [] => []
  | EvGenerateContent m c a s :: rest => EvGenerateContent m c a s :: generations rest
  | _ :: rest => generations rest
  end.

(** The delays of a trace, in order. *)
Fixpoint delays (t : Trace) : list N :=
  match t with
  | [] => []
  | EvDelay ms :: rest => ms :: delays rest
  | _ :: rest => delays rest
  end.

(** The replies of a trace, in order. *)
Fixpoint imageReplies (t : Trace) : list (N * ImageReply) :=
  match t with
  | [] => []
  | EvReply code body :: rest => (code, body) :: imageReplies rest
  | _ :: rest => imageReplies rest
  end.

(** The index an entry of [results] carries. *)
Definition sceneIndex (r : SceneResult) : nat :=
  match r with
  | SceneImage i _ _ => i
  | SceneError i _ => i
  end.

(** The last part of a response that carries inline data and no text. *)
Fixpoint lastInline (parts : list ResponsePart) : option InlineData :=
  match parts with
  | [] => None
  | part :: rest =>
      match lastInline rest with
      | Some d => Some d
      | None =>
          if truthyString (partText part) then None else partInlineData part
      end
  end.

(** A reference that is fetched: an [http] URL that is no data URL. *)
Definition isRemoteReference (refImage : string) : bool :=
  negb (String.prefix "data:" refImage) && String.prefix "http" refImage.

(** Whether the settings of a call pass the two checks. *)
Definition validSettings (options : Options) : bool :=
  arrayIncludes NANO_BANANA_ASPECT_RATIOS (orEmpty "9:16" (aspectRatio options))
  && arrayIncludes NANO_BANANA_RESOLUTIONS (orEmpty "2K" (resolution options)).

(** What [generateNanoBananaImage] makes of the answer of the model. *)
Definition generationOutcome (answer : Exn + list ResponsePart) : Result ImageResult :=
  match answer with
  | inl e => Throw e
  | inr parts =>
      if truthyString (imageBase64 (extractResult parts))
      then Ok (extractResult parts)
      else Throw (newError
             "No image generated. The model may have refused or returned empty.")
  end.

(** The events of a call with valid settings: the fetches of the remote
    references among the first five, then the request. *)
Definition generationEvents (options : Options) (references : list ContentPart)
  : Trace :=
  map EvFetchReference
    (filter isRemoteReference (firstn 5 (orEmpty [] (referenceImages options))))
  ++ [EvGenerateContent (orEmpty "gemini-2.5-flash-image" (model options))
        (TextContent (prompt options) :: references)
        (orEmpty "9:16" (aspectRatio options))
        (orEmpty "2K" (resolution options))].

(** The uploads of a trace, in order. *)
Fixpoint uploads (t : Trace) : list string :=
  match t with
  | [] => []
  | EvUpload file :: rest => file :: uploads rest
  | _ :: rest => uploads rest
  end.

(** The context the batch route builds from its body. *)
Definition batchContext (body : BatchBody) : BatchContext :=
  let referenceImages := orEmpty [] (batchReferenceImages body) in
  let enhancePrompt := orEmpty true (batchEnhancePrompt body) in
  mkBatchContext referenceImages
    (orEmpty "gemini-2.5-flash-image" (batchModel body))
    (orEmpty "9:16" (batchAspectRatio body))
    (orEmpty "2K" (batchResolution body))
    enhancePrompt
    (if enhancePrompt
     then buildDetailedCharacterDescription (batchCharacterStyleGuide body)
            (orEmpty "Ms. Goblina" (batchCharacterName body))
            (negb (Nat.eqb (List.length referenceImages) 0))
     else "")
    (List.length (orEmpty [] (batchScenes body))).

(** The reply of a batch whose loop left the given results. *)
Definition batchReply (body : BatchBody) (results : list SceneResult) : ImageReply :=
  let total := List.length (orEmpty [] (batchScenes body)) in
  let successCount := List.length (filter sceneSucceeded results) in
  Batch (0 <? successCount)%nat total successCount
    (Z.of_nat total - Z.of_nat successCount) results
    (orEmpty "gemini-2.5-flash-image" (batchModel body))
    (orEmpty "9:16" (batchAspectRatio body))
    (orEmpty "2K" (batchResolution body)).

(** A batch of three scenes, the second with an aspect ratio that is not
    supported. *)
Definition sampleBatch : BatchBody :=
  mkBatchBody
    (Some [mkScene (Some "goblina waves") None None None None;
           mkScene (Some "goblina jumps") (Some "7:7") None None None;
           mkScene (Some "goblina bows") None None None None])
    None None None None None None None.

(** A world in which the model answers every request with one PNG and
    every upload succeeds. *)
Definition sampleWorld : ImageWorld :=
  mkImageWorld true true (fun _ => None)
    (fun _ => ReferenceResolves (Some "image/jpeg") "/9j/4AAQ")
    (fun _ => inr [mkResponsePart (Some "Here is your scene.") None;
                   mkResponsePart None
                     (Some (mkInlineData (Some "iVBORw0KGgo") (Some "image/png")))])
    (fun _ => inr (Some "https://res.cloudinary.com/demo/scene.png")).

(** A body with a prompt and nothing else. *)
Definition sampleBody : GenerateBody :=
  mkGenerateBody (Some "goblina waves") None None None None None None None None None.

(** A world like [sampleWorld] in which every upload fails. *)
Definition uploadFails : ImageWorld :=
  mkImageWorld true true (fun _ => None)
    (fun _ => ReferenceRejects (newError "fetch failed"))
    (generateContent sampleWorld)
    (fun _ => inl (newError "Upload failed")).

End NanoBanana.

(* ================================================================== *)
(** ** Facts about numbers and about the search *)
(* ================================================================== *)

Lemma lt_irrefl (x : number) : lt x x = false.
Proof.
  unfold lt, SFltb.
  destruct x as [s | s | | s m e]; simpl; try reflexivity.
  - destruct s; reflexivity.
  - destruct s; rewrite Z.compare_refl, Pos.compare_cont_refl; reflexivity.
Qed.


Lemma portrait_720x1280 : sizeIsPortrait size_720x1280 = true.
Proof. reflexivity. Qed.
Lemma portrait_1280x720 : sizeIsPortrait size_1280x720 = false.
Proof. reflexivity. Qed.
Lemma portrait_1024x1792 : sizeIsPortrait size_1024x1792 = true.
Proof. reflexivity. Qed.
Lemma portrait_1792x1024 : sizeIsPortrait size_1792x1024 = false.
Proof. reflexivity. Qed.

(** The search over the catalog, in closed form: a portrait request keeps
    the initial best; any other request moves to [1280x720] exactly when
    that entry's stored ratio is strictly closer. *)
Lemma closestMatch_catalog (w h : number) :
  closestMatch (hd size_720x1280 VALID_SORA_SIZES) VALID_SORA_SIZES w h =
  if gt h w then size_720x1280
  else if lt (diffLandscape (div w h)) (diffPortrait (div w h))
       then size_1280x720 else size_720x1280.
Proof.
  unfold closestMatch, VALID_SORA_SIZES.
  cbn [hd fold_left]. unfold matchStep.
  rewrite portrait_720x1280, portrait_1280x720,
    portrait_1024x1792, portrait_1792x1024.
  change (ratio size_1024x1792) with (ratio size_720x1280).
  change (ratio size_1792x1024) with (ratio size_1280x720).
  fold (diffPortrait (div w h)). fold (diffLandscape (div w h)).
  generalize (diffPortrait (div w h)) (diffLandscape (div w h)).
  intros d0 d1.
  destruct (gt h w); cbn [Bool.eqb negb].
  - rewrite !lt_irrefl. reflexivity.
  - destruct (lt d1 d0) eqn:E; cbn [fst].
    + rewrite lt_irrefl. reflexivity.
    + rewrite E. reflexivity.
Qed.

(** Every result of [mapToValidSoraSize] is the default or the name of a
    search result. *)
Lemma mapToValidSoraSize_cases (s : string) :
  mapToValidSoraSize s = "720x1280" \/
  exists w h,
    nth_error (map Number (splitOn "x" s)) 0 = Some w /\
    nth_error (map Number (splitOn "x" s)) 1 = Some h /\
    falsy w = false /\ falsy h = false /\
    mapToValidSoraSize s =
      name (closestMatch (hd size_720x1280 VALID_SORA_SIZES)
              VALID_SORA_SIZES w h).
Proof.
  unfold mapToValidSoraSize.
  destruct (nth_error (map Number (splitOn "x" s)) 0) as [w|]; [|now left].
  destruct (nth_error (map Number (splitOn "x" s)) 1) as [h|];
    [|left; cbn [falsyElement]; now rewrite Bool.orb_true_r].
  cbn [falsyElement].
  destruct (falsy w) eqn:Ew; [now left|].
  destruct (falsy h) eqn:Eh; [now left|].
  right. exists w, h. cbn [orb]. repeat split; auto.
Qed.

(** *** Integers below [2^53] are represented exactly *)

Lemma digits2_iter (p k : positive) :
  digits2_pos (Pos.iter xO p k) = (digits2_pos p + k)%positive.
Proof.
  induction k as [|k IH] using Pos.peano_ind.
  - cbn. lia.
  - rewrite Pos.iter_succ. cbn [digits2_pos]. rewrite IH. lia.
Qed.

Lemma digits2_bound (p : positive) :
  (Zpos p < 2 ^ 53)%Z -> (Zpos (digits2_pos p) <= 53)%Z.
Proof.
  intros H.
  assert (G : forall q, (2 ^ (Zpos (digits2_pos q) - 1) <= Zpos q)%Z).
  { induction q as [q IH | q IH |]; cbn [digits2_pos].
    - rewrite Pos2Z.inj_succ. replace (Z.succ (Zpos (digits2_pos q)) - 1)%Z with (Z.succ (Zpos (digits2_pos q) - 1))%Z by lia.
      rewrite Z.pow_succ_r by lia. lia.
    - rewrite Pos2Z.inj_succ. replace (Z.succ (Zpos (digits2_pos q)) - 1)%Z with (Z.succ (Zpos (digits2_pos q) - 1))%Z by lia.
      rewrite Z.pow_succ_r by lia. lia.
    - cbn. lia. }
  specialize (G p).
  destruct (Z_le_gt_dec (Zpos (digits2_pos p)) 53) as [L | L]; [exact L|].
  exfalso.
  assert (2 ^ 53 <= 2 ^ (Zpos (digits2_pos p) - 1))%Z by (apply Z.pow_le_mono_r; lia).
  lia.
Qed.

(** The binary64 value of a positive integer below [2^53]: its digits,
    shifted to a 53-bit mantissa. *)
Lemma of_Z_small (p : positive) :
  (Zpos p < 2 ^ 53)%Z ->
  of_Z (Zpos p) =
  match (Zpos (digits2_pos p) - 53)%Z with
  | Zneg k => S754_finite false (Pos.iter xO p k) (Zneg k)
  | _ => S754_finite false p 0
  end.
Proof.
  intros H. pose proof (digits2_bound p H) as Hd.
  unfold of_Z, binary_normalize, binary_round.
  replace (Zpos (digits2_pos p) + 0)%Z with (Zpos (digits2_pos p)) by lia.
  unfold fexp, emin, prec, emax.
  replace (Z.max (Zpos (digits2_pos p) - 53) (3 - 1024 - 53))%Z
    with (Zpos (digits2_pos p) - 53)%Z by lia.
  unfold shl_align. rewrite Z.sub_0_r.
  destruct (Zpos (digits2_pos p) - 53)%Z as [|k|k] eqn:Ek; [| lia |].
  - unfold binary_round_aux, shr_fexp, shr_record_of_loc.
    cbn [Zdigits2]. unfold fexp, emin.
    replace (Z.max (Zpos (digits2_pos p) + 0 - 53) (3 - 1024 - 53) - 0)%Z with 0%Z by lia.
    cbn [shr shr_m loc_of_shr_record round_nearest_even Zdigits2].
    unfold fexp, emin.
    replace (Z.max (Zpos (digits2_pos p) + 0 - 53) (3 - 1024 - 53) - 0)%Z with 0%Z by lia.
    cbn [shr shr_m]. reflexivity.
  - unfold binary_round_aux, shr_fexp, shr_record_of_loc.
    cbn [Zdigits2]. rewrite digits2_iter. unfold fexp, emin.
    replace (Z.max (Zpos (digits2_pos p + k) + Zneg k - 53) (3 - 1024 - 53) - Zneg k)%Z with 0%Z by lia.
    cbn [shr shr_m loc_of_shr_record round_nearest_even Zdigits2].
    rewrite digits2_iter. unfold fexp, emin.
    replace (Z.max (Zpos (digits2_pos p + k) + Zneg k - 53) (3 - 1024 - 53) - Zneg k)%Z with 0%Z by lia.
    cbn [shr shr_m].
    replace (Zneg k <=? 1024 - 53)%Z with true by (symmetry; apply Z.leb_le; lia).
    reflexivity.
Qed.

Lemma iter_xO_inj (p q k : positive) :
  Pos.iter xO p k = Pos.iter xO q k -> p = q.
Proof.
  induction k as [|k IH] using Pos.peano_ind.
  - cbn. intros E. now injection E.
  - rewrite !Pos.iter_succ. intros E. injection E as E. exact (IH E).
Qed.

Lemma small_N_to_Z (p : positive) :
  (Npos p < 2 ^ 53)%N -> (Zpos p < 2 ^ 53)%Z.
Proof.
  intros H. change (Z.of_N (Npos p) < Z.of_N (2 ^ 53)%N)%Z.
  apply N2Z.inj_lt. exact H.
Qed.

(** Distinct pixel counts are distinct numbers. *)
Lemma of_N_injective (n m : N) :
  (n < 2 ^ 53)%N -> (m < 2 ^ 53)%N -> of_N n = of_N m -> n = m.
Proof.
  intros Hn Hm E. unfold of_N in E.
  destruct n as [|p], m as [|q]; cbn [Z.of_N] in E; try reflexivity.
  - rewrite (of_Z_small q (small_N_to_Z q Hm)) in E.
    change (of_Z 0) with (S754_zero false) in E.
    destruct (Zpos (digits2_pos q) - 53)%Z; discriminate E.
  - rewrite (of_Z_small p (small_N_to_Z p Hn)) in E.
    change (of_Z 0) with (S754_zero false) in E.
    destruct (Zpos (digits2_pos p) - 53)%Z; discriminate E.
  - rewrite (of_Z_small p (small_N_to_Z p Hn)),
      (of_Z_small q (small_N_to_Z q Hm)) in E.
    clear Hn Hm.
    destruct (Zpos (digits2_pos p) - 53)%Z as [|k|k],
             (Zpos (digits2_pos q) - 53)%Z as [|l|l]; try discriminate E;
      try (injection E as E; congruence).
    injection E as E1 E2. subst l. apply iter_xO_inj in E1. congruence.
Qed.


(* ================================================================== *)
(** ** Properties of the size negotiation *)
(* ================================================================== *)

(** The loop of [mapToValidSoraSize] for a fixed request, over any
    catalog. *)
Section Search.

Variable requestedRatio : number.
Variable isPortrait : bool.

Lemma matchStep_cases (best : SoraSize) (d : number) (v : SoraSize) :
  matchStep requestedRatio isPortrait (best, d) v = (best, d) \/
  (matchStep requestedRatio isPortrait (best, d) v
     = (v, abs (sub requestedRatio (ratio v)))
   /\ sizeIsPortrait v = isPortrait).
Proof.
  unfold matchStep.
  destruct (Bool.eqb (sizeIsPortrait v) isPortrait) eqn:Eo; cbn [negb].
  - apply Bool.eqb_prop in Eo.
    destruct (lt (abs (sub requestedRatio (ratio v))) d);
      [right; split; trivial | left; trivial].
  - left; reflexivity.
Qed.

(** The loop keeps its initial best or moves to an entry that has the
    orientation of the request: entries of the other orientation are
    skipped, whatever the catalog is. *)
Lemma fold_matchStep_filter (sizes : list SoraSize) (best : SoraSize) (d : number) :
  fst (fold_left (matchStep requestedRatio isPortrait) sizes (best, d)) = best \/
  (In (fst (fold_left (matchStep requestedRatio isPortrait) sizes (best, d))) sizes /\
   sizeIsPortrait (fst (fold_left (matchStep requestedRatio isPortrait) sizes (best, d)))
     = isPortrait).
Proof.
  revert best d.
  induction sizes as [|v rest IH]; intros best d; cbn [fold_left].
  - left; reflexivity.
  - destruct (matchStep_cases best d v) as [E | [E Eo]]; rewrite E.
    + destruct (IH best d) as [H | [H1 H2]];
        [left; exact H | right; split; [right; exact H1 | exact H2]].
    + destruct (IH v (abs (sub requestedRatio (ratio v)))) as [H | [H1 H2]].
      * right. rewrite H. split; [left; reflexivity | exact Eo].
      * right. split; [right; exact H1 | exact H2].
Qed.

End Search.

(** The result of the search is the initial best or an entry of the
    orientation of the request. *)
Lemma closestMatch_filter (first : SoraSize) (sizes : list SoraSize) (w h : number) :
  closestMatch first sizes w h = first \/
  (In (closestMatch first sizes w h) sizes /\
   sizeIsPortrait (closestMatch first sizes w h) = gt h w).
Proof.
  unfold closestMatch. apply fold_matchStep_filter.
Qed.

Lemma closestMatch_range (w h : number) :
  let v := closestMatch (hd size_720x1280 VALID_SORA_SIZES) VALID_SORA_SIZES w h in
  v = size_720x1280 \/ v = size_1280x720.
Proof.
  cbn zeta. rewrite closestMatch_catalog.
  destruct (gt h w); [now left|].
  destruct (lt _ _); [now right | now left].
Qed.

Lemma mapToValidSoraSize_range (s : string) :
  mapToValidSoraSize s = "720x1280" \/ mapToValidSoraSize s = "1280x720".
Proof.
  destruct (mapToValidSoraSize_cases s) as [H | (w & h & _ & _ & _ & _ & H)].
  - now left.
  - rewrite H. destruct (closestMatch_range w h) as [E | E];
      cbn zeta in E; rewrite E; [now left | now right].
Qed.


(** Applying the negotiation twice is the same as applying it once. *)
Lemma mapToValidSoraSize_idempotent (s : string) :
  mapToValidSoraSize (mapToValidSoraSize s) = mapToValidSoraSize s.
Proof.
  destruct (mapToValidSoraSize_range s) as [E | E]; rewrite E; reflexivity.
Qed.

(** C10: for every input string, [mapToValidSoraSize] returns ['720x1280']
    or ['1280x720'].  The entries ['1024x1792'] and ['1792x1024'] are never
    returned: their stored ratios repeat those of the first two entries and
    an entry replaces the best match only on a strictly smaller difference,
    so the earliest entry of each stored ratio wins. *)
Theorem mapToValidSoraSize_only_first_two (s : string) :
  (mapToValidSoraSize s = "720x1280" \/ mapToValidSoraSize s = "1280x720")
  /\ mapToValidSoraSize s <> "1024x1792"
  /\ mapToValidSoraSize s <> "1792x1024"
  /\ ratio size_1024x1792 = ratio size_720x1280
  /\ ratio size_1792x1024 = ratio size_1280x720
  /\ (forall d : number, lt d d = false).
Proof.
  pose proof (mapToValidSoraSize_range s) as H.
  split; [exact H|].
  split; [destruct H as [E | E]; rewrite E; discriminate|].
  split; [destruct H as [E | E]; rewrite E; discriminate|].
  split; [reflexivity|]. split; [reflexivity|]. exact lt_irrefl.
Qed.

(** C7, evaluated at the catalog members it fails on: the negotiation
    sends ['1024x1792'] to ['720x1280'] and ['1792x1024'] to ['1280x720'],
    so these two valid sizes do not map to themselves.  (Idempotence itself
    holds, see [mapToValidSoraSize_idempotent].) *)
Theorem catalog_members_not_fixed :
  In "1024x1792" catalogNames /\ In "1792x1024" catalogNames
  /\ mapToValidSoraSize "1024x1792" = "720x1280"
  /\ mapToValidSoraSize "1792x1024" = "1280x720"
  /\ mapToValidSoraSize "1024x1792" <> "1024x1792"
  /\ mapToValidSoraSize "1792x1024" <> "1792x1024".
Proof.
  assert (E1 : mapToValidSoraSize "1024x1792" = "720x1280") by (vm_compute; reflexivity).
  assert (E2 : mapToValidSoraSize "1792x1024" = "1280x720") by (vm_compute; reflexivity).
  refine (conj _ (conj _ (conj E1 (conj E2 (conj _ _))))).
  - cbn. tauto.
  - cbn. tauto.
  - rewrite E1. discriminate.
  - rewrite E2. discriminate.
Qed.

(** C8, evaluated on the catalog constant: it has four entries, two of
    each orientation, but the stored ratio of the third and of the fourth
    entry is not [width / height] ([1024/1792] is [4/7], not [9/16];
    [1792/1024] is [7/4], not [16/9]), and the stored ratios take two
    values only. *)
Theorem catalog_ratio_fields :
  List.length VALID_SORA_SIZES = 4%nat
  /\ List.length (filter sizeIsPortrait VALID_SORA_SIZES) = 2%nat
  /\ List.length (filter (fun v => negb (sizeIsPortrait v)) VALID_SORA_SIZES) = 2%nat
  /\ ratio size_720x1280 = actualRatio size_720x1280
  /\ ratio size_1280x720 = actualRatio size_1280x720
  /\ strict_eq (ratio size_1024x1792) (actualRatio size_1024x1792) = false
  /\ strict_eq (ratio size_1792x1024) (actualRatio size_1792x1024) = false
  /\ actualRatio size_1024x1792 = div (of_Z 4) (of_Z 7)
  /\ actualRatio size_1792x1024 = div (of_Z 7) (of_Z 4)
  /\ ratio size_1024x1792 = ratio size_720x1280
  /\ ratio size_1792x1024 = ratio size_1280x720.
Proof.
  repeat split; vm_compute; reflexivity.
Qed.






(* ================================================================== *)
(** ** Properties of the creation request *)
(* ================================================================== *)

Lemma textValues_app (key : string) (f g : Form) :
  textValues key (f ++ g) = textValues key f ++ textValues key g.
Proof.
  induction f as [|p f IH]; cbn [app textValues]; [reflexivity|].
  destruct p as [k v | k pth fn ct len]; [|exact IH].
  destruct (String.eqb k key); cbn [app]; rewrite IH; reflexivity.
Qed.

Lemma formText_size (a : CreateArgs) :
  textValues "size" (formText a)
  = [mapToValidSoraSize (orDefault (argSize a) "720x1280")].
Proof.
  unfold formText.
  generalize (mapToValidSoraSize (orDefault (argSize a) "720x1280")).
  generalize (orDefault (argModel a) "sora-2") (orDefault (argPrompt a) "")
    (secondsToString (argSeconds a)).
  intros m p t sz.
  destruct (truthyString (argPrompt a)), (secondsTruthy (argSeconds a));
    reflexivity.
Qed.


(** [formImage] leaves the state alone and adds no text part. *)
Lemma formImage_spec (w : World) (a : CreateArgs) (st : State) :
  snd (formImage w a st) = st /\
  forall image, fst (formImage w a st) = Ok image ->
    forall key, textValues key image = [].
Proof.
  unfold formImage.
  destruct (argImagePath a) as [[|c r]|]; cbn.
  - split; [reflexivity|]. intros image E key. injection E as <-. reflexivity.
  - destruct (statSync w (String c r)) as [e | size]; cbn.
    + split; [reflexivity|]. intros image E. discriminate E.
    + split; [reflexivity|]. intros image E key. injection E as <-. reflexivity.
  - split; [reflexivity|]. intros image E key. injection E as <-. reflexivity.
Qed.



(* ================================================================== *)
(** ** Properties of the status poller *)
(* ================================================================== *)

(** Unfolds the handler combinators so that a run becomes a nest of
    matches on the answers of the world. *)
Ltac unfold_handler :=
  cbv beta iota zeta delta
    [run initial tryCatch bind ret throw emit respond unlink unlinkPath when now
     backoff awaitFetch parseJson readErrorMessage
     setProcessedImagePath setTempImagePath
     getProcessedImagePath getTempImagePath];
  cbn [fst snd events ticks processedImagePath tempImagePath].

Ltac simpl_state :=
  cbn [fst snd events ticks processedImagePath tempImagePath].

Lemma serverError_not_ok (r : Response) :
  isServerError (status r) = true -> ok r = false.
Proof.
  unfold isServerError, ok. intros H.
  apply Bool.orb_true_iff in H. destruct H as [H | H].
  - apply Bool.orb_true_iff in H.
    destruct H as [H | H]; apply N.eqb_eq in H; rewrite H; reflexivity.
  - apply N.eqb_eq in H; rewrite H; reflexivity.
Qed.

(** One attempt that meets HTTP 500, 502 or 503 with a JSON body other
    than [null], before the last attempt: it sleeps and asks for the next
    turn. *)
Lemma statusAttempt_transient (w : World) (id : string) (attempt : nat)
    (r : Response) (v : Json) (st : State) :
  openaiStatus w id attempt = FetchResolves r ->
  isServerError (status r) = true ->
  bodyJson r = Parsed v -> v <> JNull ->
  (attempt <? maxRetries)%nat = true ->
  statusAttempt w id attempt st =
  (Ok (Continue (Some (serverError r attempt))),
   mkState (events st ++ [EvStatus id; EvSleep (1000 * N.of_nat attempt)])
     (ticks st) (processedImagePath st) (tempImagePath st)).
Proof.
  intros Hr Hs Hb Hv Ha.
  unfold statusAttempt. unfold_handler.
  rewrite Hr, (serverError_not_ok r Hs), Hb, Hs, Ha. cbn [negb].
  destruct v; simpl_state; try (now rewrite <- app_assoc);
    contradiction Hv; reflexivity.
Qed.

(** The last attempt, when it meets a response that is not a success:
    whatever the status and the body are, the reply is the failure with
    [retryable: true]. *)
Lemma statusAttempt_last_failure (w : World) (id : string)
    (r : Response) (st : State) :
  openaiStatus w id maxRetries = FetchResolves r ->
  ok r = false ->
  exists err,
    statusAttempt w id maxRetries st =
    (Ok Return,
     mkState (events st ++ [EvStatus id; EvRespond 500 (allAttemptsFailed err)])
       (ticks st) (processedImagePath st) (tempImagePath st)).
Proof.
  intros Hr Hok.
  unfold statusAttempt. unfold_handler.
  rewrite Hr, Hok. cbn [negb].
  change (maxRetries <? maxRetries)%nat with false.
  change (maxRetries =? maxRetries)%nat with true.
  cbn [andb].
  destruct (bodyJson r) as [v | e].
  - destruct (isServerError (status r)).
    + destruct v; eexists; simpl_state; rewrite <- app_assoc; reflexivity.
    + eexists; simpl_state; rewrite <- app_assoc; reflexivity.
  - eexists; simpl_state; rewrite <- app_assoc; reflexivity.
Qed.

(** An attempt before the last that meets a response which is neither a
    success nor HTTP 500, 502 or 503: no sleep, no reply, next turn. *)
Lemma statusAttempt_other_failure (w : World) (id : string) (attempt : nat)
    (r : Response) (st : State) :
  openaiStatus w id attempt = FetchResolves r ->
  ok r = false -> isServerError (status r) = false ->
  (attempt <? maxRetries)%nat = true ->
  exists err,
    statusAttempt w id attempt st =
    (Ok (Continue (Some err)),
     mkState (events st ++ [EvStatus id])
       (ticks st) (processedImagePath st) (tempImagePath st)).
Proof.
  intros Hr Hok Hs Ha.
  assert (Hne : (attempt =? maxRetries)%nat = false).
  { apply Nat.ltb_lt in Ha. apply Nat.eqb_neq. lia. }
  unfold statusAttempt. unfold_handler.
  rewrite Hr, Hok, Hs, Ha, Hne. cbn [negb andb].
  destruct (bodyJson r) as [v | msg]; eexists; reflexivity.
Qed.

(** The retry loop when every attempt meets HTTP 500, 502 or 503 with a
    JSON error body: three requests, sleeps of one and two seconds between
    them, then the failure with [retryable: true]. *)
Lemma status_transient_json_backoff (w : World) (id : string)
    (r1 r2 r3 : Response) (v1 v2 : Json) :
  hasOpenAI w = true ->
  openaiStatus w id 1 = FetchResolves r1 ->
  openaiStatus w id 2 = FetchResolves r2 ->
  openaiStatus w id 3 = FetchResolves r3 ->
  isServerError (status r1) = true -> bodyJson r1 = Parsed v1 -> v1 <> JNull ->
  isServerError (status r2) = true -> bodyJson r2 = Parsed v2 -> v2 <> JNull ->
  isServerError (status r3) = true ->
  exists err,
    run (status_handler w id) =
    [EvStatus id; EvSleep 1000; EvStatus id; EvSleep 2000; EvStatus id;
     EvRespond 500 (allAttemptsFailed err)].
Proof.
  intros Hc H1 H2 H3 S1 B1 N1 S2 B2 N2 S3.
  unfold run, status_handler. rewrite Hc. cbn [negb seq maxRetries statusLoop].
  unfold bind at 1.
  rewrite (statusAttempt_transient w id 1 r1 v1 initial H1 S1 B1 N1 eq_refl).
  unfold bind at 1.
  rewrite (statusAttempt_transient w id 2 r2 v2 _ H2 S2 B2 N2 eq_refl).
  unfold bind at 1.
  destruct (statusAttempt_last_failure w id r3
              (mkState ((events initial ++ [EvStatus id; EvSleep (1000 * N.of_nat 1)])
                          ++ [EvStatus id; EvSleep (1000 * N.of_nat 2)])
                 (ticks initial) (processedImagePath initial) (tempImagePath initial))
              H3 (serverError_not_ok r3 S3)) as [err E].
  cbn [events ticks processedImagePath tempImagePath] in E |- *.
  change maxRetries with 3%nat in E. rewrite E.
  exists err. reflexivity.
Qed.

(** The retry loop when two answers of HTTP 500, 502 or 503 with a JSON
    error body are followed by a success: the parsed body is returned
    after three requests and sleeps of one and two seconds. *)
Lemma status_recovers_after_backoff (w : World) (id : string)
    (r1 r2 r3 : Response) (v1 v2 json : Json) :
  hasOpenAI w = true ->
  openaiStatus w id 1 = FetchResolves r1 ->
  openaiStatus w id 2 = FetchResolves r2 ->
  openaiStatus w id 3 = FetchResolves r3 ->
  isServerError (status r1) = true -> bodyJson r1 = Parsed v1 -> v1 <> JNull ->
  isServerError (status r2) = true -> bodyJson r2 = Parsed v2 -> v2 <> JNull ->
  ok r3 = true -> bodyJson r3 = Parsed json ->
  run (status_handler w id) =
  [EvStatus id; EvSleep 1000; EvStatus id; EvSleep 2000; EvStatus id;
   EvRespond 200 (PJson json)].
Proof.
  intros Hc H1 H2 H3 S1 B1 N1 S2 B2 N2 O3 B3.
  unfold run, status_handler. rewrite Hc. cbn [negb seq maxRetries statusLoop].
  unfold bind at 1.
  rewrite (statusAttempt_transient w id 1 r1 v1 initial H1 S1 B1 N1 eq_refl).
  unfold bind at 1.
  rewrite (statusAttempt_transient w id 2 r2 v2 _ H2 S2 B2 N2 eq_refl).
  unfold bind at 1, statusAttempt. unfold_handler.
  rewrite H3, O3, B3. reflexivity.
Qed.

(** The retry loop when every attempt meets a response that is neither a
    success nor HTTP 500, 502 or 503: the request is repeated at once, three
    times in all, and the reply carries [retryable: true]. *)
Lemma status_other_failure_retried (w : World) (id : string)
    (r1 r2 r3 : Response) :
  hasOpenAI w = true ->
  openaiStatus w id 1 = FetchResolves r1 ->
  openaiStatus w id 2 = FetchResolves r2 ->
  openaiStatus w id 3 = FetchResolves r3 ->
  ok r1 = false -> isServerError (status r1) = false ->
  ok r2 = false -> isServerError (status r2) = false ->
  ok r3 = false ->
  exists err,
    run (status_handler w id) =
    [EvStatus id; EvStatus id; EvStatus id; EvRespond 500 (allAttemptsFailed err)].
Proof.
  intros Hc H1 H2 H3 O1 S1 O2 S2 O3.
  unfold run, status_handler. rewrite Hc. cbn [negb seq maxRetries statusLoop].
  unfold bind at 1.
  destruct (statusAttempt_other_failure w id 1 r1 initial H1 O1 S1 eq_refl) as [e1 E1].
  rewrite E1.
  unfold bind at 1.
  destruct (statusAttempt_other_failure w id 2 r2
              (mkState (events initial ++ [EvStatus id]) (ticks initial)
                 (processedImagePath initial) (tempImagePath initial))
              H2 O2 S2 eq_refl) as [e2 E2].
  rewrite E2.
  unfold bind at 1.
  destruct (statusAttempt_last_failure w id r3
              (mkState ((events initial ++ [EvStatus id]) ++ [EvStatus id])
                 (ticks initial) (processedImagePath initial) (tempImagePath initial))
              H3 O3) as [err E].
  cbn [events ticks processedImagePath tempImagePath] in E |- *.
  change maxRetries with 3%nat in E. rewrite E.
  exists err. reflexivity.
Qed.

(** C2, evaluated where it fails: the remote answers every attempt with
    HTTP 503 and a plain-text body.  [JSON.parse] throws before the status
    is looked at, the [catch] block neither sleeps nor replies before the
    last attempt, and so the three requests follow each other without any
    delay; the reply carries [retryable: true].  The same happens when two
    such answers are followed by a success: the parsed body is returned
    after three requests and no delay.  (With JSON error bodies the delays
    of one and two seconds are kept, see [status_transient_json_backoff]
    and [status_recovers_after_backoff].) *)
Theorem transient_text_body_skips_backoff :
  let failing :=
    run (status_handler (statusWorld true (fun _ => unavailableText)) "video_123") in
  let recovering :=
    run (status_handler
           (statusWorld true (twiceThen unavailableText completedJson)) "video_123") in
  statusRequests failing = 3%nat
  /\ sleeps failing = []
  /\ replies failing = [(500%N, allAttemptsFailed unexpectedToken)]
  /\ retryableOf (allAttemptsFailed unexpectedToken) = Some true
  /\ statusRequests recovering = 3%nat
  /\ sleeps recovering = []
  /\ replies recovering = [(200%N, PJson completedJob)].
Proof.
  cbv zeta. repeat split; vm_compute; reflexivity.
Qed.

(** C3, evaluated where it fails: the remote answers every attempt with
    HTTP 404.  The first failure does not end the call: the request is sent
    three times, without delay, and the reply carries [retryable: true]. *)
Theorem not_found_is_retried :
  let t := run (status_handler (statusWorld true (fun _ => notFoundJson)) "video_123") in
  statusRequests t = 3%nat
  /\ statusRequests t <> 1%nat
  /\ sleeps t = []
  /\ (exists err, replies t = [(500%N, allAttemptsFailed err)])
  /\ (forall code body, In (code, body) (replies t) -> retryableOf body = Some true).
Proof.
  cbv zeta.
  assert (E : run (status_handler (statusWorld true (fun _ => notFoundJson)) "video_123")
              = [EvStatus "video_123"; EvStatus "video_123"; EvStatus "video_123";
                 EvRespond 500
                   (allAttemptsFailed
                      (newError ("OpenAI video retrieve failed (404): "
                                   ++ errorText "not found")%string))])
    by (vm_compute; reflexivity).
  rewrite E. cbn [statusRequests sleeps replies].
  split; [reflexivity|]. split; [discriminate|]. split; [reflexivity|].
  split; [eexists; reflexivity|].
  intros code body [H | []]. injection H as _ <-. reflexivity.
Qed.

(* ================================================================== *)
(** ** Properties of the remix route *)
(* ================================================================== *)

(** C9, refuted as stated: without an API key the route answers 503 to a
    request whose [videoId] is missing, not 400. *)
Lemma remix_unconfigured_replies_503 :
  ~ remixValidates (statusWorld false (fun _ => unavailableJson))
      (mkRemixBody VUndefined (VString "make it rain")).
Proof.
  unfold remixValidates. intros H.
  destruct H as [payload H]; [left; reflexivity|].
  vm_compute in H. discriminate H.
Qed.

(** C9, amended: when [videoId] or [prompt] is missing (or otherwise
    falsy) the route sends no request to the remote service; its only
    effect is one reply, 503 when no API key is configured (the guard is
    checked first) and the 400 validation error otherwise. *)
Theorem remix_missing_argument_no_request (w : World) (body : RemixBody) :
  truthy (bodyVideoId body) = false \/ truthy (bodyPrompt body) = false ->
  run (remix w body) =
    [if hasOpenAI w
     then EvRespond 400
            (PError "videoId and prompt are required for remix." None None None)
     else EvRespond 503 notConfigured]
  /\ remixRequests (run (remix w body)) = 0%nat.
Proof.
  intros H.
  assert (E : negb (truthy (bodyVideoId body)) || negb (truthy (bodyPrompt body)) = true).
  { destruct H as [H | H]; rewrite H; cbn [negb orb];
      [reflexivity | apply Bool.orb_true_r]. }
  unfold remix.
  destruct (hasOpenAI w); cbn [negb].
  - unfold_handler. rewrite E. split; reflexivity.
  - split; reflexivity.
Qed.

Lemma remix_missing_argument_no_request_witness :
  run (remix (statusWorld true (fun _ => unavailableJson))
         (mkRemixBody (VString "video_123") VUndefined)) =
    [if hasOpenAI (statusWorld true (fun _ => unavailableJson))
     then EvRespond 400
            (PError "videoId and prompt are required for remix." None None None)
     else EvRespond 503 notConfigured]
  /\ remixRequests
       (run (remix (statusWorld true (fun _ => unavailableJson))
               (mkRemixBody (VString "video_123") VUndefined))) = 0%nat.
Proof.
  apply (remix_missing_argument_no_request
           (statusWorld true (fun _ => unavailableJson))
           (mkRemixBody (VString "video_123") VUndefined)).
  right. reflexivity.
Defined.

(* ================================================================== *)
(** ** Paths of the temporary files *)
(* ================================================================== *)

Lemma chars_append (a b : string) :
  chars (a ++ b)%string = chars a ++ chars b.
Proof.
  unfold chars.
  induction a as [|c a IH]; cbn [append list_ascii_of_string app];
    [reflexivity | now rewrite IH].
Qed.

Lemma length_append (a b : string) :
  String.length (a ++ b)%string = (String.length a + String.length b)%nat.
Proof.
  induction a as [|c a IH]; cbn [append String.length Nat.add];
    [reflexivity | now rewrite IH].
Qed.

Lemma takeWhile_Forall {A} (p : A -> bool) (l : list A) :
  Forall (fun a => p a = true) (takeWhile p l).
Proof.
  induction l as [|a l IH]; cbn; [constructor|].
  destruct (p a) eqn:E; [constructor; assumption | constructor].
Qed.

Lemma takeWhile_app_stop {A} (p : A -> bool) (l r : list A) (a : A) :
  Forall (fun x => p x = true) l -> p a = false ->
  takeWhile p (l ++ a :: r) = l.
Proof.
  intros Hl Ha. induction Hl as [|x l Hx Hl IH]; cbn.
  - now rewrite Ha.
  - now rewrite Hx, IH.
Qed.

Lemma dropWhile_head {A} (p : A -> bool) (a : A) (l : list A) :
  p a = false -> dropWhile p (a :: l) = a :: l.
Proof. intros H. cbn. now rewrite H. Qed.

Lemma basename_no_slash (p : string) :
  Forall (fun c => notSlash c = true) (chars (basename p)).
Proof.
  unfold basename, chars. rewrite list_ascii_of_string_of_list_ascii.
  apply Forall_rev. apply takeWhile_Forall.
Qed.

Lemma digits_no_slash (d : Decimal.uint) :
  Forall (fun c => notSlash c = true) (chars (NilEmpty.string_of_uint d)).
Proof.
  induction d; cbn; constructor; try reflexivity; assumption.
Qed.

Lemma ofN_no_slash (n : N) :
  Forall (fun c => notSlash c = true) (chars (ofN n)).
Proof.
  unfold ofN, NilZero.string_of_uint.
  destruct (N.to_uint n) eqn:E; try apply digits_no_slash.
  cbn. constructor; [reflexivity | constructor].
Qed.

(** Base name of a path made of a directory, a separator and one plain,
    non-empty segment. *)
Lemma basename_join (dir segment : list ascii) :
  segment <> [] ->
  Forall (fun c => notSlash c = true) segment ->
  basename (string_of_list_ascii (dir ++ "/"%char :: segment))
  = string_of_list_ascii segment.
Proof.
  intros Hne Hs.
  unfold basename, chars. rewrite list_ascii_of_string_of_list_ascii.
  rewrite rev_app_distr. cbn [rev]. rewrite <- app_assoc. cbn [app].
  assert (Hr : Forall (fun c => notSlash c = true) (rev segment))
    by (apply Forall_rev; exact Hs).
  destruct (rev segment) as [|c cs] eqn:E.
  - exfalso. apply Hne. rewrite <- (rev_involutive segment), E. reflexivity.
  - cbn [app]. rewrite dropWhile_head.
    + change (c :: cs ++ "/"%char :: rev dir) with ((c :: cs) ++ "/"%char :: rev dir).
      rewrite takeWhile_app_stop; [| exact Hr | reflexivity].
      rewrite <- E, rev_involutive. reflexivity.
    + inversion Hr as [|? ? Hc _]. unfold notSlash in Hc. unfold isSlash.
      now destruct (Ascii.eqb c "/").
Qed.

(** The resized derivative never takes the place of its source. *)
Lemma resizedPath_fresh (stamp : N) (imagePath : string) :
  resizedPath stamp imagePath <> imagePath.
Proof.
  intros E.
  assert (Hb : basename (resizedPath stamp imagePath)
               = ("resized_" ++ ofN stamp ++ "_" ++ basename imagePath)%string).
  { set (segment := ("resized_" ++ ofN stamp ++ "_" ++ basename imagePath)%string).
    assert (Hp : resizedPath stamp imagePath
                 = string_of_list_ascii (chars "uploads" ++ "/"%char :: chars segment)).
    { unfold resizedPath, joinUploads. fold segment.
      change (chars "uploads" ++ "/"%char :: chars segment)
        with (chars "uploads/" ++ chars segment).
      rewrite <- chars_append. unfold chars.
      symmetry. apply string_of_list_ascii_of_string. }
    rewrite Hp, basename_join.
    - unfold chars. apply string_of_list_ascii_of_string.
    - subst segment. rewrite chars_append.
      change (chars "resized_") with ("r"%char :: chars "esized_").
      cbn [app]. discriminate.
    - subst segment. rewrite !chars_append.
      apply Forall_app; split; [repeat constructor|].
      apply Forall_app; split; [apply ofN_no_slash|].
      apply Forall_app; split; [repeat constructor | apply basename_no_slash]. }
  rewrite E in Hb.
  apply (f_equal String.length) in Hb.
  rewrite !length_append in Hb.
  change (String.length "resized_") with 8%nat in Hb.
  change (String.length "_") with 1%nat in Hb.
  lia.
Qed.

(* ================================================================== *)
(** ** Properties of the generate route *)
(* ================================================================== *)

(** [callOpenAIVideoCreate] appends at most its request to the trace and
    leaves the rest of the state alone. *)
Lemma callOpenAIVideoCreate_frame (w : World) (a : CreateArgs) (st : State) :
  snd (callOpenAIVideoCreate w a st) =
  mkState
    (events st ++
     match fst (formImage w a st) with
     | Ok image => [EvCreate (formText a ++ image)]
     | Throw _ => []
     end)
    (ticks st) (processedImagePath st) (tempImagePath st).
Proof.
  unfold callOpenAIVideoCreate, bind.
  destruct (formImage_spec w a st) as [Hst _].
  destruct (formImage w a st) as [[image | e] st']; cbn [fst snd] in *; subst st'.
  - unfold emit, awaitFetch, throw, ret, parseJson. cbn [fst snd].
    destruct (openaiCreate w (formText a ++ image)) as [e | r];
      cbn [events ticks processedImagePath tempImagePath snd]; [reflexivity|].
    destruct (negb (ok r)); [reflexivity|].
    destruct (bodyJson r); reflexivity.
  - cbn [snd]. rewrite app_nil_r. destruct st; reflexivity.
Qed.

(** What the preparation step does once the image has been decoded. *)
Lemma prepareImage_spec (w : World) (size : option string)
    (imagePath : string) (meta : Metadata) (st : State) :
  sharpMetadata w imagePath = inr meta ->
  prepareImage w size imagePath st =
  let targetSize := mapToValidSoraSize (requestedSizeOf size meta) in
  let dst := resizedPath (dateNow w (ticks st)) imagePath in
  let resize := EvResize imagePath dst (fst (targetDimensions targetSize))
                  (snd (targetDimensions targetSize)) FitFill false in
  if dimensionsDiffer size meta then
    match sharpToFile w imagePath dst with
    | Some e =>
        (Throw e, mkState (events st ++ [resize false]) (S (ticks st))
                    (Some dst) (tempImagePath st))
    | None =>
        (Ok targetSize, mkState (events st ++ [resize true]) (S (ticks st))
                          (Some dst) (tempImagePath st))
    end
  else (Ok targetSize, mkState (events st) (ticks st) (Some imagePath)
                         (tempImagePath st)).
Proof.
  intros Hm. destruct st as [evs tk pp tp].
  unfold prepareImage, dimensionsDiffer. rewrite Hm.
  unfold_handler.
  destruct (targetDimensions (mapToValidSoraSize (requestedSizeOf size meta)))
    as [tw th].
  unfold_handler.
  destruct (strictNeq (dimensionNumber (metaWidth meta)) tw
            || strictNeq (dimensionNumber (metaHeight meta)) th).
  - unfold_handler.
    destruct (sharpToFile w imagePath (resizedPath (dateNow w tk) imagePath));
      reflexivity.
  - unfold_handler. reflexivity.
Qed.




Lemma unlinked_app (a b : list Event) :
  unlinked (a ++ b) = unlinked a ++ unlinked b.
Proof.
  induction a as [|e a IH]; cbn [app unlinked]; [reflexivity|].
  destruct e; cbn [app]; rewrite ?IH; reflexivity.
Qed.

(** One case split of a handler run: on the outcome of the creation call,
    else on an innermost scrutinee. *)
Ltac case_step :=
  match goal with
  | |- context [callOpenAIVideoCreate ?w ?a ?st] =>
      let F := fresh "F" in
      pose proof (callOpenAIVideoCreate_frame w a st) as F;
      destruct (callOpenAIVideoCreate w a st) as [[? | ?] ?];
      cbn [snd] in F; subst
  | |- context [match ?x with _ => _ end] =>
      lazymatch x with
      | context [match _ with _ => _ end] => fail
      | _ => destruct x eqn:?
      end
  end; unfold_handler.

(** Closes a case in which a guard holds of a variable that is [null]. *)
Ltac absurd_case :=
  match goal with
  | H : _ = true |- _ => cbn [truthyString andb] in H; discriminate H
  end.






(** The preparation step when the image cannot be decoded. *)
Lemma prepareImage_throws (w : World) (size : option string)
    (imagePath : string) (e : Exn) (st : State) :
  sharpMetadata w imagePath = inl e ->
  prepareImage w size imagePath st = (Throw e, st).
Proof.
  intros Hm. unfold prepareImage. rewrite Hm. reflexivity.
Qed.

Lemma optStringNeq_same (p : string) : optStringNeq (Some p) (Some p) = false.
Proof. unfold optStringNeq. now rewrite String.eqb_refl. Qed.

Lemma optStringNeq_resized (k : N) (p : string) :
  optStringNeq (Some (resizedPath k p)) (Some p) = true.
Proof.
  unfold optStringNeq. destruct (String.eqb_spec (resizedPath k p) p) as [E | E];
    [exfalso; exact (resizedPath_fresh k p E) | reflexivity].
Qed.

Lemma truthy_resized (k : N) (p : string) :
  truthyString (Some (resizedPath k p)) = true.
Proof. reflexivity. Qed.

Lemma truthy_fetched (k : N) (ext : string) :
  truthyString (Some (fetchedPath k ext)) = true.
Proof. reflexivity. Qed.

(** Case split on the outcome of the preparation step. *)
Ltac prepare_step :=
  match goal with
  | |- context [prepareImage ?w ?size ?p ?st] =>
      let Hm := fresh "Hm" in
      destruct (sharpMetadata w p) eqn:Hm;
      [ rewrite (prepareImage_throws w size p _ st Hm)
      | rewrite (prepareImage_spec w size p _ st Hm); cbv zeta ]
  end.

(** One step of the case analysis of a generate run: settle the guards
    that are known, then reduce or split. *)
Ltac cleanup_step :=
  rewrite ?optStringNeq_same, ?optStringNeq_resized, ?truthy_resized,
    ?truthy_fetched, ?Bool.andb_false_r, ?Bool.andb_true_r;
  try change (truthyString None) with false;
  try match goal with H : truthyString _ = true |- _ => rewrite !H end;
  cbn [andb negb];
  first [ progress unfold_handler | prepare_step | case_step ].

(** No path is unlinked twice: the resized path differs from its source. *)
Ltac solve_nodup :=
  repeat constructor; cbn [In]; intuition idtac;
  match goal with
  | H : resizedPath _ _ = _ |- _ => exact (resizedPath_fresh _ _ H)
  end.

(** Closes a leaf of the case analysis, where the trace is explicit. *)
Ltac finish_cleanup Hf :=
  unfold cleanedUp, temporaryFiles; rewrite Hf;
  eexists _, _, _; split; [reflexivity|];
  cbn [app replies unlinked written];
  split; [reflexivity|];
  split; [solve_nodup
         | intros x Hx; cbn [In app unlinked written] in *; intuition idtac].

(** X8: past the configuration guard, every exit path of the upload route
    unlinks each temporary file of the call once, before its reply. *)
Lemma generate_cleans_up (w : World) (req : GenerateRequest) :
  hasOpenAI w = true ->
  (forall f, reqFile req = Some f -> filePath f <> "") ->
  cleanedUp req (run (generate w req)).
Proof.
  intros Hc Hp. unfold run, generate.
  rewrite Hc. cbn [negb].
  destruct (reqFile req) as [file|] eqn:Hf.
  2:{ unfold_handler. finish_cleanup Hf. }
  specialize (Hp file eq_refl).
  cbn [filePathOf option_map].
  destruct (filePath file) as [|c path] eqn:Ef; [contradiction Hp; reflexivity|].
  rewrite <- Ef in *. clear Hp.
  assert (Ht : truthyString (Some (filePath file)) = true) by (rewrite Ef; reflexivity).
  unfold_handler.
  destruct (sharpMetadata w (filePath file)) as [e | meta] eqn:Hm.
  - rewrite (prepareImage_throws _ _ _ _ _ Hm). unfold_handler. rewrite Ht.
    unfold_handler. cbn [truthyString andb]. unfold_handler.
    finish_cleanup Hf.
  - rewrite (prepareImage_spec _ _ _ _ _ Hm). cbv zeta.
    destruct (dimensionsDiffer (reqSize req) meta).
    + destruct (sharpToFile w _ _) as [e|]; unfold_handler; rewrite ?Ht;
        repeat cleanup_step; finish_cleanup Hf.
    + unfold_handler; rewrite ?Ht; repeat cleanup_step; finish_cleanup Hf.
Qed.


Lemma generate_cleans_up_witness :
  cleanedUp uploadRequest (run (generate (generateWorld true 1080 1920) uploadRequest)).
Proof.
  apply (generate_cleans_up (generateWorld true 1080 1920) uploadRequest).
  - reflexivity.
  - intros f H. injection H as <-. discriminate.
Defined.


(** C5, evaluated where it fails: no API key is configured and the request
    carries an upload.  multer has stored the upload before the handler
    runs; the handler replies 503 from inside its [try] block and unlinks
    nothing, in the upload-only route and in the later revision alike.
    (Past that guard every exit path cleans up, see [generate_cleans_up]
    and [generateFromUrl_cleans_up].) *)
Theorem unconfigured_upload_is_left_behind :
  let w := generateWorld false 1080 1920 in
  reqFile uploadRequest = Some sampleUpload
  /\ run (generate w uploadRequest) = [EvRespond 503 notConfigured]
  /\ run (generateFromUrl w uploadRequest) = [EvRespond 503 notConfigured]
  /\ ~ In (filePath sampleUpload) (unlinked (run (generate w uploadRequest)))
  /\ ~ In (filePath sampleUpload) (unlinked (run (generateFromUrl w uploadRequest))).
Proof.
  cbv zeta.
  assert (E1 : run (generate (generateWorld false 1080 1920) uploadRequest)
               = [EvRespond 503 notConfigured]) by reflexivity.
  assert (E2 : run (generateFromUrl (generateWorld false 1080 1920) uploadRequest)
               = [EvRespond 503 notConfigured]) by reflexivity.
  rewrite E1, E2. cbn [unlinked In].
  repeat split; auto.
Qed.

(* ================================================================== *)
(** ** The status poller as a function of its three answers *)
(* ================================================================== *)

(** An attempt before the last: an accepted answer is replied at once;
    any other answer asks for the next turn, after a sleep when the answer
    is one the poller backs off on. *)
Lemma statusAttempt_early (w : World) (id : string) (attempt : nat) (st : State) :
  (attempt <? maxRetries)%nat = true ->
  match successBody (openaiStatus w id attempt) with
  | Some json =>
      statusAttempt w id attempt st =
      (Ok Return, appendEvents st [EvStatus id; EvRespond 200 (PJson json)])
  | None =>
      exists err,
        statusAttempt w id attempt st =
        (Ok (Continue (Some err)),
         appendEvents st (EvStatus id :: backoffEvents attempt (openaiStatus w id attempt)))
  end.
Proof.
  intros Ha.
  assert (Hne : (attempt =? maxRetries)%nat = false).
  { apply Nat.ltb_lt in Ha. apply Nat.eqb_neq. lia. }
  destruct st as [evs tk pp tp].
  unfold statusAttempt, successBody, backoffEvents, backsOff, appendEvents.
  unfold_handler. rewrite Ha, Hne. cbn [andb].
  destruct (openaiStatus w id attempt) as [e | r]; unfold_handler.
  - destruct (isNetworkCode (errCode e)); unfold_handler; eexists;
      rewrite <- ?app_assoc; reflexivity.
  - destruct (ok r) eqn:Hok; cbn [negb].
    + assert (Hs : isServerError (status r) = false).
      { destruct (isServerError (status r)) eqn:E; [|reflexivity].
        rewrite (serverError_not_ok r E) in Hok. discriminate Hok. }
      destruct (bodyJson r) as [v | msg]; unfold_handler.
      * rewrite <- app_assoc. reflexivity.
      * eexists. rewrite Hs. reflexivity.
    + destruct (bodyJson r) as [v | msg]; unfold_handler.
      * destruct (isServerError (status r)); cbn [andb]; unfold_handler.
        -- destruct v; unfold_handler; eexists; rewrite <- ?app_assoc; reflexivity.
        -- eexists; reflexivity.
      * rewrite Bool.andb_false_r. eexists; reflexivity.
Qed.

(** The last attempt always replies: the accepted body, or the failure
    built from its own error. *)
Lemma statusAttempt_final (w : World) (id : string) (st : State) :
  statusAttempt w id maxRetries st =
  (Ok Return,
   appendEvents st
     [EvStatus id;
      match successBody (openaiStatus w id maxRetries) with
      | Some json => EvRespond 200 (PJson json)
      | None => EvRespond 500 (allAttemptsFailed (lastFailure (openaiStatus w id maxRetries)))
      end]).
Proof.
  destruct st as [evs tk pp tp].
  unfold statusAttempt, successBody, lastFailure, appendEvents.
  unfold_handler.
  change (maxRetries <? maxRetries)%nat with false.
  change (maxRetries =? maxRetries)%nat with true.
  cbn [andb].
  destruct (openaiStatus w id maxRetries) as [e | r]; unfold_handler.
  - rewrite <- app_assoc. reflexivity.
  - destruct (ok r) eqn:Hok; cbn [negb].
    + destruct (bodyJson r) as [v | msg]; unfold_handler;
        rewrite <- app_assoc; reflexivity.
    + destruct (bodyJson r) as [v | msg]; unfold_handler.
      * destruct (isServerError (status r)); unfold_handler.
        -- destruct v; unfold_handler; rewrite <- app_assoc; reflexivity.
        -- destruct v; rewrite <- app_assoc; reflexivity.
      * rewrite <- app_assoc; reflexivity.
Qed.

Lemma status_handler_trace (w : World) (id : string) :
  hasOpenAI w = true ->
  run (status_handler w id)
  = pollTrace id (openaiStatus w id 1) (openaiStatus w id 2) (openaiStatus w id 3).
Proof.
  intros Hc.
  unfold run, status_handler, pollTrace. rewrite Hc.
  cbn [negb seq maxRetries statusLoop].
  unfold bind at 1.
  pose proof (statusAttempt_early w id 1 initial eq_refl) as H1.
  destruct (successBody (openaiStatus w id 1)) as [j1|].
  { rewrite H1. reflexivity. }
  destruct H1 as [e1 H1]. rewrite H1.
  unfold bind at 1.
  pose proof (statusAttempt_early w id 2
                (appendEvents initial
                   (EvStatus id :: backoffEvents 1 (openaiStatus w id 1))) eq_refl) as H2.
  destruct (successBody (openaiStatus w id 2)) as [j2|].
  { rewrite H2. cbn [ret snd appendEvents events initial app].
    rewrite <- ?app_assoc. reflexivity. }
  destruct H2 as [e2 H2]. rewrite H2.
  unfold bind at 1.
  pose proof (statusAttempt_final w id
                (appendEvents
                   (appendEvents initial
                      (EvStatus id :: backoffEvents 1 (openaiStatus w id 1)))
                   (EvStatus id :: backoffEvents 2 (openaiStatus w id 2)))) as H3.
  change maxRetries with 3%nat in H3. rewrite H3.
  cbn [ret snd appendEvents events initial app].
  rewrite <- !app_assoc. reflexivity.
Qed.

Lemma successBody_no_backoff (o : FetchOutcome) (json : Json) :
  successBody o = Some json -> backsOff o = false.
Proof.
  destruct o as [e | r]; cbn; [discriminate|].
  destruct (ok r) eqn:Hok; [|discriminate]. intros _.
  destruct (isServerError (status r)) eqn:E; [|reflexivity].
  rewrite (serverError_not_ok r E) in Hok. discriminate Hok.
Qed.

Lemma pollTrace_replies (id : string) (o1 o2 o3 : FetchOutcome) :
  replies (pollTrace id o1 o2 o3) =
  match successBody o1, successBody o2, successBody o3 with
  | Some json, _, _ => [(200%N, PJson json)]
  | None, Some json, _ => [(200%N, PJson json)]
  | None, None, Some json => [(200%N, PJson json)]
  | None, None, None => [(500%N, allAttemptsFailed (lastFailure o3))]
  end.
Proof.
  unfold pollTrace, backoffEvents.
  destruct (successBody o1); [reflexivity|].
  destruct (backsOff o1); (destruct (successBody o2); [reflexivity|]);
    destruct (backsOff o2); destruct (successBody o3); reflexivity.
Qed.

Lemma pollTrace_requests (id : string) (o1 o2 o3 : FetchOutcome) :
  statusRequests (pollTrace id o1 o2 o3) =
  match successBody o1, successBody o2 with
  | Some _, _ => 1%nat
  | None, Some _ => 2%nat
  | None, None => 3%nat
  end.
Proof.
  unfold pollTrace, backoffEvents.
  destruct (successBody o1); [reflexivity|].
  destruct (backsOff o1); (destruct (successBody o2); [reflexivity|]);
    destruct (backsOff o2); destruct (successBody o3); reflexivity.
Qed.

Lemma pollTrace_sleeps (id : string) (o1 o2 o3 : FetchOutcome) :
  sleeps (pollTrace id o1 o2 o3) =
  (if backsOff o1 then [1000%N] else [])
  ++ match successBody o1 with
     | Some _ => []
     | None => if backsOff o2 then [2000%N] else []
     end.
Proof.
  unfold pollTrace, backoffEvents.
  change (1000 * N.of_nat 1)%N with 1000%N.
  change (1000 * N.of_nat 2)%N with 2000%N.
  destruct (successBody o1) eqn:E1.
  { rewrite (successBody_no_backoff o1 _ E1). reflexivity. }
  destruct (backsOff o1);
    (destruct (successBody o2) eqn:E2;
     [rewrite (successBody_no_backoff o2 _ E2); reflexivity|]);
    destruct (backsOff o2); destruct (successBody o3); reflexivity.
Qed.

(** X1: whatever the remote service answers, a call of the status route
    sends at most three status requests, sleeps at most once for one second
    and once for two seconds, and ends with its only reply. *)
Theorem status_poll_is_bounded (w : World) (id : string) :
  let t := run (status_handler w id) in
  (statusRequests t <= 3)%nat
  /\ (sleeps t = [] \/ sleeps t = [1000%N] \/ sleeps t = [2000%N]
      \/ sleeps t = [1000%N; 2000%N])
  /\ exists before code body,
       t = before ++ [EvRespond code body] /\ replies before = [].
Proof.
  cbv zeta.
  destruct (hasOpenAI w) eqn:Hc.
  2:{ unfold run, status_handler. rewrite Hc. cbn.
      split; [lia|]. split; [left; reflexivity|].
      exists [], 503%N, notConfigured. split; reflexivity. }
  rewrite (status_handler_trace w id Hc). unfold pollTrace, backoffEvents.
  change (1000 * N.of_nat 1)%N with 1000%N.
  change (1000 * N.of_nat 2)%N with 2000%N.
  destruct (successBody (openaiStatus w id 1)) as [j1|];
    [| destruct (backsOff (openaiStatus w id 1));
       (destruct (successBody (openaiStatus w id 2)) as [j2|];
        [| destruct (backsOff (openaiStatus w id 2));
           destruct (successBody (openaiStatus w id 3)) as [j3|]])];
    cbn [app statusRequests sleeps];
    (split; [lia|]); (split; [tauto|]);
    match goal with
    | |- exists b c p, ?l = _ /\ _ => exists (removelast l)
    end; cbn [removelast]; eexists _, _; split; reflexivity.
Qed.

(** X2: every reply of the status route is the 503 of the configuration
    guard, the parsed body of a 2xx answer to one of the three attempts
    with status 200, or the 500 failure built from the error of the third
    attempt, which carries [retryable: true].  The fallback reply placed
    after the loop is never sent. *)
Theorem status_reply_is_never_the_fallback (w : World) (id : string) :
  let t := run (status_handler w id) in
  (forall code body, In (code, body) (replies t) ->
     (hasOpenAI w = false /\ code = 503%N /\ body = notConfigured)
     \/ (code = 200%N /\ exists k json,
           In k [1; 2; 3]%nat
           /\ successBody (openaiStatus w id k) = Some json /\ body = PJson json)
     \/ (code = 500%N
         /\ body = allAttemptsFailed (lastFailure (openaiStatus w id 3))
         /\ retryableOf body = Some true))
  /\ (forall code lastError, ~ In (code, fallbackFailure lastError) (replies t)).
Proof.
  cbv zeta.
  assert (H : forall code body,
             In (code, body) (replies (run (status_handler w id))) ->
             (hasOpenAI w = false /\ code = 503%N /\ body = notConfigured)
             \/ (code = 200%N /\ exists k json,
                   In k [1; 2; 3]%nat
                   /\ successBody (openaiStatus w id k) = Some json /\ body = PJson json)
             \/ (code = 500%N
                 /\ body = allAttemptsFailed (lastFailure (openaiStatus w id 3))
                 /\ retryableOf body = Some true)).
  { intros code body.
    destruct (hasOpenAI w) eqn:Hc.
    - rewrite (status_handler_trace w id Hc), pollTrace_replies.
      destruct (successBody (openaiStatus w id 1)) as [j1|] eqn:E1.
      { intros [E | []]. injection E as <- <-. right; left.
        split; [reflexivity|]. exists 1%nat, j1. cbn [In]. auto. }
      destruct (successBody (openaiStatus w id 2)) as [j2|] eqn:E2.
      { intros [E | []]. injection E as <- <-. right; left.
        split; [reflexivity|]. exists 2%nat, j2. cbn [In]. auto. }
      destruct (successBody (openaiStatus w id 3)) as [j3|] eqn:E3.
      { intros [E | []]. injection E as <- <-. right; left.
        split; [reflexivity|]. exists 3%nat, j3. cbn [In]. auto. }
      intros [E | []]. injection E as <- <-. right; right.
      split; [reflexivity|]. split; reflexivity.
    - unfold run, status_handler. rewrite Hc. cbn.
      intros [E | []]. injection E as <- <-. left. auto. }
  split; [exact H|].
  intros code lastError Hin.
  destruct (H _ _ Hin) as [(_ & _ & E) | [(_ & k & json & _ & _ & E) | (_ & E & _)]];
    discriminate E.
Qed.

(** X3: the status route sleeps one second exactly when the answer to the
    first attempt is one it backs off on (a rejection with code
    [ECONNRESET] or [ETIMEDOUT], or HTTP 500, 502 or 503 with a JSON body
    other than [null]), and two seconds exactly when the first answer was
    not accepted and the second answer is one it backs off on.  It never
    sleeps for any other duration. *)
Theorem status_backoff_iff (w : World) (id : string) :
  hasOpenAI w = true ->
  let t := run (status_handler w id) in
  (In 1000%N (sleeps t) <-> backsOff (openaiStatus w id 1) = true)
  /\ (In 2000%N (sleeps t) <->
      successBody (openaiStatus w id 1) = None
      /\ backsOff (openaiStatus w id 2) = true)
  /\ (forall ms, In ms (sleeps t) -> ms = 1000%N \/ ms = 2000%N).
Proof.
  intros Hc. cbv zeta.
  rewrite (status_handler_trace w id Hc), pollTrace_sleeps.
  destruct (backsOff (openaiStatus w id 1));
    destruct (successBody (openaiStatus w id 1));
    try destruct (backsOff (openaiStatus w id 2)); cbn [app In];
    (split; [split; [intros H | intros H]; intuition (discriminate || auto)|]);
    (split; [split; [intros H | intros H]; intuition (discriminate || auto)|]);
    intros ms H; intuition auto.
Qed.

Lemma status_backoff_iff_witness :
  let w := statusWorld true (fun _ => unavailableJson) in
  let t := run (status_handler w "video_123") in
  (In 1000%N (sleeps t) <-> backsOff (openaiStatus w "video_123" 1) = true)
  /\ (In 2000%N (sleeps t) <->
      successBody (openaiStatus w "video_123" 1) = None
      /\ backsOff (openaiStatus w "video_123" 2) = true)
  /\ (forall ms, In ms (sleeps t) -> ms = 1000%N \/ ms = 2000%N).
Proof.
  apply (status_backoff_iff (statusWorld true (fun _ => unavailableJson)) "video_123").
  reflexivity.
Defined.

(** X4: the first attempt whose answer is a 2xx response with a JSON body
    ends the poll: that body is the reply, with status 200, and no further
    status request is sent. *)
Theorem status_first_success_ends_poll (w : World) (id : string)
    (k : nat) (json : Json) :
  hasOpenAI w = true ->
  In k [1; 2; 3]%nat ->
  (forall j, (1 <= j < k)%nat -> successBody (openaiStatus w id j) = None) ->
  successBody (openaiStatus w id k) = Some json ->
  let t := run (status_handler w id) in
  statusRequests t = k /\ replies t = [(200%N, PJson json)].
Proof.
  intros Hc Hk Hbefore Hs. cbv zeta.
  rewrite (status_handler_trace w id Hc), pollTrace_replies, pollTrace_requests.
  destruct Hk as [<- | [<- | [<- | []]]].
  - rewrite Hs. split; reflexivity.
  - rewrite (Hbefore 1%nat) by lia. rewrite Hs. split; reflexivity.
  - rewrite (Hbefore 1%nat), (Hbefore 2%nat) by lia. rewrite Hs. split; reflexivity.
Qed.

Lemma status_first_success_ends_poll_witness :
  let w := statusWorld true (twiceThen unavailableJson completedJson) in
  let t := run (status_handler w "video_123") in
  statusRequests t = 3%nat /\ replies t = [(200%N, PJson completedJob)].
Proof.
  apply (status_first_success_ends_poll
           (statusWorld true (twiceThen unavailableJson completedJson))
           "video_123" 3 completedJob).
  - reflexivity.
  - simpl. auto.
  - intros j Hj.
    assert (E : j = 1%nat \/ j = 2%nat) by lia.
    destruct E as [-> | ->]; reflexivity.
  - reflexivity.
Defined.

(** X5: when no attempt is answered by a 2xx response with a JSON body,
    three status requests are sent and the reply is the 500 failure whose
    details are the message of the error of the third attempt alone: the
    rejection itself when the third request was rejected, and the retrieve
    failure with the status and the body text when it was answered with a
    JSON object. *)
Theorem status_failure_reports_last_attempt (w : World) (id : string) :
  hasOpenAI w = true ->
  (forall k, In k [1; 2; 3]%nat -> successBody (openaiStatus w id k) = None) ->
  let t := run (status_handler w id) in
  statusRequests t = 3%nat
  /\ replies t = [(500%N, allAttemptsFailed (lastFailure (openaiStatus w id 3)))]
  /\ (forall e, openaiStatus w id 3 = FetchRejects e ->
        lastFailure (openaiStatus w id 3) = e)
  /\ (forall r fields,
        openaiStatus w id 3 = FetchResolves r -> bodyJson r = Parsed (JObject fields) ->
        message (lastFailure (openaiStatus w id 3))
        = ("OpenAI video retrieve failed (" ++ ofN (status r) ++ "): "
             ++ bodyText r)%string).
Proof.
  intros Hc Hnone. cbv zeta.
  rewrite (status_handler_trace w id Hc), pollTrace_replies, pollTrace_requests.
  rewrite !Hnone by (cbn [In]; auto).
  split; [reflexivity|]. split; [reflexivity|].
  split.
  - intros e E. rewrite E. reflexivity.
  - intros r fields E B. rewrite E. unfold lastFailure. rewrite B. reflexivity.
Qed.

Lemma status_failure_reports_last_attempt_witness :
  let w := statusWorld true (fun _ => notFoundJson) in
  let t := run (status_handler w "video_123") in
  statusRequests t = 3%nat
  /\ replies t
     = [(500%N, allAttemptsFailed (lastFailure (openaiStatus w "video_123" 3)))]
  /\ (forall e, openaiStatus w "video_123" 3 = FetchRejects e ->
        lastFailure (openaiStatus w "video_123" 3) = e)
  /\ (forall r fields,
        openaiStatus w "video_123" 3 = FetchResolves r ->
        bodyJson r = Parsed (JObject fields) ->
        message (lastFailure (openaiStatus w "video_123" 3))
        = ("OpenAI video retrieve failed (" ++ ofN (status r) ++ "): "
             ++ bodyText r)%string).
Proof.
  apply (status_failure_reports_last_attempt
           (statusWorld true (fun _ => notFoundJson)) "video_123").
  - reflexivity.
  - intros k _. reflexivity.
Defined.

(* ================================================================== *)
(** ** The creation request of the generate route *)
(* ================================================================== *)

Lemma createForms_app (a b : list Event) :
  createForms (a ++ b) = createForms a ++ createForms b.
Proof.
  induction a as [|e a IH]; cbn [app createForms]; [reflexivity|].
  destruct e; cbn [app]; rewrite ?IH; reflexivity.
Qed.

Lemma fileParts_app (f g : Form) :
  fileParts (f ++ g) = fileParts f ++ fileParts g.
Proof.
  induction f as [|p f IH]; cbn [app fileParts]; [reflexivity|].
  destruct p; cbn [app]; rewrite ?IH; reflexivity.
Qed.

(** Once the preparation step has succeeded, the upload route builds at
    most the one creation request of [callOpenAIVideoCreate]. *)
Lemma generate_after_prepare (w : World) (req : GenerateRequest)
    (file : UploadedFile) (targetSize : string) (st1 : State) :
  hasOpenAI w = true -> reqFile req = Some file ->
  prepareImage w (reqSize req) (filePath file) initial = (Ok targetSize, st1) ->
  createForms (run (generate w req)) =
  createForms (events st1) ++
  match fst (formImage w (uploadArgs req file targetSize (processedImagePath st1)) st1) with
  | Ok image =>
      [formText (uploadArgs req file targetSize (processedImagePath st1)) ++ image]
  | Throw _ => []
  end.
Proof.
  intros Hc Hf Hp.
  unfold run, generate, uploadArgs. rewrite Hc, Hf. cbn [negb filePathOf option_map].
  unfold initial in Hp. unfold_handler. rewrite Hp. destruct st1 as [ev1 tk1 pp1 tp1]. unfold_handler.
  repeat case_step; try absurd_case;
    rewrite <- ?app_assoc; rewrite ?createForms_app; cbn [app createForms];
    rewrite ?app_nil_r; reflexivity.
Qed.

(** When the preparation step throws, no creation request is built. *)
Lemma generate_prepare_fails (w : World) (req : GenerateRequest)
    (file : UploadedFile) (e : Exn) (st1 : State) :
  hasOpenAI w = true -> reqFile req = Some file ->
  prepareImage w (reqSize req) (filePath file) initial = (Throw e, st1) ->
  createForms (run (generate w req)) = createForms (events st1).
Proof.
  intros Hc Hf Hp.
  unfold run, generate. rewrite Hc, Hf. cbn [negb filePathOf option_map].
  unfold initial in Hp. unfold_handler. rewrite Hp. destruct st1 as [ev1 tk1 pp1 tp1]. unfold_handler.
  repeat case_step; try absurd_case;
    rewrite <- ?app_assoc; rewrite ?createForms_app; cbn [app createForms];
    rewrite ?app_nil_r; reflexivity.
Qed.

Lemma prepareImage_initial (w : World) (req : GenerateRequest) (file : UploadedFile)
    (meta : Metadata) :
  sharpMetadata w (filePath file) = inr meta ->
  (exists e st1,
     prepareImage w (reqSize req) (filePath file) initial = (Throw e, st1)
     /\ createForms (events st1) = []
     /\ dimensionsDiffer (reqSize req) meta = true
     /\ sharpToFile w (filePath file) (resizedPath (dateNow w 0) (filePath file)) = Some e)
  \/ (exists st1,
        prepareImage w (reqSize req) (filePath file) initial
        = (Ok (mapToValidSoraSize (requestedSizeOf (reqSize req) meta)), st1)
        /\ createForms (events st1) = []
        /\ processedImagePath st1 = Some (sentImage w req file meta)
        /\ (dimensionsDiffer (reqSize req) meta = true ->
            sharpToFile w (filePath file) (resizedPath (dateNow w 0) (filePath file))
            = None)).
Proof.
  intros Hm.
  rewrite (prepareImage_spec w (reqSize req) (filePath file) meta initial Hm).
  cbv zeta. unfold sentImage. change (ticks initial) with 0%nat.
  destruct (dimensionsDiffer (reqSize req) meta).
  - destruct (sharpToFile w (filePath file)
                (resizedPath (dateNow w 0) (filePath file))) as [e|].
    + left. eexists _, _. repeat split; reflexivity.
    + right. eexists. repeat split; reflexivity.
  - right. eexists. split; [reflexivity|]. split; [reflexivity|].
    split; [reflexivity | discriminate].
Qed.

Lemma fileParts_formText (a : CreateArgs) : fileParts (formText a) = [].
Proof.
  unfold formText.
  destruct (truthyString (argPrompt a)); destruct (secondsTruthy (argSeconds a));
    reflexivity.
Qed.

Lemma created_form_parts (w : World) (a : CreateArgs) (st : State)
    (image : Form) (c : ascii) (p : string) :
  fst (formImage w a st) = Ok image ->
  argImagePath a = Some (String c p) ->
  textValues "size" (formText a ++ image)
  = [mapToValidSoraSize (orDefault (argSize a) "720x1280")]
  /\ exists size,
       statSync w (String c p) = inr size
       /\ fileParts (formText a ++ image)
          = [FilePart "input_reference" (String c p)
               (orDefault (argImageOriginalName a) (basename (String c p)))
               (orDefault (argImageMime a) "image/jpeg") size].
Proof.
  intros Hi Hp.
  destruct (formImage_spec w a st) as [_ Htext].
  rewrite textValues_app, fileParts_app, formText_size, fileParts_formText,
    (Htext image Hi). cbn [app].
  split; [reflexivity|].
  unfold formImage in Hi. rewrite Hp in Hi.
  destruct (statSync w (String c p)) as [e | size]; cbn in Hi; [discriminate Hi|].
  injection Hi as <-. exists size. split; reflexivity.
Qed.

Lemma content_type_default (contentType : option string) :
  orDefault (Some (orDefault contentType "image/jpeg")) "image/jpeg"
  = orDefault contentType "image/jpeg".
Proof. destruct contentType as [[|c r]|]; reflexivity. Qed.

Lemma negotiated_size_default (s : string) :
  orDefault (Some (mapToValidSoraSize s)) "720x1280" = mapToValidSoraSize s.
Proof.
  destruct (mapToValidSoraSize_range s) as [E | E]; rewrite E; reflexivity.
Qed.

(** X6: the upload route sends at most one creation request, and sends it
    only when an API key is configured, an image was uploaded and decoded,
    the resize (when one was needed) succeeded, and the size of the image to
    send could be read. *)
Theorem generate_sends_at_most_one_request (w : World) (req : GenerateRequest) :
  (List.length (createForms (run (generate w req))) <= 1)%nat
  /\ (createForms (run (generate w req)) <> [] ->
      hasOpenAI w = true
      /\ exists file meta,
           reqFile req = Some file
           /\ sharpMetadata w (filePath file) = inr meta
           /\ (dimensionsDiffer (reqSize req) meta = true ->
               sharpToFile w (filePath file)
                 (resizedPath (dateNow w 0) (filePath file)) = None)
           /\ (sentImage w req file meta = ""
               \/ exists size, statSync w (sentImage w req file meta) = inr size)).
Proof.
  destruct (hasOpenAI w) eqn:Hc.
  2:{ unfold run, generate. rewrite Hc. cbn. split; [lia | intros H; contradiction H; reflexivity]. }
  destruct (reqFile req) as [file|] eqn:Hf.
  2:{ unfold run, generate. rewrite Hc, Hf. cbn.
      split; [lia | intros H; contradiction H; reflexivity]. }
  destruct (sharpMetadata w (filePath file)) as [e | meta] eqn:Hm.
  { rewrite (generate_prepare_fails w req file e initial Hc Hf
               (prepareImage_throws _ _ _ _ _ Hm)).
    cbn. split; [lia | intros H; contradiction H; reflexivity]. }
  destruct (prepareImage_initial w req file meta Hm)
    as [(e & st1 & Hp & Hev & _) | (st1 & Hp & Hev & Hpp & Hresize)].
  { rewrite (generate_prepare_fails w req file e st1 Hc Hf Hp), Hev.
    cbn. split; [lia | intros H; contradiction H; reflexivity]. }
  rewrite (generate_after_prepare w req file _ st1 Hc Hf Hp), Hev, Hpp.
  cbn [app]. unfold formImage, uploadArgs. cbn [argImagePath].
  destruct (sentImage w req file meta) as [|c path] eqn:Es.
  { cbn. split; [lia|]. intros _. split; [reflexivity|].
    exists file, meta. repeat split; auto. }
  destruct (statSync w (String c path)) as [e | size] eqn:Est; cbn.
  - split; [lia | intros H; contradiction H; reflexivity].
  - split; [lia|]. intros _. split; [reflexivity|].
    exists file, meta. repeat split; auto. right. exists size.
    rewrite Es. exact Est.
Qed.

(** X7: in the upload route, a creation request carries as its [size] the
    negotiated target size (the size whose dimensions the image was resized
    to when they differed), as [seconds] the field of the request or ["8"]
    when it is missing or empty, the prompt only when it is not empty, and
    one [input_reference] part: the resized derivative when the dimensions
    differed, else the upload itself, under the original name and MIME type
    of the upload. *)
Theorem generate_request_contents (w : World) (req : GenerateRequest)
    (file : UploadedFile) (meta : Metadata) (form : Form) :
  reqFile req = Some file ->
  filePath file <> "" ->
  sharpMetadata w (filePath file) = inr meta ->
  In form (createForms (run (generate w req))) ->
  textValues "size" form = [mapToValidSoraSize (requestedSizeOf (reqSize req) meta)]
  /\ textValues "seconds" form
     = [match reqSeconds req with
        | Some (String c r) => String c r
        | _ => "8"
        end]
  /\ textValues "prompt" form
     = match reqPrompt req with
       | Some (String c r) => [String c r]
       | _ => []
       end
  /\ exists size,
       statSync w (sentImage w req file meta) = inr size
       /\ fileParts form
          = [FilePart "input_reference" (sentImage w req file meta)
               (orDefault (Some (originalname file))
                  (basename (sentImage w req file meta)))
               (orDefault (Some (mimetype file)) "image/jpeg") size].
Proof.
  intros Hf Hne Hm.
  assert (Hs : sentImage w req file meta <> "").
  { unfold sentImage. destruct (dimensionsDiffer (reqSize req) meta);
      [discriminate | exact Hne]. }
  destruct (hasOpenAI w) eqn:Hc.
  2:{ unfold run, generate. rewrite Hc. cbn. intros []. }
  destruct (prepareImage_initial w req file meta Hm)
    as [(e & st1 & Hp & Hev & _) | (st1 & Hp & Hev & Hpp & _)].
  { rewrite (generate_prepare_fails w req file e st1 Hc Hf Hp), Hev. intros []. }
  rewrite (generate_after_prepare w req file _ st1 Hc Hf Hp), Hev, Hpp.
  cbn [app]. unfold formImage, uploadArgs at 1. cbn [argImagePath].
  destruct (sentImage w req file meta) as [|c path] eqn:Es;
    [contradiction Hs; reflexivity|].
  destruct (statSync w (String c path)) as [e | size] eqn:Est; cbn [fst ret throw];
    [intros []|].
  intros [<- | []].
  assert (Hsize : orDefault (Some (mapToValidSoraSize (requestedSizeOf (reqSize req) meta)))
                    "720x1280"
                  = mapToValidSoraSize (requestedSizeOf (reqSize req) meta)).
  { destruct (mapToValidSoraSize_range (requestedSizeOf (reqSize req) meta)) as [E | E];
      rewrite E; reflexivity. }
  rewrite !textValues_app, fileParts_app, formText_size.
  unfold uploadArgs at 1. cbn [argSize].
  rewrite Hsize, mapToValidSoraSize_idempotent.
  cbn [fileParts textValues app]. rewrite app_nil_r.
  split; [reflexivity|].
  unfold formText, uploadArgs.
  cbn [argPrompt argSeconds argModel argSize argImageOriginalName argImageMime].
  generalize (mapToValidSoraSize
                (orDefault (Some (mapToValidSoraSize (requestedSizeOf (reqSize req) meta)))
                   "720x1280")).
  intros sz.
  split; [|split].
  - destruct (truthyString (reqPrompt req)); destruct (reqSeconds req) as [[|c' r']|];
      reflexivity.
  - destruct (reqPrompt req) as [[|c' r']|]; destruct (secondsTruthy _); reflexivity.
  - exists size. split; [reflexivity|].
    destruct (truthyString (reqPrompt req)); destruct (secondsTruthy _); reflexivity.
Qed.

Lemma generate_request_contents_witness :
  let w := generateWorld true 1080 1920 in
  let meta := mkMetadata (Some 1080%N) (Some 1920%N) in
  let form := hd [] (createForms (run (generate w uploadRequest))) in
  textValues "size" form
  = [mapToValidSoraSize (requestedSizeOf (reqSize uploadRequest) meta)]
  /\ textValues "seconds" form
     = [match reqSeconds uploadRequest with
        | Some (String c r) => String c r
        | _ => "8"
        end]
  /\ textValues "prompt" form
     = match reqPrompt uploadRequest with
       | Some (String c r) => [String c r]
       | _ => []
       end
  /\ exists size,
       statSync w (sentImage w uploadRequest sampleUpload meta) = inr size
       /\ fileParts form
          = [FilePart "input_reference" (sentImage w uploadRequest sampleUpload meta)
               (orDefault (Some (originalname sampleUpload))
                  (basename (sentImage w uploadRequest sampleUpload meta)))
               (orDefault (Some (mimetype sampleUpload)) "image/jpeg") size].
Proof.
  apply (generate_request_contents (generateWorld true 1080 1920) uploadRequest
           sampleUpload (mkMetadata (Some 1080%N) (Some 1920%N))
           (hd [] (createForms
                     (run (generate (generateWorld true 1080 1920) uploadRequest))))).
  - reflexivity.
  - discriminate.
  - reflexivity.
  - vm_compute. left. reflexivity.
Defined.

(* ================================================================== *)
(** ** The image URL of the later revision *)
(* ================================================================== *)

Lemma fetches_app (a b : list Event) :
  fetches (a ++ b) = fetches a ++ fetches b.
Proof.
  induction a as [|e a IH]; cbn [app fetches]; [reflexivity|].
  destruct e; cbn [app]; rewrite ?IH; reflexivity.
Qed.

(** X10: when the request carries an upload, the later revision of the
    route never fetches the image URL and writes no fetched copy, whether
    the request names an image URL or not. *)
Theorem upload_takes_precedence_over_url (w : World) (req : GenerateRequest)
    (file : UploadedFile) :
  reqFile req = Some file ->
  fetches (run (generateFromUrl w req)) = []
  /\ forall p created, ~ In (EvWriteFile p created) (run (generateFromUrl w req)).
Proof.
  intros Hf. unfold run, generateFromUrl. rewrite Hf.
  destruct (hasOpenAI w); cbn [negb].
  2:{ unfold_handler. split; [reflexivity|]. intros p created [H | []]. discriminate H. }
  cbn [filePathOf option_map].
  repeat cleanup_step;
    (split; [reflexivity|]);
    intros p0 created0 H; cbn [In app] in H; intuition discriminate.
Qed.

Lemma upload_takes_precedence_over_url_witness :
  fetches (run (generateFromUrl (generateWorld true 1080 1920) uploadAndUrlRequest)) = []
  /\ forall p created,
       ~ In (EvWriteFile p created)
           (run (generateFromUrl (generateWorld true 1080 1920) uploadAndUrlRequest)).
Proof.
  apply (upload_takes_precedence_over_url (generateWorld true 1080 1920)
           uploadAndUrlRequest sampleUpload).
  reflexivity.
Defined.



(** X12: in the later revision, an image fetched from the URL is sent on
    under the name [character.<ext>], where [<ext>] is [png], [webp] or
    [jpg] as chosen from the content type of the answer, with that content
    type (or [image/jpeg] when the answer names none) as its MIME type; the
    file sent is the fetched copy or its resized derivative, and the [size]
    part is the negotiated target size. *)
Theorem url_image_is_sent_as_character_file (w : World) (req : GenerateRequest)
    (url : string) (code : N) (contentType : option string) (meta : Metadata)
    (form : Form) :
  reqFile req = None ->
  reqImageUrl req = Some url -> url <> "" ->
  fetchImage w url = ImageResolves code contentType true ->
  let mime := orDefault contentType "image/jpeg" in
  let tmp := fetchedPath (dateNow w 0) (extensionOf mime) in
  sharpMetadata w tmp = inr meta ->
  In form (createForms (run (generateFromUrl w req))) ->
  In (extensionOf mime) ["png"; "webp"; "jpg"]
  /\ textValues "size" form = [mapToValidSoraSize (requestedSizeOf (reqSize req) meta)]
  /\ exists path size,
       fileParts form
       = [FilePart "input_reference" path
            ("character." ++ extensionOf mime)%string mime size]
       /\ (path = tmp \/ path = resizedPath (dateNow w 1) tmp).
Proof.
  intros Hf Hu Hne Hfetch. cbv zeta. intros Hm.
  unfold run, generateFromUrl. rewrite Hf, Hu.
  destruct (hasOpenAI w); cbn [negb].
  2:{ unfold_handler. cbn. intros []. }
  intros Hin. split.
  { unfold extensionOf. destruct (includes _ "png"); [cbn; auto|].
    destruct (includes _ "webp"); cbn; auto. }
  revert Hin.
  destruct url as [|c url]; [contradiction Hne; reflexivity|].
  cbn [truthyString orDefault filePathOf option_map].
  unfold fetchToTemp. unfold_handler. rewrite Hfetch.
  destruct ((200 <=? code) && (code <=? 299))%N; cbn [negb]; unfold_handler.
  2:{ cbn. intros []. }
  destruct (writeFileSync w _) as [e|]; unfold_handler.
  { cbn. intros []. }
  rewrite (prepareImage_spec _ _ _ _ _ Hm). cbv zeta. simpl_state.
  destruct (dimensionsDiffer (reqSize req) meta);
    [destruct (sharpToFile w _ _) as [e|]|]; unfold_handler.
  - repeat cleanup_step; cbn [app createForms]; intros [].
  - repeat cleanup_step; rewrite ?createForms_app; cbn [app createForms In];
      try (intros []; fail).
    all: intros [<- | []].
    all: match goal with
         | H : fst (formImage _ _ _) = Ok _ |- _ =>
             destruct (created_form_parts _ _ _ _ _ _ H eq_refl) as (Hs & size & _ & Hp)
         end.
    all: cbn [argSize argImageOriginalName argImageMime] in Hs, Hp.
    all: rewrite content_type_default in Hp.
    all: rewrite negotiated_size_default, mapToValidSoraSize_idempotent in Hs.
    all: split; [exact Hs|]; eexists _, size; split; [exact Hp|]; right; reflexivity.
  - repeat cleanup_step; rewrite ?createForms_app; cbn [app createForms In];
      try (intros []; fail).
    all: intros [<- | []].
    all: match goal with
         | H : fst (formImage _ _ _) = Ok _ |- _ =>
             destruct (created_form_parts _ _ _ _ _ _ H eq_refl) as (Hs & size & _ & Hp)
         end.
    all: cbn [argSize argImageOriginalName argImageMime] in Hs, Hp.
    all: rewrite content_type_default in Hp.
    all: rewrite negotiated_size_default, mapToValidSoraSize_idempotent in Hs.
    all: split; [exact Hs|]; eexists _, size; split; [exact Hp|]; left; reflexivity.
Qed.

Lemma url_image_is_sent_as_character_file_witness :
  let w := generateWorld true 720 1280 in
  let meta := mkMetadata (Some 720%N) (Some 1280%N) in
  let form := hd [] (createForms (run (generateFromUrl w urlRequest))) in
  let mime := orDefault (Some "image/png") "image/jpeg" in
  let tmp := fetchedPath (dateNow w 0) (extensionOf mime) in
  In (extensionOf mime) ["png"; "webp"; "jpg"]
  /\ textValues "size" form
     = [mapToValidSoraSize (requestedSizeOf (reqSize urlRequest) meta)]
  /\ exists path size,
       fileParts form
       = [FilePart "input_reference" path
            ("character." ++ extensionOf mime)%string mime size]
       /\ (path = tmp \/ path = resizedPath (dateNow w 1) tmp).
Proof.
  apply (url_image_is_sent_as_character_file (generateWorld true 720 1280) urlRequest
           "https://res.cloudinary.com/demo/goblina.png" 200 (Some "image/png")
           (mkMetadata (Some 720%N) (Some 1280%N))
           (hd [] (createForms
                     (run (generateFromUrl (generateWorld true 720 1280) urlRequest))))).
  - reflexivity.
  - reflexivity.
  - discriminate.
  - reflexivity.
  - reflexivity.
  - vm_compute. left. reflexivity.
Defined.

(* ================================================================== *)
(** ** Further properties of the size negotiation *)
(* ================================================================== *)

Lemma splitOn_no_separator (sep : ascii) (s : string) :
  Forall (fun c => Ascii.eqb c sep = false) (chars s) ->
  splitOn sep s = [s].
Proof.
  unfold chars.
  induction s as [|c s IH]; cbn [list_ascii_of_string splitOn]; [reflexivity|].
  intros H. inversion H as [|? ? Hc Hs]; subst.
  rewrite Hc, (IH Hs). reflexivity.
Qed.

(** X13: a requested size that contains no ['x'] (a bare number, a
    keyword, the empty string) has no height, and the negotiation answers
    the portrait default ['720x1280']. *)
Theorem size_without_separator_is_default (s : string) :
  Forall (fun c => Ascii.eqb c "x" = false) (chars s) ->
  mapToValidSoraSize s = "720x1280".
Proof.
  intros H. unfold mapToValidSoraSize.
  rewrite (splitOn_no_separator "x" s H).
  cbn [map nth_error falsyElement]. rewrite Bool.orb_true_r. reflexivity.
Qed.

Lemma size_without_separator_is_default_witness :
  mapToValidSoraSize "1080p" = "720x1280".
Proof.
  apply (size_without_separator_is_default "1080p").
  repeat constructor.
Defined.

(** X14: the negotiation is idempotent, and the sizes it leaves unchanged
    are exactly ['720x1280'] and ['1280x720']. *)
Theorem negotiation_fixed_points (s : string) :
  mapToValidSoraSize (mapToValidSoraSize s) = mapToValidSoraSize s
  /\ (mapToValidSoraSize s = s <-> s = "720x1280" \/ s = "1280x720").
Proof.
  destruct (mapToValidSoraSize_range s) as [E | E].
  - rewrite E. split; [reflexivity|]. split.
    + intros <-. left; reflexivity.
    + intros [-> | ->]; [reflexivity | vm_compute in E; discriminate E].
  - rewrite E. split; [reflexivity|]. split.
    + intros <-. right; reflexivity.
    + intros [-> | ->]; [vm_compute in E; discriminate E | reflexivity].
Qed.

(* ================================================================== *)
(** ** The session store *)
(* ================================================================== *)

Lemma get_set_same (k : string) (v : N) (m : Auth.Sessions) :
  Auth.get k (Auth.set k v m) = Some v.
Proof.
  induction m as [|[k' v'] m IH]; cbn [Auth.set Auth.get].
  - now rewrite String.eqb_refl.
  - destruct (String.eqb k' k) eqn:E; cbn [Auth.get]; rewrite E; [reflexivity | exact IH].
Qed.

Lemma get_set_other (k k' : string) (v : N) (m : Auth.Sessions) :
  k' <> k -> Auth.get k' (Auth.set k v m) = Auth.get k' m.
Proof.
  intros Hne.
  induction m as [|[k0 v0] m IH]; cbn [Auth.set Auth.get].
  - destruct (String.eqb_spec k k') as [E | E]; [congruence | reflexivity].
  - destruct (String.eqb_spec k0 k) as [E | E]; cbn [Auth.get].
    + subst k0. destruct (String.eqb_spec k k') as [E' | E']; [congruence | reflexivity].
    + destruct (String.eqb k0 k'); [reflexivity | exact IH].
Qed.

Lemma get_delete_same (k : string) (m : Auth.Sessions) :
  Auth.get k (Auth.delete k m) = None.
Proof.
  induction m as [|[k' v'] m IH]; cbn [Auth.delete Auth.get]; [reflexivity|].
  destruct (String.eqb k' k) eqn:E; [exact IH|].
  cbn [Auth.get]. rewrite E. exact IH.
Qed.

Lemma get_delete_other (k k' : string) (m : Auth.Sessions) :
  k' <> k -> Auth.get k' (Auth.delete k m) = Auth.get k' m.
Proof.
  intros Hne.
  induction m as [|[k0 v0] m IH]; cbn [Auth.delete Auth.get]; [reflexivity|].
  destruct (String.eqb_spec k0 k) as [E | E].
  - subst k0. destruct (String.eqb_spec k k') as [E' | E']; [congruence | exact IH].
  - cbn [Auth.get]. destruct (String.eqb k0 k'); [reflexivity | exact IH].
Qed.

(* ================================================================== *)
(** ** Splitting and trimming *)
(* ================================================================== *)

Lemma splitOn_nonempty (sep : ascii) (s : string) : splitOn sep s <> [].
Proof.
  destruct s as [|c s]; cbn [splitOn]; [discriminate|].
  destruct (Ascii.eqb c sep); [discriminate|].
  destruct (splitOn sep s); discriminate.
Qed.

(** The first piece ends at the first separator. *)
Lemma splitOn_app_separator (sep : ascii) (a b : string) :
  Forall (fun c => Ascii.eqb c sep = false) (chars a) ->
  splitOn sep (a ++ String sep b)%string = a :: splitOn sep b.
Proof.
  unfold chars.
  induction a as [|c a IH]; cbn [list_ascii_of_string append splitOn]; intros H.
  - now rewrite Ascii.eqb_refl.
  - inversion H as [|? ? Hc Ha]; subst. rewrite Hc, (IH Ha). reflexivity.
Qed.

Lemma dropWhile_none {A} (p : A -> bool) (l : list A) :
  Forall (fun a => p a = false) l -> dropWhile p l = l.
Proof.
  intros H. destruct H as [|a l Ha _]; cbn [dropWhile]; [reflexivity|].
  now rewrite Ha.
Qed.

Lemma trim_none (l : list ascii) :
  Forall (fun c => isWhiteSpace c = false) l -> trim l = l.
Proof.
  intros H. unfold trim.
  rewrite (dropWhile_none _ l H).
  rewrite (dropWhile_none _ (rev l)) by (apply Forall_rev; exact H).
  apply rev_involutive.
Qed.

Lemma trimString_none (s : string) :
  Forall (fun c => isWhiteSpace c = false) (chars s) -> Auth.trimString s = s.
Proof.
  intros H. unfold Auth.trimString. rewrite (trim_none _ H).
  unfold chars. apply string_of_list_ascii_of_string.
Qed.

(** A leading space is trimmed away. *)
Lemma trimString_space (s : string) :
  Forall (fun c => isWhiteSpace c = false) (chars s) ->
  Auth.trimString (String " " s) = s.
Proof.
  intros H. unfold Auth.trimString, trim.
  change (chars (String " " s)) with (" "%char :: chars s).
  change (dropWhile isWhiteSpace (" "%char :: chars s))
    with (dropWhile isWhiteSpace (chars s)).
  fold (trim (chars s)). rewrite (trim_none _ H).
  unfold chars. apply string_of_list_ascii_of_string.
Qed.

Lemma cookieChar_spec (c : ascii) :
  Auth.cookieChar c = true ->
  Ascii.eqb c ";" = false /\ Ascii.eqb c "=" = false /\ isWhiteSpace c = false.
Proof.
  unfold Auth.cookieChar. intros H.
  apply Bool.andb_true_iff in H. destruct H as [H H3].
  apply Bool.andb_true_iff in H. destruct H as [H1 H2].
  apply Bool.negb_true_iff in H1, H2, H3. auto.
Qed.

Lemma cookieChars_spec (s : string) :
  Forall (fun c => Auth.cookieChar c = true) (chars s) ->
  Forall (fun c => Ascii.eqb c ";" = false) (chars s)
  /\ Forall (fun c => Ascii.eqb c "=" = false) (chars s)
  /\ Forall (fun c => isWhiteSpace c = false) (chars s).
Proof.
  intros H. repeat split;
    (eapply Forall_impl; [|exact H]); intros c Hc;
    apply cookieChar_spec in Hc; tauto.
Qed.

(** One [name=value] pair as the parser reads it back. *)
Lemma parsePair_pair (n v : string) :
  Forall (fun c => Auth.cookieChar c = true) (chars n) ->
  Forall (fun c => Auth.cookieChar c = true) (chars v) ->
  Auth.parsePair (n ++ "=" ++ v)%string = (n, Some v)
  /\ Auth.parsePair (String " " (n ++ "=" ++ v))%string = (n, Some v).
Proof.
  intros Hn Hv.
  destruct (cookieChars_spec n Hn) as (_ & Hn2 & Hn3).
  destruct (cookieChars_spec v Hv) as (_ & Hv2 & Hv3).
  assert (Hws : Forall (fun c => isWhiteSpace c = false) (chars (n ++ "=" ++ v)%string)).
  { rewrite !chars_append. apply Forall_app. split; [exact Hn3|].
    apply Forall_app. split; [repeat constructor | exact Hv3]. }
  assert (Hsplit : splitOn "=" (n ++ "=" ++ v)%string = [n; v]).
  { change (n ++ "=" ++ v)%string with (n ++ String "=" v)%string.
    rewrite (splitOn_app_separator "=" n v Hn2).
    rewrite (splitOn_no_separator "=" v Hv2). reflexivity. }
  unfold Auth.parsePair.
  rewrite (trimString_none _ Hws), (trimString_space _ Hws), Hsplit.
  split; reflexivity.
Qed.

(* ================================================================== *)
(** ** The cookie parser *)
(* ================================================================== *)

Lemma pair_not_empty (n v : string) : (n ++ "=" ++ v)%string <> "".
Proof. destruct n; discriminate. Qed.

Lemma pair_no_semicolon (n v : string) :
  Forall (fun c => Auth.cookieChar c = true) (chars n) ->
  Forall (fun c => Auth.cookieChar c = true) (chars v) ->
  Forall (fun c => Ascii.eqb c ";" = false) (chars (n ++ "=" ++ v)%string).
Proof.
  intros Hn Hv.
  destruct (cookieChars_spec n Hn) as (Hn1 & _ & _).
  destruct (cookieChars_spec v Hv) as (Hv1 & _ & _).
  rewrite !chars_append. apply Forall_app. split; [exact Hn1|].
  apply Forall_app. split; [repeat constructor | exact Hv1].
Qed.

(** The pieces of a header of well-formed cookies: the pairs themselves,
    each but the first behind a space. *)
Lemma splitOn_cookieHeaderOf (p : string * string) (rest : list (string * string)) :
  Forall (fun nv => Forall (fun c => Auth.cookieChar c = true) (chars (fst nv))
                    /\ Forall (fun c => Auth.cookieChar c = true) (chars (snd nv)))
    (p :: rest) ->
  splitOn ";" (Auth.cookieHeaderOf (p :: rest))
  = (fst p ++ "=" ++ snd p)%string
    :: map (fun nv => String " " (fst nv ++ "=" ++ snd nv)%string) rest.
Proof.
  revert p. induction rest as [|q rest IH]; intros p H.
  - inversion H as [|? ? [Hn Hv] _]; subst.
    unfold Auth.cookieHeaderOf. cbn [map String.concat].
    apply splitOn_no_separator. exact (pair_no_semicolon _ _ Hn Hv).
  - inversion H as [|? ? [Hn Hv] Hrest]; subst.
    unfold Auth.cookieHeaderOf in *. cbn [map String.concat] in *.
    change ("; " ++ ?s)%string with (String ";" (String " " s)).
    rewrite (splitOn_app_separator ";" _ _ (pair_no_semicolon _ _ Hn Hv)).
    f_equal.
    change (splitOn ";" (String " " ?s))
      with (match splitOn ";" s with
            | p0 :: ps => String " " p0 :: ps
            | [] => [String " " EmptyString]
            end).
    rewrite (IH q Hrest). reflexivity.
Qed.

Lemma cookieParser_cookieHeaderOf (pairs : list (string * string)) :
  Forall (fun nv => Forall (fun c => Auth.cookieChar c = true) (chars (fst nv))
                    /\ Forall (fun c => Auth.cookieChar c = true) (chars (snd nv)))
    pairs ->
  Auth.cookieParser (Some (Auth.cookieHeaderOf pairs))
  = map (fun nv => (fst nv, Some (snd nv))) pairs.
Proof.
  intros H. destruct pairs as [|p rest]; [reflexivity|].
  pose proof (splitOn_cookieHeaderOf p rest H) as Hs.
  unfold Auth.cookieParser.
  destruct (Auth.cookieHeaderOf (p :: rest)) as [|c r] eqn:E.
  { cbn [splitOn] in Hs. injection Hs as Hs _. symmetry in Hs.
    destruct (pair_not_empty _ _ Hs). }
  rewrite Hs. cbn [map].
  inversion H as [|? ? [Hn Hv] Hrest]; subst.
  rewrite (proj1 (parsePair_pair _ _ Hn Hv)). f_equal.
  clear -Hrest. induction Hrest as [|q rest [Hn Hv] _ IH]; cbn [map]; [reflexivity|].
  rewrite (proj2 (parsePair_pair _ _ Hn Hv)), IH. reflexivity.
Qed.

Lemma cookieValue_lastValue (name : string) (pairs : list (string * string))
    (acc : option string) :
  fold_left (fun acc nv => if String.eqb (fst nv) name then snd nv else acc)
    (map (fun nv : string * string => (fst nv, Some (snd nv))) pairs) acc
  = match Auth.lastValue name pairs with
    | Some v => Some v
    | None => acc
    end.
Proof.
  revert acc. induction pairs as [|[n v] rest IH]; intros acc; [reflexivity|].
  cbn [map fold_left fst snd Auth.lastValue]. rewrite IH.
  destruct (Auth.lastValue name rest); [reflexivity|].
  destruct (String.eqb n name); reflexivity.
Qed.

(** What the parser makes of a header of well-formed pairs. *)
Lemma cookie_header_parsed (name : string) (pairs : list (string * string)) :
  Forall (fun nv => Forall (fun c => Auth.cookieChar c = true) (chars (fst nv))
                    /\ Forall (fun c => Auth.cookieChar c = true) (chars (snd nv)))
    pairs ->
  Auth.cookieValue name (Auth.cookieParser (Some (Auth.cookieHeaderOf pairs)))
  = match Auth.lastValue name pairs with
    | Some v => Some v
    | None => None
    end.
Proof.
  intros H. rewrite (cookieParser_cookieHeaderOf pairs H).
  unfold Auth.cookieValue. apply cookieValue_lastValue.
Qed.



(* ================================================================== *)
(** ** Session tokens *)
(* ================================================================== *)

Lemma base36_cookieChar (c : ascii) :
  Auth.base36Char c = true -> Auth.cookieChar c = true.
Proof.
  destruct c as [[] [] [] [] [] [] [] []]; vm_compute; intros H;
    (reflexivity || discriminate H).
Qed.

Lemma get_In (n : nat) (s : string) (c : ascii) :
  String.get n s = Some c -> In c (chars s).
Proof.
  revert n. unfold chars.
  induction s as [|a s IH]; intros n H; [discriminate H|].
  cbn [list_ascii_of_string In]. destruct n as [|n]; cbn [String.get] in H.
  - injection H as ->. left; reflexivity.
  - right. exact (IH n H).
Qed.

Lemma charAt_chars (P : ascii -> Prop) (n : nat) (s : string) :
  Forall P (chars s) -> Forall P (chars (Auth.charAt n s)).
Proof.
  intros H. unfold Auth.charAt.
  destruct (String.get n s) as [c|] eqn:E; [|constructor].
  constructor; [|constructor].
  rewrite Forall_forall in H. exact (H c (get_In n s c E)).
Qed.

Lemma concat_chars (P : ascii -> Prop) (l : list string) :
  Forall (fun s => Forall P (chars s)) l ->
  Forall P (chars (String.concat "" l)).
Proof.
  induction l as [|x l IH]; intros H; [constructor|].
  inversion H as [|? ? Hx Hl]; subst.
  destruct l as [|y l]; [exact Hx|].
  change (String.concat "" (x :: y :: l))
    with (x ++ "" ++ String.concat "" (y :: l))%string.
  rewrite !chars_append. apply Forall_app. split; [exact Hx|].
  apply Forall_app. split; [constructor | exact (IH Hl)].
Qed.

(** A token drawn from base-36 fractions can be sent back as a cookie
    value as it is. *)
Lemma generateSessionToken_cookieChars (cfg : Auth.Config) (k : nat) :
  (forall i, Forall (fun c => Auth.base36Char c = true) (chars (Auth.random36 cfg i))) ->
  Forall (fun c => Auth.cookieChar c = true) (chars (Auth.generateSessionToken cfg k)).
Proof.
  intros H. unfold Auth.generateSessionToken.
  apply concat_chars. apply Forall_map. apply Forall_forall. intros i _.
  apply charAt_chars. eapply Forall_impl; [|exact (H (k + i)%nat)].
  exact base36_cookieChar.
Qed.

(* ================================================================== *)
(** ** Properties of the password protection *)
(* ================================================================== *)

Lemma requireAuth_token (cfg : Auth.Config) (now : N) (req : Auth.Request)
    (st : Auth.Store) (token : string) :
  Auth.hasPasswordProtection cfg = true ->
  Auth.path req <> "/api/auth/login" -> Auth.path req <> "/login.html" ->
  Auth.sessionTokenOf req = Some token -> token <> "" ->
  Auth.requireAuth cfg now req st =
  match Auth.get token (Auth.sessions st) with
  | Some created =>
      if (Z.of_N now - Z.of_N created <? Auth.dayMs)%Z then (Auth.Next, st)
      else (Auth.notAuthenticated req,
            Auth.mkStore (Auth.delete token (Auth.sessions st)) (Auth.draws st))
  | None => (Auth.notAuthenticated req, st)
  end.
Proof.
  intros Hp H1 H2 Ht Hne. unfold Auth.requireAuth.
  rewrite Hp, Ht. cbn [negb].
  destruct (String.eqb_spec (Auth.path req) "/api/auth/login") as [E | _];
    [contradiction|].
  destruct (String.eqb_spec (Auth.path req) "/login.html") as [E | _];
    [contradiction|].
  cbn [orb]. destruct token as [|c r]; [contradiction Hne; reflexivity|].
  reflexivity.
Qed.

(** X16: after a login with the configured password, a request that sends
    back the cookie of the reply passes [requireAuth] on every path for the
    next 24 hours.  The reply sets [session=<token>]; the token is stored
    with the time of the login; and any [Cookie] header of well-formed
    pairs whose last [session] pair carries the token is accepted while
    less than 24 hours have passed, leaving the store as it is.  The
    random values are assumed to be base-36 fractions, as
    [Math.random().toString(36)] gives them, and the token not to be
    empty. *)
Theorem login_cookie_passes_gate (cfg : Auth.Config) (now later : N)
    (req : Auth.Request) (st : Auth.Store) (pairs : list (string * string)) :
  Auth.hasPasswordProtection cfg = true ->
  Auth.passwordMatches cfg (Auth.bodyPassword req) = true ->
  (forall i, Forall (fun c => Auth.base36Char c = true) (chars (Auth.random36 cfg i))) ->
  Auth.generateSessionToken cfg (Auth.draws st) <> "" ->
  Forall (fun nv => Forall (fun c => Auth.cookieChar c = true) (chars (fst nv))
                    /\ Forall (fun c => Auth.cookieChar c = true) (chars (snd nv)))
    pairs ->
  Auth.lastValue "session" pairs = Some (Auth.generateSessionToken cfg (Auth.draws st)) ->
  (Z.of_N later - Z.of_N now < Auth.dayMs)%Z ->
  let token := Auth.generateSessionToken cfg (Auth.draws st) in
  let reply := fst (Auth.login cfg now req st) in
  let st' := snd (Auth.login cfg now req st) in
  Auth.replyCode reply = 200%N
  /\ Auth.replySetCookie reply = Some (Auth.sessionCookie token)
  /\ hd "" (splitOn ";" (Auth.sessionCookie token)) = ("session=" ++ token)%string
  /\ Auth.get token (Auth.sessions st') = Some now
  /\ forall p body,
       Auth.requireAuth cfg later
         (Auth.mkRequest p (Some (Auth.cookieHeaderOf pairs)) body) st'
       = (Auth.Next, st').
Proof.
  intros Hp Hpw Hrand Hne Hpairs Hlast Hage. cbv zeta.
  pose proof (generateSessionToken_cookieChars cfg (Auth.draws st) Hrand) as Hsafe.
  set (token := Auth.generateSessionToken cfg (Auth.draws st)) in *.
  unfold Auth.login. rewrite Hp, Hpw. cbn [negb fst snd Auth.replyCode Auth.replySetCookie].
  fold token.
  split; [reflexivity|]. split; [reflexivity|].
  split.
  { unfold Auth.sessionCookie.
    change ("session=" ++ token ++ "; Path=/; HttpOnly; SameSite=Strict; Max-Age=86400")%string
      with ("session=" ++ (token ++ String ";" " Path=/; HttpOnly; SameSite=Strict; Max-Age=86400"))%string.
    assert (E : ("session=" ++ (token ++ String ";" " Path=/; HttpOnly; SameSite=Strict; Max-Age=86400"))%string
                = (("session=" ++ token) ++ String ";" " Path=/; HttpOnly; SameSite=Strict; Max-Age=86400")%string).
    { cbn [append]. repeat f_equal. }
    rewrite E, splitOn_app_separator; [reflexivity|].
    rewrite chars_append. apply Forall_app. split; [repeat constructor|].
    destruct (cookieChars_spec token Hsafe) as (H1 & _ & _). exact H1. }
  split; [apply get_set_same|].
  intros p body.
  destruct (String.eqb_spec p "/api/auth/login") as [E1 | E1].
  { unfold Auth.requireAuth. rewrite Hp. cbn [negb Auth.path]. subst p. reflexivity. }
  destruct (String.eqb_spec p "/login.html") as [E2 | E2].
  { unfold Auth.requireAuth. rewrite Hp. cbn [negb Auth.path]. subst p. reflexivity. }
  assert (Htok : Auth.sessionTokenOf
                   (Auth.mkRequest p (Some (Auth.cookieHeaderOf pairs)) body)
                 = Some token).
  { unfold Auth.sessionTokenOf. cbn [Auth.cookieHeader].
    rewrite (cookie_header_parsed "session" pairs Hpairs), Hlast. reflexivity. }
  rewrite (requireAuth_token cfg later
             (Auth.mkRequest p (Some (Auth.cookieHeaderOf pairs)) body)
             (Auth.mkStore (Auth.set token now (Auth.sessions st)) (Auth.draws st + 32))
             token Hp E1 E2 Htok Hne).
  cbn [Auth.sessions]. rewrite get_set_same.
  apply Z.ltb_lt in Hage. rewrite Hage. reflexivity.
Qed.

Lemma login_cookie_passes_gate_witness :
  let cfg := Auth.sampleConfig in
  let req := Auth.mkRequest "/api/auth/login" None (VString "hunter2") in
  let st := Auth.mkStore [] 0 in
  let pairs := [("theme", "dark"); ("session", "kkkkkkkkkkkkkkkkkkkkkkkkkkkkkkkk")] in
  let token := Auth.generateSessionToken cfg (Auth.draws st) in
  let reply := fst (Auth.login cfg 1700000000000 req st) in
  let st' := snd (Auth.login cfg 1700000000000 req st) in
  Auth.replyCode reply = 200%N
  /\ Auth.replySetCookie reply = Some (Auth.sessionCookie token)
  /\ hd "" (splitOn ";" (Auth.sessionCookie token)) = ("session=" ++ token)%string
  /\ Auth.get token (Auth.sessions st') = Some 1700000000000%N
  /\ forall p body,
       Auth.requireAuth cfg 1700003600000
         (Auth.mkRequest p (Some (Auth.cookieHeaderOf pairs)) body) st'
       = (Auth.Next, st').
Proof.
  apply (login_cookie_passes_gate Auth.sampleConfig 1700000000000 1700003600000
           (Auth.mkRequest "/api/auth/login" None (VString "hunter2"))
           (Auth.mkStore [] 0)
           [("theme", "dark"); ("session", "kkkkkkkkkkkkkkkkkkkkkkkkkkkkkkkk")]).
  - reflexivity.
  - reflexivity.
  - intros i. repeat constructor.
  - vm_compute. discriminate.
  - repeat constructor.
  - vm_compute. reflexivity.
  - vm_compute. reflexivity.
Defined.

(** X17: a session that is 24 hours old or older is refused and removed.
    On a path other than the two login paths, a request whose [session]
    cookie names a stored session created at least 24 hours before is
    answered as not authenticated (401 on [/api/] paths, a redirect to
    [/login.html] otherwise); the session is deleted, the other sessions
    are kept, and the same cookie is refused from then on, whatever the
    clock says. *)
Theorem expired_session_is_refused_and_removed (cfg : Auth.Config) (now : N)
    (req : Auth.Request) (st : Auth.Store) (token : string) (created : N) :
  Auth.hasPasswordProtection cfg = true ->
  Auth.path req <> "/api/auth/login" -> Auth.path req <> "/login.html" ->
  Auth.sessionTokenOf req = Some token -> token <> "" ->
  Auth.get token (Auth.sessions st) = Some created ->
  (Auth.dayMs <= Z.of_N now - Z.of_N created)%Z ->
  let st' := snd (Auth.requireAuth cfg now req st) in
  fst (Auth.requireAuth cfg now req st)
  = (if Auth.startsWith (Auth.path req) "/api/"
     then Auth.Send (Auth.mkReply 401 None
                       (JObject [("error", JString "Unauthorized. Please login.")]))
     else Auth.Redirect "/login.html")
  /\ Auth.has token (Auth.sessions st') = false
  /\ (forall other, other <> token ->
        Auth.get other (Auth.sessions st') = Auth.get other (Auth.sessions st))
  /\ (forall later req',
        Auth.path req' <> "/api/auth/login" -> Auth.path req' <> "/login.html" ->
        Auth.sessionTokenOf req' = Some token ->
        Auth.requireAuth cfg later req' st' = (Auth.notAuthenticated req', st')).
Proof.
  intros Hp H1 H2 Ht Hne Hget Hage. cbv zeta.
  rewrite (requireAuth_token cfg now req st token Hp H1 H2 Ht Hne), Hget.
  apply Z.ltb_ge in Hage. rewrite Hage. cbn [fst snd Auth.sessions].
  split; [reflexivity|].
  split; [unfold Auth.has; now rewrite get_delete_same|].
  split; [intros other Ho; now apply get_delete_other|].
  intros later req' H1' H2' Ht'.
  rewrite (requireAuth_token cfg later req' _ token Hp H1' H2' Ht' Hne).
  cbn [Auth.sessions]. rewrite get_delete_same. reflexivity.
Qed.

Lemma expired_session_is_refused_and_removed_witness :
  let cfg := Auth.sampleConfig in
  let req := Auth.mkRequest "/api/status/video_123" (Some "session=k7f3") VUndefined in
  let st := Auth.mkStore [("k7f3", 1700000000000%N)] 32 in
  let st' := snd (Auth.requireAuth cfg 1700086400000 req st) in
  fst (Auth.requireAuth cfg 1700086400000 req st)
  = (if Auth.startsWith (Auth.path req) "/api/"
     then Auth.Send (Auth.mkReply 401 None
                       (JObject [("error", JString "Unauthorized. Please login.")]))
     else Auth.Redirect "/login.html")
  /\ Auth.has "k7f3" (Auth.sessions st') = false
  /\ (forall other, other <> "k7f3" ->
        Auth.get other (Auth.sessions st') = Auth.get other (Auth.sessions st))
  /\ (forall later req',
        Auth.path req' <> "/api/auth/login" -> Auth.path req' <> "/login.html" ->
        Auth.sessionTokenOf req' = Some "k7f3" ->
        Auth.requireAuth cfg later req' st' = (Auth.notAuthenticated req', st')).
Proof.
  apply (expired_session_is_refused_and_removed Auth.sampleConfig 1700086400000
           (Auth.mkRequest "/api/status/video_123" (Some "session=k7f3") VUndefined)
           (Auth.mkStore [("k7f3", 1700000000000%N)] 32) "k7f3" 1700000000000).
  - reflexivity.
  - discriminate.
  - discriminate.
  - reflexivity.
  - discriminate.
  - reflexivity.
  - vm_compute. discriminate.
Defined.

(** X18: logout ends the session named by the cookie of the request.  The
    reply clears the cookie; the session is removed from the store and the
    others are kept; and the same cookie is refused by [requireAuth] from
    then on, at any time, on every path but the two login paths. *)
Theorem logout_ends_the_session (cfg : Auth.Config) (req : Auth.Request)
    (st : Auth.Store) (token : string) :
  Auth.hasPasswordProtection cfg = true ->
  Auth.sessionTokenOf req = Some token -> token <> "" ->
  let reply := fst (Auth.logout req st) in
  let st' := snd (Auth.logout req st) in
  Auth.replyCode reply = 200%N
  /\ Auth.replySetCookie reply = Some "session=; Path=/; HttpOnly; Max-Age=0"
  /\ Auth.has token (Auth.sessions st') = false
  /\ (forall other, other <> token ->
        Auth.get other (Auth.sessions st') = Auth.get other (Auth.sessions st))
  /\ (forall later req',
        Auth.path req' <> "/api/auth/login" -> Auth.path req' <> "/login.html" ->
        Auth.sessionTokenOf req' = Some token ->
        Auth.requireAuth cfg later req' st' = (Auth.notAuthenticated req', st')).
Proof.
  intros Hp Ht Hne. cbv zeta. unfold Auth.logout. rewrite Ht.
  destruct token as [|c r]; [contradiction Hne; reflexivity|].
  cbn [fst snd Auth.replyCode Auth.replySetCookie Auth.sessions].
  split; [reflexivity|]. split; [reflexivity|].
  split; [unfold Auth.has; now rewrite get_delete_same|].
  split; [intros other Ho; now apply get_delete_other|].
  intros later req' H1' H2' Ht'.
  rewrite (requireAuth_token cfg later req' _ (String c r) Hp H1' H2' Ht' Hne).
  cbn [Auth.sessions]. rewrite get_delete_same. reflexivity.
Qed.

Lemma logout_ends_the_session_witness :
  let cfg := Auth.sampleConfig in
  let req := Auth.mkRequest "/api/auth/logout" (Some "session=k7f3") VUndefined in
  let st := Auth.mkStore [("k7f3", 1700000000000%N)] 32 in
  let reply := fst (Auth.logout req st) in
  let st' := snd (Auth.logout req st) in
  Auth.replyCode reply = 200%N
  /\ Auth.replySetCookie reply = Some "session=; Path=/; HttpOnly; Max-Age=0"
  /\ Auth.has "k7f3" (Auth.sessions st') = false
  /\ (forall other, other <> "k7f3" ->
        Auth.get other (Auth.sessions st') = Auth.get other (Auth.sessions st))
  /\ (forall later req',
        Auth.path req' <> "/api/auth/login" -> Auth.path req' <> "/login.html" ->
        Auth.sessionTokenOf req' = Some "k7f3" ->
        Auth.requireAuth cfg later req' st' = (Auth.notAuthenticated req', st')).
Proof.
  apply (logout_ends_the_session Auth.sampleConfig
           (Auth.mkRequest "/api/auth/logout" (Some "session=k7f3") VUndefined)
           (Auth.mkStore [("k7f3", 1700000000000%N)] 32) "k7f3").
  - reflexivity.
  - reflexivity.
  - discriminate.
Defined.

(** X19: the status route does not look at the age of a session.  For a
    stored session that is 24 hours old or older, [GET /api/auth/status]
    still reports [authenticated: true], while [requireAuth] refuses the
    same request at the same time. *)
Theorem status_ignores_session_age (cfg : Auth.Config) (now : N)
    (req : Auth.Request) (st : Auth.Store) (token : string) (created : N) :
  Auth.hasPasswordProtection cfg = true ->
  Auth.path req <> "/api/auth/login" -> Auth.path req <> "/login.html" ->
  Auth.sessionTokenOf req = Some token -> token <> "" ->
  Auth.get token (Auth.sessions st) = Some created ->
  (Auth.dayMs <= Z.of_N now - Z.of_N created)%Z ->
  Auth.authStatus cfg req st
  = Auth.mkReply 200 None
      (JObject [("authenticated", JBool true); ("passwordRequired", JBool true)])
  /\ fst (Auth.requireAuth cfg now req st) = Auth.notAuthenticated req.
Proof.
  intros Hp H1 H2 Ht Hne Hget Hage.
  split.
  - unfold Auth.authStatus, Auth.statusBody, Auth.has. rewrite Hp, Ht, Hget.
    destruct token as [|c r]; [contradiction Hne; reflexivity | reflexivity].
  - rewrite (requireAuth_token cfg now req st token Hp H1 H2 Ht Hne), Hget.
    apply Z.ltb_ge in Hage. rewrite Hage. reflexivity.
Qed.

Lemma status_ignores_session_age_witness :
  let cfg := Auth.sampleConfig in
  let req := Auth.mkRequest "/api/auth/status" (Some "session=k7f3") VUndefined in
  let st := Auth.mkStore [("k7f3", 1700000000000%N)] 32 in
  Auth.authStatus cfg req st
  = Auth.mkReply 200 None
      (JObject [("authenticated", JBool true); ("passwordRequired", JBool true)])
  /\ fst (Auth.requireAuth cfg 1700086400000 req st) = Auth.notAuthenticated req.
Proof.
  apply (status_ignores_session_age Auth.sampleConfig 1700086400000
           (Auth.mkRequest "/api/auth/status" (Some "session=k7f3") VUndefined)
           (Auth.mkStore [("k7f3", 1700000000000%N)] 32) "k7f3" 1700000000000).
  - reflexivity.
  - discriminate.
  - discriminate.
  - reflexivity.
  - discriminate.
  - reflexivity.
  - vm_compute. discriminate.
Defined.

(** X20: [requireAuth] lets a request pass exactly when no password is
    configured, or the path is one of the two login paths, or the [session]
    cookie names a stored session less than 24 hours old; every other
    request is answered as not authenticated.  It draws no random value,
    creates no session, and removes at most the session that the cookie of
    the request names. *)
Theorem requireAuth_passes_iff (cfg : Auth.Config) (now : N)
    (req : Auth.Request) (st : Auth.Store) :
  let out := fst (Auth.requireAuth cfg now req st) in
  let st' := snd (Auth.requireAuth cfg now req st) in
  (out = Auth.Next <->
     Auth.hasPasswordProtection cfg = false
     \/ Auth.path req = "/api/auth/login" \/ Auth.path req = "/login.html"
     \/ exists token created,
          Auth.sessionTokenOf req = Some token /\ token <> ""
          /\ Auth.get token (Auth.sessions st) = Some created
          /\ (Z.of_N now - Z.of_N created < Auth.dayMs)%Z)
  /\ (out = Auth.Next \/ out = Auth.notAuthenticated req)
  /\ Auth.draws st' = Auth.draws st
  /\ (forall token,
        Auth.get token (Auth.sessions st') = Auth.get token (Auth.sessions st)
        \/ (Auth.get token (Auth.sessions st') = None
            /\ Auth.sessionTokenOf req = Some token)).
Proof.
  cbv zeta.
  assert (Hna : Auth.notAuthenticated req <> Auth.Next).
  { unfold Auth.notAuthenticated. destruct (Auth.startsWith _ _); discriminate. }
  unfold Auth.requireAuth.
  destruct (Auth.hasPasswordProtection cfg) eqn:Hp; cbn [negb].
  2:{ cbn [fst snd]. repeat split; auto. }
  destruct (String.eqb_spec (Auth.path req) "/api/auth/login") as [E1 | E1]; cbn [orb].
  { cbn [fst snd]. repeat split; auto. }
  destruct (String.eqb_spec (Auth.path req) "/login.html") as [E2 | E2].
  { cbn [fst snd]. repeat split; auto. }
  assert (Hiff : forall P : Prop, ~ P ->
            (Auth.notAuthenticated req = Auth.Next <->
             true = false \/ Auth.path req = "/api/auth/login"
             \/ Auth.path req = "/login.html" \/ P)).
  { intros P HP. split; [intros H; contradiction | ].
    intros [H | [H | [H | H]]]; [discriminate H | contradiction.. ]. }
  destruct (Auth.sessionTokenOf req) as [[|c r]|] eqn:Ht; cbn [fst snd].
  - split; [apply Hiff; intros (t & cr & E & Hne & _); injection E as <-;
            contradiction Hne; reflexivity|].
    repeat split; auto.
  - destruct (Auth.get (String c r) (Auth.sessions st)) as [created|] eqn:Hget.
    + destruct (Z.ltb_spec (Z.of_N now - Z.of_N created) Auth.dayMs) as [Hlt | Hge];
        cbn [fst snd Auth.sessions Auth.draws].
      * split.
        { split; [intros _ | reflexivity].
          right; right; right. exists (String c r), created.
          repeat split; auto. discriminate. }
        repeat split; auto.
      * split.
        { apply Hiff. intros (t & cr & E & _ & Hg & Hlt).
          injection E as <-. rewrite Hget in Hg. injection Hg as <-. lia. }
        split; [auto|]. split; [reflexivity|].
        intros token. destruct (String.eqb_spec token (String c r)) as [-> | Hne].
        -- right. split; [apply get_delete_same | reflexivity].
        -- left. apply get_delete_other. exact Hne.
    + split.
      { apply Hiff. intros (t & cr & E & _ & Hg & _).
        injection E as <-. rewrite Hget in Hg. discriminate Hg. }
      repeat split; auto.
  - split; [apply Hiff; intros (t & cr & E & _); discriminate E|].
    repeat split; auto.
Qed.

(* ================================================================== *)
(** ** Reference images and the generation request *)
(* ================================================================== *)

(** Unfolds the combinators of the image computations. *)
Ltac unfold_image :=
  cbv beta iota zeta delta
    [NanoBanana.ibind NanoBanana.iret NanoBanana.ithrow NanoBanana.itry
     NanoBanana.iemit NanoBanana.ask NanoBanana.notConfiguredReply
     NanoBanana.runImage];
  cbn [fst snd].

Lemma referencePart_spec (w : NanoBanana.ImageWorld) (refImage : string)
    (t : NanoBanana.Trace) :
  exists parts,
    NanoBanana.referencePart w refImage t
    = (Ok parts,
       t ++ (if NanoBanana.isRemoteReference refImage
             then [NanoBanana.EvFetchReference refImage] else []))
    /\ (List.length parts <= 1)%nat.
Proof.
  unfold NanoBanana.referencePart, NanoBanana.isRemoteReference.
  destruct (String.prefix "data:" refImage); cbn [negb andb].
  - eexists. unfold_image. rewrite app_nil_r. split; [reflexivity | cbn; lia].
  - destruct (String.prefix "http" refImage).
    + unfold_image.
      destruct (NanoBanana.fetchReference w _); eexists;
        (split; [reflexivity | cbn; lia]).
    + eexists. unfold_image. rewrite app_nil_r. split; [reflexivity | cbn; lia].
Qed.

(** The loop over the reference images never throws; it fetches the
    remote references, in order, and pushes at most one part for each
    reference. *)
Lemma referenceParts_spec (w : NanoBanana.ImageWorld) (refImages : list string)
    (t : NanoBanana.Trace) :
  exists parts,
    NanoBanana.referenceParts w refImages t
    = (Ok parts,
       t ++ map NanoBanana.EvFetchReference
              (filter NanoBanana.isRemoteReference refImages))
    /\ (List.length parts <= List.length refImages)%nat.
Proof.
  revert t. induction refImages as [|r rest IH]; intros t.
  - exists []. cbn. rewrite app_nil_r. split; [reflexivity | lia].
  - cbn [NanoBanana.referenceParts]. unfold NanoBanana.ibind at 1.
    destruct (referencePart_spec w r t) as (p & Ep & Lp). rewrite Ep.
    unfold NanoBanana.ibind at 1.
    destruct (IH (t ++ (if NanoBanana.isRemoteReference r
                        then [NanoBanana.EvFetchReference r] else [])))
      as (ps & Eps & Lps).
    rewrite Eps. exists (p ++ ps). unfold NanoBanana.iret.
    split.
    + f_equal. rewrite <- app_assoc. f_equal.
      cbn [filter]. destruct (NanoBanana.isRemoteReference r); reflexivity.
    + rewrite length_app. cbn [List.length]. lia.
Qed.

(** A call of [generateNanoBananaImage]: with a key and valid settings it
    fetches the remote references among the first five, sends one request
    and turns the answer into its result; otherwise it throws at once. *)
Lemma generateNanoBananaImage_spec (w : NanoBanana.ImageWorld)
    (options : NanoBanana.Options) (t : NanoBanana.Trace) :
  if NanoBanana.hasGoogleAI w && NanoBanana.validSettings options then
    exists references,
      (List.length references <= 5)%nat
      /\ NanoBanana.generateNanoBananaImage w options t
         = (NanoBanana.generationOutcome
              (NanoBanana.generateContent w
                 (t ++ NanoBanana.generationEvents options references)),
            t ++ NanoBanana.generationEvents options references)
  else
    exists e, NanoBanana.generateNanoBananaImage w options t = (Throw e, t).
Proof.
  unfold NanoBanana.generateNanoBananaImage, NanoBanana.validSettings.
  destruct (NanoBanana.hasGoogleAI w); cbn [negb andb]; [|eexists; reflexivity].
  destruct (NanoBanana.arrayIncludes NanoBanana.NANO_BANANA_ASPECT_RATIOS _);
    cbn [negb andb]; [|eexists; reflexivity].
  destruct (NanoBanana.arrayIncludes NanoBanana.NANO_BANANA_RESOLUTIONS _);
    cbn [negb]; [|eexists; reflexivity].
  destruct (referenceParts_spec w
              (firstn 5 (NanoBanana.orEmpty [] (NanoBanana.referenceImages options))) t)
    as (refs & E & L).
  exists refs. split.
  { pose proof (length_firstn 5 (NanoBanana.orEmpty [] (NanoBanana.referenceImages options))).
    lia. }
  unfold NanoBanana.ibind at 1. rewrite E.
  unfold NanoBanana.generationEvents, NanoBanana.generationOutcome.
  unfold_image. rewrite <- app_assoc.
  destruct (NanoBanana.generateContent w _) as [e | parts]; [reflexivity|].
  destruct (truthyString _); reflexivity.
Qed.

Lemma arrayIncludes_In (l : list string) (s : string) :
  NanoBanana.arrayIncludes l s = true -> In s l.
Proof.
  unfold NanoBanana.arrayIncludes. intros H.
  apply existsb_exists in H. destruct H as (x & Hin & E).
  apply String.eqb_eq in E. subst x. exact Hin.
Qed.

(** X21: [generateNanoBananaImage] checks its settings before it does
    anything.  Without an API key, or with an aspect ratio or a resolution
    outside the two lists (after the defaults ['9:16'] and ['2K']), it
    throws and has no effect at all.  Otherwise it sends exactly one
    request, as its last effect, whose aspect ratio and image size are
    members of the two lists and whose contents are the prompt followed by
    at most five reference parts; before it, only the [http] references
    among the first five are fetched, in order. *)
Theorem generation_request_is_validated (w : NanoBanana.ImageWorld)
    (options : NanoBanana.Options) :
  let t := NanoBanana.runImage (NanoBanana.generateNanoBananaImage w options) in
  let ratio := NanoBanana.orEmpty "9:16" (NanoBanana.aspectRatio options) in
  let size := NanoBanana.orEmpty "2K" (NanoBanana.resolution options) in
  let remote :=
    filter NanoBanana.isRemoteReference
      (firstn 5 (NanoBanana.orEmpty [] (NanoBanana.referenceImages options))) in
  (NanoBanana.hasGoogleAI w && NanoBanana.validSettings options = false ->
   t = [] /\ exists e,
     fst (NanoBanana.generateNanoBananaImage w options []) = Throw e)
  /\ (NanoBanana.hasGoogleAI w && NanoBanana.validSettings options = true ->
      In ratio NanoBanana.NANO_BANANA_ASPECT_RATIOS
      /\ In size NanoBanana.NANO_BANANA_RESOLUTIONS
      /\ (List.length remote <= 5)%nat
      /\ exists references,
           (List.length references <= 5)%nat
           /\ t = map NanoBanana.EvFetchReference remote
                  ++ [NanoBanana.EvGenerateContent
                        (NanoBanana.orEmpty "gemini-2.5-flash-image"
                           (NanoBanana.model options))
                        (NanoBanana.TextContent (NanoBanana.prompt options) :: references)
                        ratio size]).
Proof.
  cbv zeta. unfold NanoBanana.runImage.
  pose proof (generateNanoBananaImage_spec w options []) as H.
  destruct (NanoBanana.hasGoogleAI w && NanoBanana.validSettings options) eqn:E.
  - split; [discriminate|]. intros _.
    destruct H as (refs & L & H). rewrite H. cbn [snd app].
    apply Bool.andb_true_iff in E. destruct E as [_ E].
    unfold NanoBanana.validSettings in E.
    apply Bool.andb_true_iff in E. destruct E as [E1 E2].
    split; [exact (arrayIncludes_In _ _ E1)|].
    split; [exact (arrayIncludes_In _ _ E2)|].
    split.
    { etransitivity; [apply filter_length_le|].
      rewrite length_firstn. lia. }
    exists refs. split; [exact L | reflexivity].
  - split; [|discriminate]. intros _.
    destruct H as (e & H). rewrite H. split; [reflexivity | exists e; reflexivity].
Qed.

(* ================================================================== *)
(** ** Data URLs *)
(* ================================================================== *)

Lemma afterPrefix_append (p s : string) :
  NanoBanana.afterPrefix p (p ++ s)%string = Some s.
Proof.
  induction p as [|c p IH]; cbn [append NanoBanana.afterPrefix].
  - destruct s; reflexivity.
  - rewrite Ascii.eqb_refl. exact IH.
Qed.

Lemma prefix_append (p s : string) : String.prefix p (p ++ s)%string = true.
Proof.
  induction p as [|c p IH]; cbn [append String.prefix]; [destruct s; reflexivity|].
  destruct (ascii_dec c c) as [_ | N]; [exact IH | contradiction N; reflexivity].
Qed.

Lemma string_append_assoc (a b c : string) :
  ((a ++ b) ++ c)%string = (a ++ (b ++ c))%string.
Proof.
  induction a as [|x a IH]; cbn [append]; [reflexivity | now rewrite IH].
Qed.

(** The pattern finds the MIME type of a header [data:<mime>;...]. *)
Lemma matchDataMime_header (mime rest : string) :
  mime <> "" ->
  Forall (fun c => NanoBanana.notSemicolon c = true) (chars mime) ->
  NanoBanana.matchDataMime ("data:" ++ mime ++ String ";" rest)%string = Some mime.
Proof.
  intros Hne Hm.
  change ("data:" ++ mime ++ String ";" rest)%string
    with (String "d" ("ata:" ++ mime ++ String ";" rest))%string.
  cbn [NanoBanana.matchDataMime].
  change (String "d" ("ata:" ++ mime ++ String ";" rest))%string
    with ("data:" ++ (mime ++ String ";" rest))%string.
  rewrite afterPrefix_append, chars_append.
  change (chars (String ";" rest)) with (";"%char :: chars rest).
  rewrite (takeWhile_app_stop NanoBanana.notSemicolon (chars mime) (chars rest)
             ";"%char Hm eq_refl).
  destruct mime as [|c m]; [contradiction Hne; reflexivity|].
  cbn [chars list_ascii_of_string]. f_equal.
  change (c :: list_ascii_of_string m) with (list_ascii_of_string (String c m)).
  apply string_of_list_ascii_of_string.
Qed.

(** X22: a reference image given as the data URL
    [data:<mime>;base64,<data>] is passed to the model as inline data with
    that MIME type and that payload, without any fetch, whenever the MIME
    type is not empty and contains neither [;] nor [,] and the payload
    contains no [,]. *)
Theorem data_url_reference_round_trip (w : NanoBanana.ImageWorld)
    (mime data : string) (t : NanoBanana.Trace) :
  mime <> "" ->
  Forall (fun c => Ascii.eqb c ";" = false /\ Ascii.eqb c "," = false) (chars mime) ->
  Forall (fun c => Ascii.eqb c "," = false) (chars data) ->
  NanoBanana.referencePart w ("data:" ++ mime ++ ";base64," ++ data)%string t
  = (Ok [NanoBanana.InlineContent mime (Some data)], t).
Proof.
  intros Hne Hmime Hdata.
  assert (Hm1 : Forall (fun c => NanoBanana.notSemicolon c = true) (chars mime)).
  { eapply Forall_impl; [|exact Hmime]. intros c [H _].
    unfold NanoBanana.notSemicolon. now rewrite H. }
  assert (Hm2 : Forall (fun c => Ascii.eqb c "," = false) (chars mime)).
  { eapply Forall_impl; [|exact Hmime]. intros c [_ H]. exact H. }
  assert (Hurl : ("data:" ++ mime ++ ";base64," ++ data)%string
                 = (("data:" ++ mime ++ ";base64") ++ String "," data)%string).
  { rewrite !string_append_assoc. reflexivity. }
  assert (Hheader : Forall (fun c => Ascii.eqb c "," = false)
                      (chars ("data:" ++ mime ++ ";base64")%string)).
  { rewrite !chars_append. apply Forall_app. split; [repeat constructor|].
    apply Forall_app. split; [exact Hm2 | repeat constructor]. }
  unfold NanoBanana.referencePart.
  rewrite prefix_append, Hurl.
  rewrite (splitOn_app_separator "," _ data Hheader).
  rewrite (splitOn_no_separator "," data Hdata).
  cbn [hd nth_error].
  change ("data:" ++ mime ++ ";base64")%string
    with ("data:" ++ mime ++ String ";" "base64")%string.
  rewrite (matchDataMime_header mime "base64" Hne Hm1).
  destruct mime as [|c m]; [contradiction Hne; reflexivity | reflexivity].
Qed.

Lemma data_url_reference_round_trip_witness :
  NanoBanana.referencePart NanoBanana.sampleWorld
    ("data:" ++ "image/webp" ++ ";base64," ++ "UklGRh4AAABXRUJQ")%string []
  = (Ok [NanoBanana.InlineContent "image/webp" (Some "UklGRh4AAABXRUJQ")], []).
Proof.
  apply (data_url_reference_round_trip NanoBanana.sampleWorld
           "image/webp" "UklGRh4AAABXRUJQ" []).
  - discriminate.
  - repeat constructor.
  - repeat constructor.
Defined.

(* ================================================================== *)
(** ** The result of a generation *)
(* ================================================================== *)

Lemma extractResult_fold (parts : list NanoBanana.ResponsePart)
    (acc : NanoBanana.ImageResult) :
  NanoBanana.imageBase64 (fold_left NanoBanana.extractStep parts acc)
  = match NanoBanana.lastInline parts with
    | Some d => NanoBanana.inlineData d
    | None => NanoBanana.imageBase64 acc
    end
  /\ NanoBanana.mimeType (fold_left NanoBanana.extractStep parts acc)
     = match NanoBanana.lastInline parts with
       | Some d => Some (orDefault (NanoBanana.inlineMimeType d) "image/png")
       | None => NanoBanana.mimeType acc
       end.
Proof.
  revert acc. induction parts as [|part rest IH]; intros acc; [split; reflexivity|].
  cbn [fold_left NanoBanana.lastInline].
  destruct (IH (NanoBanana.extractStep acc part)) as [H1 H2]. rewrite H1, H2.
  destruct (NanoBanana.lastInline rest); [split; reflexivity|].
  unfold NanoBanana.extractStep.
  destruct (truthyString (NanoBanana.partText part)); [split; reflexivity|].
  destruct (NanoBanana.partInlineData part); split; reflexivity.
Qed.

Lemma orDefault_not_empty (v : option string) (d : string) :
  d <> "" -> orDefault v d <> "".
Proof.
  intros Hd. destruct v as [[|c r]|]; cbn [orDefault]; (exact Hd || discriminate).
Qed.

(** X23: the image a generation returns is that of the last part of the
    response that carries inline data and no text: an earlier image is
    replaced, also by a part whose data is missing.  A result that is
    returned has a payload that is not empty and a MIME type that is not
    empty (['image/png'] when the part names none), so the data URL built
    from it is [data:<mime>;base64,<payload>]; otherwise the call throws
    instead of returning. *)
Theorem returned_image_is_the_last_inline_part (w : NanoBanana.ImageWorld)
    (options : NanoBanana.Options) (t : NanoBanana.Trace)
    (result : NanoBanana.ImageResult) :
  fst (NanoBanana.generateNanoBananaImage w options t) = Ok result ->
  exists references parts inline payload,
    NanoBanana.generateContent w (t ++ NanoBanana.generationEvents options references)
    = inr parts
    /\ NanoBanana.lastInline parts = Some inline
    /\ NanoBanana.inlineData inline = Some payload /\ payload <> ""
    /\ NanoBanana.imageBase64 result = Some payload
    /\ NanoBanana.mimeType result
       = Some (orDefault (NanoBanana.inlineMimeType inline) "image/png")
    /\ orDefault (NanoBanana.inlineMimeType inline) "image/png" <> ""
    /\ NanoBanana.dataUrl result
       = ("data:" ++ orDefault (NanoBanana.inlineMimeType inline) "image/png"
            ++ ";base64," ++ payload)%string.
Proof.
  intros Hok.
  pose proof (generateNanoBananaImage_spec w options t) as H.
  destruct (NanoBanana.hasGoogleAI w && NanoBanana.validSettings options).
  2:{ destruct H as (e & H). rewrite H in Hok. discriminate Hok. }
  destruct H as (refs & _ & H). rewrite H in Hok. cbn [fst] in Hok.
  unfold NanoBanana.generationOutcome in Hok.
  destruct (NanoBanana.generateContent w _) as [e | parts] eqn:Eg; [discriminate Hok|].
  destruct (truthyString (NanoBanana.imageBase64 (NanoBanana.extractResult parts)))
    eqn:Et; [|discriminate Hok].
  injection Hok as <-.
  destruct (extractResult_fold parts (NanoBanana.mkImageResult None None None))
    as [H1 H2].
  fold (NanoBanana.extractResult parts) in H1, H2.
  rewrite H1 in Et.
  destruct (NanoBanana.lastInline parts) as [inline|] eqn:El; [|discriminate Et].
  destruct (NanoBanana.inlineData inline) as [[|c payload]|] eqn:Ed;
    try discriminate Et.
  exists refs, parts, inline, (String c payload).
  split; [exact Eg|]. split; [exact El|]. split; [exact Ed|].
  split; [discriminate|]. split; [exact H1|]. split; [exact H2|].
  split; [apply orDefault_not_empty; discriminate|].
  unfold NanoBanana.dataUrl. rewrite H1, H2. reflexivity.
Qed.

Lemma returned_image_is_the_last_inline_part_witness :
  exists references parts inline payload,
    NanoBanana.generateContent NanoBanana.sampleWorld
      ([] ++ NanoBanana.generationEvents
               (NanoBanana.mkOptions (Some "goblina waves") None None None None)
               references)
    = inr parts
    /\ NanoBanana.lastInline parts = Some inline
    /\ NanoBanana.inlineData inline = Some payload /\ payload <> ""
    /\ NanoBanana.imageBase64
         (NanoBanana.mkImageResult (Some "iVBORw0KGgo") (Some "image/png")
            (Some "Here is your scene."))
       = Some payload
    /\ NanoBanana.mimeType
         (NanoBanana.mkImageResult (Some "iVBORw0KGgo") (Some "image/png")
            (Some "Here is your scene."))
       = Some (orDefault (NanoBanana.inlineMimeType inline) "image/png")
    /\ orDefault (NanoBanana.inlineMimeType inline) "image/png" <> ""
    /\ NanoBanana.dataUrl
         (NanoBanana.mkImageResult (Some "iVBORw0KGgo") (Some "image/png")
            (Some "Here is your scene."))
       = ("data:" ++ orDefault (NanoBanana.inlineMimeType inline) "image/png"
            ++ ";base64," ++ payload)%string.
Proof.
  apply (returned_image_is_the_last_inline_part NanoBanana.sampleWorld
           (NanoBanana.mkOptions (Some "goblina waves") None None None None) []
           (NanoBanana.mkImageResult (Some "iVBORw0KGgo") (Some "image/png")
              (Some "Here is your scene."))).
  reflexivity.
Defined.

(* ================================================================== *)
(** ** The batch of scenes *)
(* ================================================================== *)

Lemma delays_app (a b : NanoBanana.Trace) :
  NanoBanana.delays (a ++ b) = NanoBanana.delays a ++ NanoBanana.delays b.
Proof.
  induction a as [|e a IH]; cbn [app NanoBanana.delays]; [reflexivity|].
  destruct e; cbn [app]; rewrite ?IH; reflexivity.
Qed.

Lemma imageReplies_app (a b : NanoBanana.Trace) :
  NanoBanana.imageReplies (a ++ b)
  = NanoBanana.imageReplies a ++ NanoBanana.imageReplies b.
Proof.
  induction a as [|e a IH]; cbn [app NanoBanana.imageReplies]; [reflexivity|].
  destruct e; cbn [app]; rewrite ?IH; reflexivity.
Qed.

Lemma generations_app (a b : NanoBanana.Trace) :
  NanoBanana.generations (a ++ b)
  = NanoBanana.generations a ++ NanoBanana.generations b.
Proof.
  induction a as [|e a IH]; cbn [app NanoBanana.generations]; [reflexivity|].
  destruct e; cbn [app]; rewrite ?IH; reflexivity.
Qed.

(** The events of a call with valid settings hold one request, no delay
    and no reply. *)
Lemma generationEvents_observed (options : NanoBanana.Options)
    (references : list NanoBanana.ContentPart) :
  NanoBanana.delays (NanoBanana.generationEvents options references) = []
  /\ NanoBanana.imageReplies (NanoBanana.generationEvents options references) = []
  /\ List.length (NanoBanana.generations (NanoBanana.generationEvents options references))
     = 1%nat.
Proof.
  unfold NanoBanana.generationEvents.
  generalize (filter NanoBanana.isRemoteReference
                (firstn 5 (NanoBanana.orEmpty [] (NanoBanana.referenceImages options)))).
  intros urls.
  rewrite delays_app, imageReplies_app, generations_app.
  cbn [NanoBanana.delays NanoBanana.imageReplies NanoBanana.generations List.length].
  assert (H : NanoBanana.delays (map NanoBanana.EvFetchReference urls) = []
              /\ NanoBanana.imageReplies (map NanoBanana.EvFetchReference urls) = []
              /\ NanoBanana.generations (map NanoBanana.EvFetchReference urls) = []).
  { induction urls as [|u urls IH]; [repeat split | exact IH]. }
  destruct H as (-> & -> & ->). repeat split.
Qed.

(** One turn of the loop never throws: it pushes an entry that carries
    its index, sends one request when the settings of the scene are valid
    and none otherwise, replies nothing, and sleeps 500 ms unless the scene
    is the last one. *)
Lemma generateScene_spec (w : NanoBanana.ImageWorld) (ctx : NanoBanana.BatchContext)
    (i : nat) (scene : NanoBanana.Scene) (t : NanoBanana.Trace) :
  exists entry added,
    NanoBanana.generateScene w ctx i scene t = (Ok entry, t ++ added)
    /\ NanoBanana.sceneIndex entry = i
    /\ NanoBanana.delays added
       = (if (i <? NanoBanana.ctxTotal ctx - 1)%nat then [500%N] else [])
    /\ NanoBanana.imageReplies added = []
    /\ List.length (NanoBanana.generations added)
       = (if NanoBanana.hasGoogleAI w
             && NanoBanana.validSettings (NanoBanana.sceneOptions w ctx scene)
          then 1%nat else 0%nat).
Proof.
  unfold NanoBanana.generateScene.
  pose proof (generateNanoBananaImage_spec w (NanoBanana.sceneOptions w ctx scene) t) as H.
  destruct (NanoBanana.hasGoogleAI w
            && NanoBanana.validSettings (NanoBanana.sceneOptions w ctx scene)).
  - destruct H as (refs & _ & H).
    destruct (generationEvents_observed (NanoBanana.sceneOptions w ctx scene) refs)
      as (D & R & G).
    unfold NanoBanana.ibind at 1, NanoBanana.itry, NanoBanana.ibind at 1.
    rewrite H.
    destruct (NanoBanana.generationOutcome _) as [result | e].
    + unfold NanoBanana.saveToCloudinary.
      destruct (NanoBanana.hasCloudinary w
                && truthyString (NanoBanana.imageBase64 result)); unfold_image.
      * destruct (NanoBanana.cloudinaryUpload w _) as [e | url];
          destruct (i <? NanoBanana.ctxTotal ctx - 1)%nat; unfold_image;
          eexists _, _; rewrite <- ?app_assoc;
          (split; [reflexivity|]);
          rewrite ?delays_app, ?imageReplies_app, ?generations_app, ?D, ?R, ?G,
            ?length_app;
          repeat split; try reflexivity; rewrite G; reflexivity.
      * destruct (i <? NanoBanana.ctxTotal ctx - 1)%nat; unfold_image;
          eexists _, _; rewrite <- ?app_assoc;
          (split; [reflexivity|]);
          rewrite ?delays_app, ?imageReplies_app, ?generations_app, ?D, ?R,
            ?length_app, ?app_nil_r;
          repeat split; try reflexivity; rewrite ?G; reflexivity.
    + destruct (i <? NanoBanana.ctxTotal ctx - 1)%nat; unfold_image;
        eexists _, _; rewrite <- ?app_assoc;
        (split; [reflexivity|]);
        rewrite ?delays_app, ?imageReplies_app, ?generations_app, ?D, ?R,
          ?length_app, ?app_nil_r;
        repeat split; try reflexivity; rewrite ?G; reflexivity.
  - destruct H as (e & H).
    unfold NanoBanana.ibind at 1, NanoBanana.itry, NanoBanana.ibind at 1.
    rewrite H.
    destruct (i <? NanoBanana.ctxTotal ctx - 1)%nat; unfold_image.
    + eexists _, _. split; [reflexivity|]. repeat split; reflexivity.
    + exists (NanoBanana.SceneError i (message e)), [].
      rewrite app_nil_r. repeat split; reflexivity.
Qed.

(** The loop over the scenes still to do, from index [i] on. *)
Lemma generateScenes_spec (w : NanoBanana.ImageWorld) (ctx : NanoBanana.BatchContext)
    (scenes : list NanoBanana.Scene) (i : nat) (t : NanoBanana.Trace) :
  (i + List.length scenes)%nat = NanoBanana.ctxTotal ctx ->
  exists results added,
    NanoBanana.generateScenes w ctx i scenes t = (Ok results, t ++ added)
    /\ map NanoBanana.sceneIndex results = seq i (List.length scenes)
    /\ NanoBanana.delays added = repeat 500%N (List.length scenes - 1)
    /\ NanoBanana.imageReplies added = []
    /\ List.length (NanoBanana.generations added)
       = List.length
           (filter (fun scene =>
                      NanoBanana.hasGoogleAI w
                      && NanoBanana.validSettings (NanoBanana.sceneOptions w ctx scene))
              scenes).
Proof.
  revert i t. induction scenes as [|scene rest IH]; intros i t Htotal.
  - exists [], []. cbn. rewrite app_nil_r. repeat split.
  - cbn [NanoBanana.generateScenes List.length] in *.
    destruct (generateScene_spec w ctx i scene t) as (entry & a1 & E1 & I1 & D1 & R1 & G1).
    destruct (IH (S i) (t ++ a1)) as (results & a2 & E2 & I2 & D2 & R2 & G2); [lia|].
    exists (entry :: results), (a1 ++ a2).
    unfold NanoBanana.ibind at 1. rewrite E1.
    unfold NanoBanana.ibind at 1. rewrite E2.
    unfold NanoBanana.iret. rewrite <- app_assoc.
    split; [reflexivity|].
    split; [cbn [map seq]; rewrite I1, I2; reflexivity|].
    rewrite delays_app, imageReplies_app, generations_app, length_app, D1, D2, R1, R2,
      G1, G2.
    split.
    { replace (S (List.length rest) - 1)%nat with (List.length rest) by lia.
      destruct rest as [|scene' rest'].
      - cbn [List.length] in *.
        replace (i <? NanoBanana.ctxTotal ctx - 1)%nat with false; [reflexivity|].
        symmetry. apply Nat.ltb_ge. lia.
      - cbn [List.length] in *.
        replace (i <? NanoBanana.ctxTotal ctx - 1)%nat with true.
        + replace (S (List.length rest') - 1)%nat with (List.length rest') by lia.
          reflexivity.
        + symmetry. apply Nat.ltb_lt. lia. }
    split; [reflexivity|].
    cbn [filter].
    destruct (NanoBanana.hasGoogleAI w
              && NanoBanana.validSettings (NanoBanana.sceneOptions w ctx scene));
      reflexivity.
Qed.

(** The batch route past its two guards: the loop, then the one reply. *)
Lemma generateBatch_trace (w : NanoBanana.ImageWorld) (body : NanoBanana.BatchBody)
    (scenes : list NanoBanana.Scene) :
  NanoBanana.hasGoogleAI w = true ->
  NanoBanana.batchScenes body = Some scenes -> scenes <> [] ->
  exists results added,
    NanoBanana.runImage (NanoBanana.generateBatch w body)
    = added ++ [NanoBanana.EvReply 200 (NanoBanana.batchReply body results)]
    /\ map NanoBanana.sceneIndex results = seq 0 (List.length scenes)
    /\ NanoBanana.delays added = repeat 500%N (List.length scenes - 1)
    /\ NanoBanana.imageReplies added = []
    /\ List.length (NanoBanana.generations added)
       = List.length
           (filter (fun scene =>
                      NanoBanana.validSettings
                        (NanoBanana.sceneOptions w (NanoBanana.batchContext body) scene))
              scenes).
Proof.
  intros Hc Hs Hne.
  destruct (generateScenes_spec w (NanoBanana.batchContext body) scenes 0 [])
    as (results & added & E & I & D & R & G).
  { unfold NanoBanana.batchContext. cbn [NanoBanana.ctxTotal]. rewrite Hs. reflexivity. }
  exists results, added.
  split.
  - unfold NanoBanana.runImage, NanoBanana.generateBatch, NanoBanana.itry.
    rewrite Hc. cbn [negb]. rewrite Hs. cbn [NanoBanana.orEmpty].
    destruct scenes as [|scene rest]; [contradiction Hne; reflexivity|].
    cbn [List.length Nat.eqb].
    unfold NanoBanana.ibind at 1.
    unfold NanoBanana.batchContext in E. rewrite Hs in E.
    cbn [NanoBanana.orEmpty List.length] in E. rewrite E.
    unfold NanoBanana.iemit, NanoBanana.batchReply. rewrite Hs.
    cbn [snd app NanoBanana.orEmpty List.length]. reflexivity.
  - rewrite G. split; [exact I|]. split; [exact D|]. split; [exact R|].
    rewrite Hc. reflexivity.
Qed.

Lemma filter_split_length {A} (p : A -> bool) (l : list A) :
  (List.length (filter p l) + List.length (filter (fun a => negb (p a)) l))%nat
  = List.length l.
Proof.
  induction l as [|a l IH]; [reflexivity|].
  cbn [filter]. destruct (p a); cbn [negb List.length]; lia.
Qed.

(** X24: with an API key and at least one scene, the batch route answers
    200 once, as its last effect, whatever happens to the single scenes.
    [results] holds one entry for each scene, in the order of the scenes,
    and entry [i] carries [index: i]; [totalScenes] is the number of
    scenes, [successCount] the number of entries with an image,
    [failedCount] the number of entries with an error, and [success] tells
    whether at least one scene succeeded. *)
Theorem batch_reports_every_scene (w : NanoBanana.ImageWorld)
    (body : NanoBanana.BatchBody) (scenes : list NanoBanana.Scene) :
  NanoBanana.hasGoogleAI w = true ->
  NanoBanana.batchScenes body = Some scenes -> scenes <> [] ->
  exists results added success successCount failedCount model ratio size,
    NanoBanana.runImage (NanoBanana.generateBatch w body)
    = added ++ [NanoBanana.EvReply 200
                  (NanoBanana.Batch success (List.length scenes) successCount
                     failedCount results model ratio size)]
    /\ NanoBanana.imageReplies added = []
    /\ List.length results = List.length scenes
    /\ map NanoBanana.sceneIndex results = seq 0 (List.length scenes)
    /\ successCount = List.length (filter NanoBanana.sceneSucceeded results)
    /\ failedCount
       = Z.of_nat (List.length
                     (filter (fun r => negb (NanoBanana.sceneSucceeded r)) results))
    /\ (Z.of_nat successCount + failedCount = Z.of_nat (List.length scenes))%Z
    /\ (success = true <-> exists r, In r results /\ NanoBanana.sceneSucceeded r = true).
Proof.
  intros Hc Hs Hne.
  destruct (generateBatch_trace w body scenes Hc Hs Hne)
    as (results & added & E & I & _ & R & _).
  assert (L : List.length results = List.length scenes).
  { rewrite <- (length_map NanoBanana.sceneIndex results), I. apply length_seq. }
  pose proof (filter_split_length NanoBanana.sceneSucceeded results) as Hsplit.
  unfold NanoBanana.batchReply in E. rewrite Hs in E. cbn [NanoBanana.orEmpty] in E.
  eexists results, added, _, _, _, _, _, _.
  split; [exact E|]. split; [exact R|]. split; [exact L|]. split; [exact I|].
  split; [reflexivity|].
  split; [lia|]. split; [lia|].
  split.
  - intros H. apply Nat.ltb_lt in H.
    destruct (filter NanoBanana.sceneSucceeded results) as [|r rs] eqn:Ef;
      [cbn in H; lia|].
    assert (Hin : In r (filter NanoBanana.sceneSucceeded results))
      by (rewrite Ef; left; reflexivity).
    apply filter_In in Hin. exists r. exact Hin.
  - intros (r & Hin & Hr). apply Nat.ltb_lt.
    assert (Hf : In r (filter NanoBanana.sceneSucceeded results))
      by (apply filter_In; split; assumption).
    destruct (filter NanoBanana.sceneSucceeded results); [contradiction Hf|].
    cbn [List.length]. lia.
Qed.

Lemma batch_reports_every_scene_witness :
  exists results added success successCount failedCount model ratio size,
    NanoBanana.runImage (NanoBanana.generateBatch NanoBanana.sampleWorld
                           NanoBanana.sampleBatch)
    = added ++ [NanoBanana.EvReply 200
                  (NanoBanana.Batch success
                     (List.length
                        (NanoBanana.orEmpty [] (NanoBanana.batchScenes NanoBanana.sampleBatch)))
                     successCount failedCount results model ratio size)]
    /\ NanoBanana.imageReplies added = []
    /\ List.length results
       = List.length
           (NanoBanana.orEmpty [] (NanoBanana.batchScenes NanoBanana.sampleBatch))
    /\ map NanoBanana.sceneIndex results
       = seq 0 (List.length
                  (NanoBanana.orEmpty [] (NanoBanana.batchScenes NanoBanana.sampleBatch)))
    /\ successCount = List.length (filter NanoBanana.sceneSucceeded results)
    /\ failedCount
       = Z.of_nat (List.length
                     (filter (fun r => negb (NanoBanana.sceneSucceeded r)) results))
    /\ (Z.of_nat successCount + failedCount
        = Z.of_nat (List.length
                      (NanoBanana.orEmpty []
                         (NanoBanana.batchScenes NanoBanana.sampleBatch))))%Z
    /\ (success = true <-> exists r, In r results /\ NanoBanana.sceneSucceeded r = true).
Proof.
  apply (batch_reports_every_scene NanoBanana.sampleWorld NanoBanana.sampleBatch
           (NanoBanana.orEmpty [] (NanoBanana.batchScenes NanoBanana.sampleBatch))).
  - reflexivity.
  - reflexivity.
  - discriminate.
Defined.

(** X25: with an API key and at least one scene, the batch route sleeps
    500 ms after every scene but the last, also after a scene that failed,
    and never otherwise; and it sends exactly one generation request for
    each scene whose own settings (its aspect ratio and resolution, or
    else those of the batch) are valid, whatever became of the scenes
    before it. *)
Theorem batch_paces_and_isolates_scenes (w : NanoBanana.ImageWorld)
    (body : NanoBanana.BatchBody) (scenes : list NanoBanana.Scene) :
  NanoBanana.hasGoogleAI w = true ->
  NanoBanana.batchScenes body = Some scenes -> scenes <> [] ->
  let t := NanoBanana.runImage (NanoBanana.generateBatch w body) in
  NanoBanana.delays t = repeat 500%N (List.length scenes - 1)
  /\ List.length (NanoBanana.generations t)
     = List.length
         (filter (fun scene =>
                    NanoBanana.validSettings
                      (NanoBanana.sceneOptions w (NanoBanana.batchContext body) scene))
            scenes)
  /\ (exists code reply, last t (NanoBanana.EvDelay 0) = NanoBanana.EvReply code reply).
Proof.
  intros Hc Hs Hne. cbv zeta.
  destruct (generateBatch_trace w body scenes Hc Hs Hne)
    as (results & added & E & _ & D & _ & G).
  rewrite E, delays_app, generations_app, length_app, D, G.
  cbn [NanoBanana.delays NanoBanana.generations List.length].
  rewrite app_nil_r, Nat.add_0_r.
  split; [reflexivity|]. split; [reflexivity|].
  rewrite last_last. eexists _, _. reflexivity.
Qed.

Lemma batch_paces_and_isolates_scenes_witness :
  let w := NanoBanana.sampleWorld in
  let body := NanoBanana.sampleBatch in
  let scenes := NanoBanana.orEmpty [] (NanoBanana.batchScenes body) in
  let t := NanoBanana.runImage (NanoBanana.generateBatch w body) in
  NanoBanana.delays t = repeat 500%N (List.length scenes - 1)
  /\ List.length (NanoBanana.generations t)
     = List.length
         (filter (fun scene =>
                    NanoBanana.validSettings
                      (NanoBanana.sceneOptions w (NanoBanana.batchContext body) scene))
            scenes)
  /\ (exists code reply, last t (NanoBanana.EvDelay 0) = NanoBanana.EvReply code reply).
Proof.
  apply (batch_paces_and_isolates_scenes NanoBanana.sampleWorld NanoBanana.sampleBatch
           (NanoBanana.orEmpty [] (NanoBanana.batchScenes NanoBanana.sampleBatch))).
  - reflexivity.
  - reflexivity.
  - discriminate.
Defined.

(* ================================================================== *)
(** ** The single image route *)
(* ================================================================== *)

Lemma uploads_app (a b : NanoBanana.Trace) :
  NanoBanana.uploads (a ++ b) = NanoBanana.uploads a ++ NanoBanana.uploads b.
Proof.
  induction a as [|e a IH]; cbn [app NanoBanana.uploads]; [reflexivity|].
  destruct e; cbn [app]; rewrite ?IH; reflexivity.
Qed.

Lemma generationEvents_uploads (options : NanoBanana.Options)
    (references : list NanoBanana.ContentPart) :
  NanoBanana.uploads (NanoBanana.generationEvents options references) = [].
Proof.
  unfold NanoBanana.generationEvents.
  generalize (filter NanoBanana.isRemoteReference
                (firstn 5 (NanoBanana.orEmpty [] (NanoBanana.referenceImages options)))).
  intros urls. rewrite uploads_app. cbn [NanoBanana.uploads]. rewrite app_nil_r.
  induction urls as [|u urls IH]; [reflexivity | exact IH].
Qed.

(** X26: in [POST /api/images/generate], with an API key and a prompt, the
    reply depends on the generation alone.  When [generateNanoBananaImage]
    returns an image the reply is 200 with that image, whether the upload
    to Cloudinary is switched off, fails or succeeds: a failed upload only
    leaves [imageUrl] empty.  The image is uploaded at most once, and only
    when saving is asked for and Cloudinary is configured.  When the
    generation throws, nothing is uploaded and the reply is 500 with the
    message of the error. *)
Theorem image_reply_survives_upload_failure (w : NanoBanana.ImageWorld)
    (body : NanoBanana.GenerateBody) :
  NanoBanana.hasGoogleAI w = true ->
  truthyString (NanoBanana.bodyPrompt body) = true ->
  let t := NanoBanana.runImage (NanoBanana.generateImage w body) in
  let saving :=
    NanoBanana.orEmpty true (NanoBanana.bodySaveToCloudinary body)
    && NanoBanana.hasCloudinary w in
  match fst (NanoBanana.generateNanoBananaImage w (NanoBanana.imageOptions w body) []) with
  | Ok result =>
      NanoBanana.uploads t = (if saving then [NanoBanana.dataUrl result] else [])
      /\ exists imageUrl,
           NanoBanana.imageReplies t
           = [(200%N,
               NanoBanana.Generated result imageUrl
                 (NanoBanana.orEmpty "gemini-2.5-flash-image" (NanoBanana.bodyModel body))
                 (NanoBanana.orEmpty "9:16" (NanoBanana.bodyAspectRatio body))
                 (NanoBanana.orEmpty "2K" (NanoBanana.bodyResolution body)))]
           /\ (imageUrl <> None -> saving = true)
  | Throw e =>
      NanoBanana.uploads t = []
      /\ NanoBanana.imageReplies t
         = [(500%N, NanoBanana.Failure "Failed to generate image" (Some (message e)))]
  end.
Proof.
  intros Hc Hp. cbv zeta.
  unfold NanoBanana.generateImage. rewrite Hc, Hp. cbn [negb].
  pose proof (generateNanoBananaImage_spec w (NanoBanana.imageOptions w body) []) as H.
  rewrite Hc in H. cbn [andb] in H.
  unfold NanoBanana.saveToCloudinary. unfold_image.
  destruct (NanoBanana.validSettings (NanoBanana.imageOptions w body)).
  2:{ destruct H as (e & H). rewrite H. cbn [fst snd]. split; reflexivity. }
  destruct H as (refs & _ & H). rewrite H. cbn [fst snd app].
  pose proof (generationEvents_uploads (NanoBanana.imageOptions w body) refs) as U.
  destruct (generationEvents_observed (NanoBanana.imageOptions w body) refs)
    as (_ & R & _).
  destruct (NanoBanana.generationOutcome _) as [result | e] eqn:Eo.
  2:{ cbn [snd]. rewrite uploads_app, imageReplies_app, U, R. split; reflexivity. }
  assert (Ht : truthyString (NanoBanana.imageBase64 result) = true).
  { unfold NanoBanana.generationOutcome in Eo.
    destruct (NanoBanana.generateContent w _) as [e | parts]; [discriminate Eo|].
    destruct (truthyString (NanoBanana.imageBase64 (NanoBanana.extractResult parts)))
      eqn:Et; [|discriminate Eo].
    injection Eo as <-. exact Et. }
  rewrite Ht, Bool.andb_true_r.
  destruct (NanoBanana.orEmpty true (NanoBanana.bodySaveToCloudinary body)
            && NanoBanana.hasCloudinary w).
  - destruct (NanoBanana.cloudinaryUpload w _) as [e | url]; cbn [fst snd];
      rewrite !uploads_app, !imageReplies_app, U, R;
      (split; [reflexivity|]); eexists; (split; [reflexivity|]); reflexivity || auto.
  - cbn [fst snd]. rewrite !uploads_app, !imageReplies_app, U, R.
    split; [reflexivity|]. exists None. split; [reflexivity|].
    intros N. contradiction N. reflexivity.
Qed.

Lemma image_reply_survives_upload_failure_witness :
  let w := NanoBanana.uploadFails in
  let body := NanoBanana.sampleBody in
  let t := NanoBanana.runImage (NanoBanana.generateImage w body) in
  let saving :=
    NanoBanana.orEmpty true (NanoBanana.bodySaveToCloudinary body)
    && NanoBanana.hasCloudinary w in
  match fst (NanoBanana.generateNanoBananaImage w (NanoBanana.imageOptions w body) []) with
  | Ok result =>
      NanoBanana.uploads t = (if saving then [NanoBanana.dataUrl result] else [])
      /\ exists imageUrl,
           NanoBanana.imageReplies t
           = [(200%N,
               NanoBanana.Generated result imageUrl
                 (NanoBanana.orEmpty "gemini-2.5-flash-image" (NanoBanana.bodyModel body))
                 (NanoBanana.orEmpty "9:16" (NanoBanana.bodyAspectRatio body))
                 (NanoBanana.orEmpty "2K" (NanoBanana.bodyResolution body)))]
           /\ (imageUrl <> None -> saving = true)
  | Throw e =>
      NanoBanana.uploads t = []
      /\ NanoBanana.imageReplies t
         = [(500%N, NanoBanana.Failure "Failed to generate image" (Some (message e)))]
  end.
Proof.
  apply (image_reply_survives_upload_failure NanoBanana.uploadFails NanoBanana.sampleBody).
  - reflexivity.
  - reflexivity.
Defined.

(* ================================================================== *)
(** ** The enhanced prompt *)
(* ================================================================== *)

(** Joining a list puts each element between what comes before it and the
    join of what comes after it. *)
Lemma concat_split (sep : string) (l : list string) (x : string) (rest : list string) :
  exists pre,
    String.concat sep (l ++ x :: rest)
    = (pre ++ x ++ match rest with
                   | [] => ""
                   | _ :: _ => sep ++ String.concat sep rest
                   end)%string.
Proof.
  induction l as [|a l IH].
  - exists "". destruct rest; cbn [app String.concat append]; [|reflexivity].
    induction x as [|c x IHx]; cbn [append]; [reflexivity | now rewrite <- IHx].
  - destruct IH as (pre & IH). exists (a ++ sep ++ pre)%string.
    cbn [app]. destruct (l ++ x :: rest) as [|b l'] eqn:E.
    + destruct l; discriminate E.
    + change (String.concat sep (a :: b :: l'))
        with (a ++ sep ++ String.concat sep (b :: l'))%string.
      rewrite IH, !string_append_assoc. reflexivity.
Qed.

(** The shape of the join that makes the enhanced prompt. *)
Lemma enhanced_prompt_shape (sep : string) (A : list string)
    (context description prompt tail camera quality : string) :
  exists before between after,
    String.concat sep
      (A ++ [context]
         ++ (if truthyString (Some description) then [description] else [])
         ++ [("SCENE ACTION: " ++ prompt ++ tail)%string] ++ [camera] ++ [quality])
    = (before ++ description ++ between ++ "SCENE ACTION: " ++ prompt ++ after)%string.
Proof.
  set (action := ("SCENE ACTION: " ++ prompt ++ tail)%string).
  destruct (truthyString (Some description)) eqn:Et.
  - destruct (concat_split sep (A ++ [context]) description [action; camera; quality])
      as (pre & E).
    rewrite <- app_assoc in E. cbn [app] in E |- *.
    exists pre, sep, (tail ++ sep ++ camera ++ sep ++ quality)%string.
    rewrite E. cbn [String.concat]. subst action.
    rewrite !string_append_assoc. reflexivity.
  - assert (Ed : description = "").
    { destruct description; [reflexivity | discriminate Et]. }
    rewrite Ed.
    destruct (concat_split sep (A ++ [context]) action [camera; quality]) as (pre & E).
    rewrite <- app_assoc in E. cbn [app] in E |- *.
    exists pre, "", (tail ++ sep ++ camera ++ sep ++ quality)%string.
    rewrite E. cbn [String.concat append]. subst action.
    rewrite !string_append_assoc. reflexivity.
Qed.

(** X27: the enhanced prompt keeps what it was given: it contains the
    character description unchanged and, after it, the line
    [SCENE ACTION: <prompt>] with the prompt of the scene unchanged
    ([undefined] when the scene has none), whatever the other options
    are. *)
Theorem enhanced_prompt_keeps_description_and_scene
    (inheritedMemberText : string -> option string) (basePrompt : option string)
    (options : NanoBanana.EnhanceOptions) :
  exists before between after,
    NanoBanana.enhancePromptForNanoBanana inheritedMemberText basePrompt options
    = (before
         ++ NanoBanana.orEmpty "" (NanoBanana.optCharacterDescription options)
         ++ between
         ++ "SCENE ACTION: " ++ NanoBanana.templateValue basePrompt
         ++ after)%string.
Proof.
  unfold NanoBanana.enhancePromptForNanoBanana. cbv zeta.
  apply enhanced_prompt_shape.
Qed.

(* ================================================================== *)
(** ** The shape of a session token *)
(* ================================================================== *)

Lemma concat_singletons {A} (f : A -> string) (P : ascii -> Prop) (l : list A) :
  (forall a, exists c, f a = String c EmptyString /\ P c) ->
  String.length (String.concat "" (map f l)) = List.length l
  /\ Forall P (chars (String.concat "" (map f l))).
Proof.
  intros H. induction l as [|a l [IH1 IH2]]; [split; [reflexivity | constructor]|].
  destruct (H a) as (c & E & Hc).
  cbn [map]. destruct l as [|b l].
  - cbn [map String.concat]. rewrite E. split; [reflexivity | repeat constructor; exact Hc].
  - change (String.concat "" (f a :: map f (b :: l)))
      with (f a ++ "" ++ String.concat "" (map f (b :: l)))%string.
    rewrite E. cbn [append String.length chars list_ascii_of_string List.length].
    split; [now rewrite IH1 | constructor; [exact Hc | exact IH2]].
Qed.

(** X28: when every random value is printed in base 36 as [0.] followed
    by at least one digit, a session token has exactly 32 characters, each
    of them a digit [0-9] or a letter [a-z]. *)
Theorem session_token_has_32_digits (cfg : Auth.Config) (k : nat) :
  (forall i, exists digits,
     Auth.random36 cfg i = ("0." ++ digits)%string /\ digits <> ""
     /\ Forall (fun c => Auth.digit36 c = true) (chars digits)) ->
  String.length (Auth.generateSessionToken cfg k) = 32%nat
  /\ Forall (fun c => Auth.digit36 c = true) (chars (Auth.generateSessionToken cfg k)).
Proof.
  intros H. unfold Auth.generateSessionToken.
  change 32%nat with (List.length (seq 0 32)) at 2.
  apply concat_singletons. intros i.
  destruct (H (k + i)%nat) as (digits & E & Hne & Hd).
  destruct digits as [|d digits]; [contradiction Hne; reflexivity|].
  exists d. rewrite E. split; [reflexivity|].
  inversion Hd; assumption.
Qed.

Lemma session_token_has_32_digits_witness :
  String.length (Auth.generateSessionToken Auth.sampleConfig 0) = 32%nat
  /\ Forall (fun c => Auth.digit36 c = true)
       (chars (Auth.generateSessionToken Auth.sampleConfig 0)).
Proof.
  apply (session_token_has_32_digits Auth.sampleConfig 0).
  intros i. exists "k7f3". split; [reflexivity|]. split; [discriminate|].
  repeat constructor.
Defined.

(* ================================================================== *)
(** ** Where the temporary files are written *)
(* ================================================================== *)

Lemma extensionOf_cases (contentType : string) :
  extensionOf contentType = "png" \/ extensionOf contentType = "webp"
  \/ extensionOf contentType = "jpg".
Proof.
  unfold extensionOf. destruct (includes contentType "png"); [auto|].
  destruct (includes contentType "webp"); auto.
Qed.

(** X29: the files the generate routes write are written directly into
    [uploads/], whatever the path and name of the upload and whatever the
    content type of a fetched image: the path of a resized derivative and
    that of a fetched copy are [uploads/] followed by one non-empty path
    segment without any [/], which [path.basename] gives back. *)
Theorem temporary_files_stay_in_uploads (stamp : N) (imagePath contentType : string) :
  (exists segment,
     resizedPath stamp imagePath = ("uploads/" ++ segment)%string
     /\ segment <> ""
     /\ Forall (fun c => c <> "/"%char) (chars segment)
     /\ basename (resizedPath stamp imagePath) = segment)
  /\ (exists segment,
        fetchedPath stamp (extensionOf contentType) = ("uploads/" ++ segment)%string
        /\ segment <> ""
        /\ Forall (fun c => c <> "/"%char) (chars segment)
        /\ basename (fetchedPath stamp (extensionOf contentType)) = segment).
Proof.
  assert (Hslash : forall l, Forall (fun c => notSlash c = true) l ->
                             Forall (fun c => c <> "/"%char) l).
  { intros l H. eapply Forall_impl; [|exact H]. intros c Hc E. subst c.
    discriminate Hc. }
  assert (Hbase : forall segment,
            segment <> "" ->
            Forall (fun c => notSlash c = true) (chars segment) ->
            basename ("uploads/" ++ segment)%string = segment).
  { intros segment Hne Hs.
    assert (E : ("uploads/" ++ segment)%string
                = string_of_list_ascii (chars "uploads" ++ "/"%char :: chars segment)).
    { change (chars "uploads" ++ "/"%char :: chars segment)
        with (chars "uploads/" ++ chars segment).
      rewrite <- chars_append. unfold chars.
      symmetry. apply string_of_list_ascii_of_string. }
    rewrite E, basename_join; [unfold chars; apply string_of_list_ascii_of_string | | exact Hs].
    destruct segment; [contradiction Hne; reflexivity | discriminate]. }
  split.
  - exists ("resized_" ++ ofN stamp ++ "_" ++ basename imagePath)%string.
    assert (Hs : Forall (fun c => notSlash c = true)
                   (chars ("resized_" ++ ofN stamp ++ "_" ++ basename imagePath)%string)).
    { rewrite !chars_append.
      apply Forall_app; split; [repeat constructor|].
      apply Forall_app; split; [apply ofN_no_slash|].
      apply Forall_app; split; [repeat constructor | apply basename_no_slash]. }
    split; [reflexivity|]. split; [discriminate|]. split; [exact (Hslash _ Hs)|].
    unfold resizedPath, joinUploads. apply Hbase; [discriminate | exact Hs].
  - exists ("fetched_" ++ ofN stamp ++ "." ++ extensionOf contentType)%string.
    assert (Hs : Forall (fun c => notSlash c = true)
                   (chars ("fetched_" ++ ofN stamp ++ "." ++ extensionOf contentType)%string)).
    { rewrite !chars_append.
      apply Forall_app; split; [repeat constructor|].
      apply Forall_app; split; [apply ofN_no_slash|].
      apply Forall_app; split; [repeat constructor|].
      destruct (extensionOf_cases contentType) as [E | [E | E]]; rewrite E;
        repeat constructor. }
    split; [reflexivity|]. split; [discriminate|]. split; [exact (Hslash _ Hs)|].
    unfold fetchedPath, joinUploads. apply Hbase; [discriminate | exact Hs].
Qed.
